(** * A shallow embedding of bloom.c (Bloom filter, version 1.0.0)

    The C functions of [bloom.c] are embedded as Rocq functions.  A function
    that takes a [BloomFilter *] becomes a computation in a small state and
    failure monad over the [BloomFilter] record; [None] stands for behaviour
    the C standard leaves undefined (a read outside an array, a call through
    a null pointer, a division by zero, a floating value converted to an
    integer type that cannot hold it).

    Platform choices (those of the usual LP64 little-endian target):
    [long] and [uint64_t] are 64 bits wide, [int] and [unsigned int] are 32
    bits wide, [float] is IEEE-754 binary32 and [double] is binary64, and
    integer conversions wrap.

    Allocation: the bit store is the one block whose size the caller's
    parameters decide, and [bloom.c] uses what [calloc] returns for it
    without a test.  Whether [calloc] grants that block is therefore an
    input, [granted], of each function that asks for it; a refusal is the
    null pointer.  The index array of [md5_hash_default], a few machine
    words, is taken to be granted. *)

From Stdlib Require Import Reals Lra.
From Stdlib Require Import ZArith List Lia Bool Ascii String.
From Stdlib Require Import Floats.SpecFloat.
From stdpp Require Import gmap strings list.

Local Open Scope Z_scope.

(** ** Machine integers *)

Module CInt.

Definition UINT64_MAX : Z := 2 ^ 64 - 1.

(** Conversion to an unsigned type of [w] bits: reduction modulo [2^w]. *)
Definition to_unsigned (w : Z) (z : Z) : Z := z mod 2 ^ w.

(** Conversion to a signed type of [w] bits: two's complement wrap. *)
Definition to_signed (w : Z) (z : Z) : Z :=
  let u := z mod 2 ^ w in
  if u <? 2 ^ (w - 1) then u else u - 2 ^ w.

Definition to_uint64 : Z -> Z := to_unsigned 64.
Definition to_uint : Z -> Z := to_unsigned 32.
Definition to_long : Z -> Z := to_signed 64.
Definition to_int : Z -> Z := to_signed 32.

(** Unary minus on a [long]: overflow (at [LONG_MIN]) is undefined. *)
Definition long_neg (n : Z) : option Z :=
  if n =? - 2 ^ 63 then None else Some (- n).

End CInt.

(** ** IEEE-754 values

    [float] and [double] values are [spec_float]s of the Standard Library,
    with its correctly rounded operations at precision 24 (emax 128) and
    precision 53 (emax 1024). *)

Module IEEE.

Definition float := spec_float.
Definition double := spec_float.

Definition d_normalize (m e : Z) (szero : bool) : double :=
  binary_normalize 53 1024 m e szero.
Definition f_normalize (m e : Z) (szero : bool) : float :=
  binary_normalize 24 128 m e szero.

(** Integer to [double] (exact below [2^53], rounded to nearest above). *)
Definition d_of_Z (z : Z) : double := d_normalize z 0 false.

Definition d_mul : double -> double -> double := SFmul 53 1024.
Definition d_div : double -> double -> double := SFdiv 53 1024.
Definition d_sub : double -> double -> double := SFsub 53 1024.
Definition d_leb : double -> double -> bool := SFleb.
Definition d_ltb : double -> double -> bool := SFltb.
Definition f_div : float -> float -> float := SFdiv 24 128.
Definition f_of_Z (z : Z) : float := f_normalize z 0 false.

(** The usual arithmetic conversions between the two formats. *)
Definition double_of_float (x : float) : double :=
  match x with
  | S754_finite s m e => d_normalize (cond_Zopp s (Zpos m)) e s
  | _ => x
  end.
Definition float_of_double (x : double) : float :=
  match x with
  | S754_finite s m e => f_normalize (cond_Zopp s (Zpos m)) e s
  | _ => x
  end.

(** [ceil]: the least integral value not below [x]; a zero result keeps
    the sign of [x]. *)
Definition d_ceil (x : double) : double :=
  match x with
  | S754_finite s m e =>
      if 0 <=? e then x
      else d_normalize (- ((- cond_Zopp s (Zpos m)) / 2 ^ (- e))) 0 s
  | _ => x
  end.

(** [round]: nearest integral value, halfway cases away from zero. *)
Definition d_round (x : double) : double :=
  match x with
  | S754_finite s m e =>
      if 0 <=? e then x
      else d_normalize
             (cond_Zopp s ((2 * Zpos m + 2 ^ (- e)) / (2 * 2 ^ (- e)))) 0 s
  | _ => x
  end.

(** Conversion of a floating value to an integer type discards the
    fraction; it is undefined when the value is not finite or the
    integral part does not fit the type. *)
Definition d_trunc (x : double) : option Z :=
  match x with
  | S754_zero _ => Some 0
  | S754_finite s m e =>
      Some (cond_Zopp s (if 0 <=? e then Zpos m * 2 ^ e
                         else Zpos m / 2 ^ (- e)))
  | _ => None
  end.

Definition d_to_integer (lo hi : Z) (x : double) : option Z :=
  match d_trunc x with
  | Some z => if (lo <=? z) && (z <=? hi) then Some z else None
  | None => None
  end.

Definition double_to_uint64 : double -> option Z := d_to_integer 0 (2 ^ 64 - 1).
Definition double_to_uint : double -> option Z := d_to_integer 0 (2 ^ 32 - 1).
Definition double_to_long : double -> option Z :=
  d_to_integer (- 2 ^ 63) (2 ^ 63 - 1).

(** The binary32 interchange encoding, as a 32-bit unsigned integer
    (sign, 8 exponent bits, 23 fraction bits).  [spec_float] has a single
    NaN; it is encoded as the default quiet NaN. *)
Definition sign_bit (s : bool) : Z := if s then 2 ^ 31 else 0.

Definition bits_of_float (x : float) : Z :=
  match x with
  | S754_zero s => sign_bit s
  | S754_infinity s => sign_bit s + 255 * 2 ^ 23
  | S754_nan => 255 * 2 ^ 23 + 2 ^ 22
  | S754_finite s m e =>
      sign_bit s +
      (if Zpos m <? 2 ^ 23 then Zpos m
       else (e + 150) * 2 ^ 23 + (Zpos m - 2 ^ 23))
  end.

Definition float_of_bits (b : Z) : float :=
  let s := 2 ^ 31 <=? b in
  let ex := (b / 2 ^ 23) mod 256 in
  let fr := b mod 2 ^ 23 in
  if ex =? 0 then
    match fr with
    | Zpos m => S754_finite s m (- 149)
    | _ => S754_zero s
    end
  else if ex =? 255 then
    if fr =? 0 then S754_infinity s else S754_nan
  else
    match fr + 2 ^ 23 with
    | Zpos m => S754_finite s m (ex - 150)
    | _ => S754_nan
    end.

Definition valid_float (x : float) : bool := valid_binary 24 128 x.

End IEEE.

(** ** Bytes in memory and in files (little-endian) *)

Module Bytes.

(** The [n] bytes of the object representation of the integer [z]. *)
Fixpoint le_bytes (n : nat) (z : Z) : list Z :=
  match n with
  | O => []
  | S n' => z mod 256 :: le_bytes n' (z / 256)
  end.

(** The unsigned integer a sequence of bytes represents. *)
Fixpoint le_value (bs : list Z) : Z :=
  match bs with
  | [] => 0
  | b :: bs' => b + 256 * le_value bs'
  end.

(** [strlen] bytes of a C string: the characters before the first NUL. *)
Fixpoint c_str (s : string) : list Z :=
  match s with
  | EmptyString => []
  | String a s' =>
      if Ascii.eqb a Ascii.zero then []
      else Z.of_N (N_of_ascii a) :: c_str s'
  end.

End Bytes.

(** ** Files

    A file system maps paths to contents; [writable] tells for which paths
    [fopen] in a writing mode succeeds.  A stream is the list of bytes that
    is still to be read, or that has been written so far. *)

Record FileSystem := {
  files : gmap string (list Z);
  writable : string -> bool
}.

Module Stdio.

(** [fopen(path, "wb")]: null when the file cannot be opened for writing,
    otherwise an empty stream. *)
Definition fopen_wb (fs : FileSystem) (path : string) : option (list Z) :=
  if writable fs path then Some [] else None.

(** [fopen(path, "r+b")]: the file must exist and be open to writing. *)
Definition fopen_rpb (fs : FileSystem) (path : string) : option (list Z) :=
  if writable fs path then files fs !! path else None.

Definition fwrite (data : list Z) (fp : list Z) : list Z := fp ++ data.

(** [fclose] of a stream opened by [fopen_wb]: the file now holds what was
    written. *)
Definition fclose (fs : FileSystem) (path : string) (fp : list Z) : FileSystem :=
  {| files := <[path := fp]> (files fs); writable := writable fs |}.

(** [fread] of [n] bytes into an object whose bytes are [old]: the bytes
    that the stream still has overwrite the object from its start, the
    rest of the object keeps what it held. *)
Definition fread (old : list Z) (n : nat) (fp : list Z) : list Z * list Z :=
  let got := take n fp in
  (got ++ drop (length got) (take n old), drop n fp).

End Stdio.

(** ** The filter

    The header [bloom.h] is not among the sources; what [bloom.c] takes
    from it is declared here. *)

(** Modelled from the spec: the status codes [BLOOM_SUCCESS] and
    [BLOOM_FAILURE] of the missing header [bloom.h]; every fallible
    operation reports one of exactly two outcomes, success or failure. *)
Inductive status := BLOOM_SUCCESS | BLOOM_FAILURE.

(** Modelled from the spec: the [HashFunction] pointer type of the missing
    header [bloom.h], a function from (count, modulus, item) to a sequence
    of indices.  [bloom.c] calls it with [int num_hashes],
    [uint64_t num_bits] and the string, and reads an array of [uint64_t]
    from the result: the array, or [None] when the call is undefined. *)
Definition HashFunction := Z -> Z -> string -> option (list Z).

(** Modelled from the spec: the [BloomFilter] struct of the missing header
    [bloom.h].  The fields are those of section 3 of the specification
    under the names [bloom.c] uses, with the C types [bloom.c] treats them
    as. *)
Record BloomFilter := {
  estimated_elements : Z;                      (* uint64_t *)
  false_positive_probability : IEEE.float;     (* float *)
  number_hashes : Z;                           (* unsigned int *)
  number_bits : Z;                             (* uint64_t *)
  bloom : option (list Z);                     (* byte array, None is NULL *)
  bloom_length : Z;                            (* long *)
  elements_added : Z;                          (* uint64_t *)
  hash_function : option HashFunction          (* None is NULL *)
}.

Definition set_estimated_elements (v : Z) (bf : BloomFilter) : BloomFilter :=
  {| estimated_elements := v;
     false_positive_probability := false_positive_probability bf;
     number_hashes := number_hashes bf; number_bits := number_bits bf;
     bloom := bloom bf; bloom_length := bloom_length bf;
     elements_added := elements_added bf; hash_function := hash_function bf |}.

Definition set_false_positive_probability (v : IEEE.float) (bf : BloomFilter) : BloomFilter :=
  {| estimated_elements := estimated_elements bf;
     false_positive_probability := v;
     number_hashes := number_hashes bf; number_bits := number_bits bf;
     bloom := bloom bf; bloom_length := bloom_length bf;
     elements_added := elements_added bf; hash_function := hash_function bf |}.

Definition set_number_hashes (v : Z) (bf : BloomFilter) : BloomFilter :=
  {| estimated_elements := estimated_elements bf;
     false_positive_probability := false_positive_probability bf;
     number_hashes := v; number_bits := number_bits bf;
     bloom := bloom bf; bloom_length := bloom_length bf;
     elements_added := elements_added bf; hash_function := hash_function bf |}.

Definition set_number_bits (v : Z) (bf : BloomFilter) : BloomFilter :=
  {| estimated_elements := estimated_elements bf;
     false_positive_probability := false_positive_probability bf;
     number_hashes := number_hashes bf; number_bits := v;
     bloom := bloom bf; bloom_length := bloom_length bf;
     elements_added := elements_added bf; hash_function := hash_function bf |}.

Definition set_bloom (v : option (list Z)) (bf : BloomFilter) : BloomFilter :=
  {| estimated_elements := estimated_elements bf;
     false_positive_probability := false_positive_probability bf;
     number_hashes := number_hashes bf; number_bits := number_bits bf;
     bloom := v; bloom_length := bloom_length bf;
     elements_added := elements_added bf; hash_function := hash_function bf |}.

Definition set_bloom_length (v : Z) (bf : BloomFilter) : BloomFilter :=
  {| estimated_elements := estimated_elements bf;
     false_positive_probability := false_positive_probability bf;
     number_hashes := number_hashes bf; number_bits := number_bits bf;
     bloom := bloom bf; bloom_length := v;
     elements_added := elements_added bf; hash_function := hash_function bf |}.

Definition set_elements_added (v : Z) (bf : BloomFilter) : BloomFilter :=
  {| estimated_elements := estimated_elements bf;
     false_positive_probability := false_positive_probability bf;
     number_hashes := number_hashes bf; number_bits := number_bits bf;
     bloom := bloom bf; bloom_length := bloom_length bf;
     elements_added := v; hash_function := hash_function bf |}.

Definition set_hash_function (v : option HashFunction) (bf : BloomFilter) : BloomFilter :=
  {| estimated_elements := estimated_elements bf;
     false_positive_probability := false_positive_probability bf;
     number_hashes := number_hashes bf; number_bits := number_bits bf;
     bloom := bloom bf; bloom_length := bloom_length bf;
     elements_added := elements_added bf; hash_function := v |}.

(** ** Computations on a filter: state and undefined behaviour *)

Definition M (A : Type) : Type := BloomFilter -> option (A * BloomFilter).

Definition ret {A} (a : A) : M A := fun bf => Some (a, bf).

Definition bind {A B} (m : M A) (k : A -> M B) : M B :=
  fun bf => match m bf with
            | Some (a, bf') => k a bf'
            | None => None
            end.

(** [bf->field] read, and [bf->field = v] through a setter. *)
Definition load {A} (field : BloomFilter -> A) : M A := fun bf => Some (field bf, bf).
Definition store {A} (setter : A -> BloomFilter -> BloomFilter) (v : A) : M unit :=
  fun bf => Some (tt, setter v bf).

(** A step that is undefined on [None]. *)
Definition defined {A} (o : option A) : M A :=
  fun bf => match o with
            | Some a => Some (a, bf)
            | None => None
            end.

Notation "'let*' x ':=' m 'in' k" := (bind m (fun x => k))
  (at level 10, x name, m at level 100, k at level 200).

(** ** The bit store macros *)

Definition CHAR_LEN : Z := 8.

(** [set_bit(A,k)]: [A[k / 8] |= 1 << (k % 8)], stored back into an
    [unsigned char]. *)
Definition set_bit (A : list Z) (k : Z) : option (list Z) :=
  match A !! Z.to_nat (k / 8) with
  | Some b => Some (<[Z.to_nat (k / 8) := Z.lor b (Z.shiftl 1 (k mod 8)) mod 256]> A)
  | None => None
  end.

(** [clear_bit(A,k)]: [A[k / 8] &= ~(1 << (k % 8))]; no function of
    [bloom.c] uses it. *)
Definition clear_bit (A : list Z) (k : Z) : option (list Z) :=
  match A !! Z.to_nat (k / 8) with
  | Some b => Some (<[Z.to_nat (k / 8) := Z.land b (Z.lnot (Z.shiftl 1 (k mod 8))) mod 256]> A)
  | None => None
  end.

(** [check_bit(A,k)]: [A[k / 8] & (1 << (k % 8))]. *)
Definition check_bit (A : list Z) (k : Z) : option Z :=
  match A !! Z.to_nat (k / 8) with
  | Some b => Some (Z.land b (Z.shiftl 1 (k mod 8)))
  | None => None
  end.

(** [calloc(n, sizeof(char))] for a [long] count: [n] zeroed bytes when
    the allocator grants the request, NULL when it refuses; a negative
    count is an impossible size and gives NULL. *)
Definition calloc (granted : bool) (n : Z) : option (list Z) :=
  if (n <? 0) || negb granted then None else Some (replicate (Z.to_nat n) 0).

Definition LOG_TWO_SQUARED : IEEE.double :=
  Eval vm_compute in
    IEEE.d_div (IEEE.d_of_Z 4804530139182) (IEEE.d_of_Z (10 ^ 13)).

Definition MD5_DIGEST_LENGTH : Z := 16.

(** [free(p)]: the block is released; [free(NULL)] does nothing.  The
    record only holds the pointer, which the caller overwrites. *)
Definition free {A} (p : option A) : M unit := ret tt.

(** The [size] bytes that [fwrite(ptr, size, 1, fp)] reads from [ptr]:
    nothing for a size of zero, undefined past the end of the block or
    through a null pointer. *)
Definition object_bytes (ptr : option (list Z)) (size : Z) : option (list Z) :=
  if size =? 0 then Some []
  else match ptr with
       | Some bytes =>
           if (0 <? size) && (size <=? Z.of_nat (length bytes))
           then Some (take (Z.to_nat size) bytes) else None
       | None => None
       end.

(** [fread(ptr, 1, count, fp)] into the block at [ptr]: the new contents of
    the block. *)
Definition fread_block (ptr : option (list Z)) (count : Z) (fp : list Z) : option (option (list Z)) :=
  if count =? 0 then Some ptr
  else match ptr with
       | Some bytes =>
           if (0 <? count) && (count <=? Z.of_nat (length bytes))
           then Some (Some (fst (Stdio.fread bytes (Z.to_nat count) fp)
                            ++ drop (Z.to_nat count) bytes))
           else None
       | None => None
       end.

Section Bloom.

(** What [bloom.c] takes from libraries: the MD5 digest of a buffer
    ([MD5_Init], one [MD5_Update], [MD5_Final] of OpenSSL) and [log],
    [exp] and [pow] of the C mathematical library. *)
Variable MD5 : list Z -> list Z.
Variable log exp : IEEE.double -> IEEE.double.
Variable pow : IEEE.double -> IEEE.double -> IEEE.double.

(** *** Private functions *)

(** The loop of [md5_hash_default]; [digest] is the buffer left by the
    previous iteration, [results] the array being filled. *)
Fixpoint md5_hash_loop (iters : nat) (i : Z) (num_bits : Z) (str : string)
    (digest : list Z) (results : list Z) : option (list Z) :=
  match iters with
  | O => Some results
  | S iters' =>
      let digest' := MD5 (if i =? 0 then Bytes.c_str str
                          else take (Z.to_nat MD5_DIGEST_LENGTH) digest) in
      if num_bits =? 0 then None
      else md5_hash_loop iters' (i + 1) num_bits str digest'
             (<[Z.to_nat i := Bytes.le_value (take 8 digest') mod num_bits]> results)
  end.

Definition md5_hash_default : HashFunction :=
  fun num_hashes num_bits str =>
    md5_hash_loop (Z.to_nat num_hashes) 0 num_bits str []
      (replicate (Z.to_nat num_hashes) 0).

Definition calculate_optimal_hashes : M unit :=
  let* elements := load estimated_elements in
  let n := CInt.to_long elements in
  let* p := load false_positive_probability in
  let* minus_n := defined (CInt.long_neg n) in
  let* m := defined (IEEE.double_to_uint64
               (IEEE.d_ceil
                  (IEEE.d_div
                     (IEEE.d_mul (IEEE.d_of_Z minus_n) (log (IEEE.double_of_float p)))
                     LOG_TWO_SQUARED))) in
  let* k := defined (IEEE.double_to_uint
               (IEEE.d_round
                  (IEEE.d_div
                     (IEEE.d_mul (log (IEEE.d_of_Z 2)) (IEEE.d_of_Z m))
                     (IEEE.d_of_Z n)))) in
  let* _ := store set_number_hashes k in
  let* _ := store set_number_bits m in
  let* num_pos := defined (IEEE.double_to_long
               (IEEE.d_ceil
                  (IEEE.d_div (IEEE.d_of_Z m)
                     (IEEE.d_mul (IEEE.d_of_Z CHAR_LEN) (IEEE.d_of_Z 1))))) in
  store set_bloom_length num_pos.

(** *** Public functions *)

Definition bloom_filter_set_hash_function (hf : option HashFunction) : M unit :=
  match hf with
  | None => store set_hash_function (Some md5_hash_default)
  | Some f => store set_hash_function (Some f)
  end.

(** [granted]: whether [calloc] grants the bit store.  Its result is
    stored as it comes, and the function returns [BLOOM_SUCCESS] either
    way. *)
Definition bloom_filter_init (granted : bool) (elements : Z)
    (false_positive_rate : IEEE.float) (hf : option HashFunction) : M status :=
  if (elements <=? 0) || (CInt.UINT64_MAX <? elements) then ret BLOOM_FAILURE
  else if IEEE.d_leb (IEEE.double_of_float false_positive_rate) (IEEE.d_of_Z 0)
          || IEEE.d_leb (IEEE.d_of_Z 1) (IEEE.double_of_float false_positive_rate)
  then ret BLOOM_FAILURE
  else
    let* _ := store set_estimated_elements elements in
    let* _ := store set_false_positive_probability false_positive_rate in
    let* _ := calculate_optimal_hashes in
    let* len := load bloom_length in
    let* _ := store set_bloom (calloc granted len) in
    let* _ := store set_elements_added 0 in
    let* _ := bloom_filter_set_hash_function hf in
    ret BLOOM_SUCCESS.

Definition bloom_filter_destroy : M status :=
  let* A := load bloom in
  let* _ := free A in
  let* _ := store set_bloom None in
  let* _ := store set_elements_added 0 in
  let* _ := store set_estimated_elements 0 in
  let* _ := store set_false_positive_probability (S754_zero false) in
  let* _ := store set_number_hashes 0 in
  let* _ := store set_number_bits 0 in
  let* _ := store set_hash_function None in
  ret BLOOM_SUCCESS.

Fixpoint add_string_loop (iters : nat) (i : Z) (hashes : list Z) : M unit :=
  match iters with
  | O => ret tt
  | S iters' =>
      let* h := defined (hashes !! Z.to_nat i) in
      let* ptr := load bloom in
      let* A := defined ptr in
      let* A' := defined (set_bit A h) in
      let* _ := store set_bloom (Some A') in
      add_string_loop iters' (i + 1) hashes
  end.

Definition bloom_filter_add_string (str : string) : M status :=
  let* hf := load hash_function in
  let* f := defined hf in
  let* k := load number_hashes in
  let* m := load number_bits in
  let* hashes := defined (f (CInt.to_int k) m str) in
  let* _ := add_string_loop (Z.to_nat k) 0 hashes in
  let* _ := free (Some hashes) in
  let* added := load elements_added in
  let* _ := store set_elements_added (CInt.to_uint64 (added + 1)) in
  ret BLOOM_SUCCESS.

(** The loop of [bloom_filter_check_string]: [r] is [BLOOM_SUCCESS] until
    a probed bit is found clear. *)
Fixpoint check_string_loop (iters : nat) (i : Z) (hashes : list Z) : M status :=
  match iters with
  | O => ret BLOOM_SUCCESS
  | S iters' =>
      let* h := defined (hashes !! Z.to_nat i) in
      let* ptr := load bloom in
      let* A := defined ptr in
      let* t := defined (check_bit A h) in
      if t =? 0 then ret BLOOM_FAILURE
      else check_string_loop iters' (i + 1) hashes
  end.

Definition bloom_filter_check_string (str : string) : M status :=
  let* hf := load hash_function in
  let* f := defined hf in
  let* k := load number_hashes in
  let* m := load number_bits in
  let* hashes := defined (f (CInt.to_int k) m str) in
  let* r := check_string_loop (Z.to_nat k) 0 hashes in
  let* _ := free (Some hashes) in
  ret r.

(** [int num = bf->number_hashes * -1 * bf->elements_added]: the product
    is taken in [unsigned int], then in [uint64_t], and stored in an
    [int]. *)
Definition false_positive_rate_num (k added : Z) : Z :=
  CInt.to_int (CInt.to_uint64 (CInt.to_uint (k * -1) * added)).

Definition bloom_filter_current_false_positive_rate : M IEEE.float :=
  let* k := load number_hashes in
  let* added := load elements_added in
  let num := false_positive_rate_num k added in
  let* m := load number_bits in
  let d := IEEE.d_div (IEEE.d_mul (IEEE.d_of_Z num) (IEEE.d_of_Z 1))
                      (IEEE.d_mul (IEEE.d_of_Z m) (IEEE.d_of_Z 1)) in
  let e := exp d in
  ret (IEEE.float_of_double
         (pow (IEEE.d_sub (IEEE.d_of_Z 1) e) (IEEE.d_of_Z k))).

Definition bloom_filter_export (filepath : string) (fs : FileSystem) : M (status * FileSystem) :=
  match Stdio.fopen_wb fs filepath with
  | None => ret (BLOOM_FAILURE, fs)
  | Some fp =>
      let* elements := load estimated_elements in
      let fp := Stdio.fwrite (Bytes.le_bytes 8 elements) fp in
      let* added := load elements_added in
      let fp := Stdio.fwrite (Bytes.le_bytes 8 added) fp in
      let* p := load false_positive_probability in
      let fp := Stdio.fwrite (Bytes.le_bytes 4 (IEEE.bits_of_float p)) fp in
      let* ptr := load bloom in
      let* len := load bloom_length in
      let* data := defined (object_bytes ptr len) in
      let fp := Stdio.fwrite data fp in
      ret (BLOOM_SUCCESS, Stdio.fclose fs filepath fp)
  end.

(** [granted]: whether [calloc] grants the bit store; [fread] is handed
    what it returned. *)
Definition bloom_filter_import (granted : bool) (filepath : string)
    (hf : option HashFunction) (fs : FileSystem) : M status :=
  match Stdio.fopen_rpb fs filepath with
  | None => ret BLOOM_FAILURE
  | Some fp =>
      let* elements := load estimated_elements in
      let '(bytes, fp) := Stdio.fread (Bytes.le_bytes 8 elements) 8 fp in
      let* _ := store set_estimated_elements (Bytes.le_value bytes) in
      let* added := load elements_added in
      let '(bytes, fp) := Stdio.fread (Bytes.le_bytes 8 added) 8 fp in
      let* _ := store set_elements_added (Bytes.le_value bytes) in
      let* p := load false_positive_probability in
      let '(bytes, fp) := Stdio.fread (Bytes.le_bytes 4 (IEEE.bits_of_float p)) 4 fp in
      let* _ := store set_false_positive_probability
                  (IEEE.float_of_bits (Bytes.le_value bytes)) in
      let* _ := calculate_optimal_hashes in
      let* len := load bloom_length in
      let* _ := store set_bloom (calloc granted len) in
      let* ptr := load bloom in
      let* ptr' := defined (fread_block ptr len fp) in
      let* _ := store set_bloom ptr' in
      let* _ := bloom_filter_set_hash_function hf in
      ret BLOOM_SUCCESS
  end.

End Bloom.

(** ** Sample instances of the library functions

    [sample_log] tabulates the values the C library's [log] returns at the
    arguments the scenarios below use (correctly rounded natural
    logarithms); [sample_digest] is a 16-byte mixing function standing for
    the digest.  They instantiate the library functions where a statement
    is run on concrete data. *)

Module Sample.

Definition f_0_01 : IEEE.float := Eval vm_compute in IEEE.f_div (IEEE.f_of_Z 1) (IEEE.f_of_Z 100).
Definition f_0_05 : IEEE.float := Eval vm_compute in IEEE.f_div (IEEE.f_of_Z 5) (IEEE.f_of_Z 100).
Definition f_0_65 : IEEE.float := Eval vm_compute in IEEE.f_div (IEEE.f_of_Z 65) (IEEE.f_of_Z 100).

Definition log_2 : IEEE.double := S754_finite false 6243314768165359 (-53).
Definition log_0_01 : IEEE.double := S754_finite true 5184960708564246 (-50).
Definition log_0_05 : IEEE.double := S754_finite true 6745789341885330 (-51).
Definition log_0_65 : IEEE.double := S754_finite true 7760295782330422 (-54).

Definition sample_log (x : IEEE.double) : IEEE.double :=
  if SFeqb x (IEEE.d_of_Z 2) then log_2
  else if SFeqb x (IEEE.double_of_float f_0_01) then log_0_01
  else if SFeqb x (IEEE.double_of_float f_0_05) then log_0_05
  else if SFeqb x (IEEE.double_of_float f_0_65) then log_0_65
  else S754_nan.

Definition sample_exp (x : IEEE.double) : IEEE.double := S754_nan.
Definition sample_pow (x y : IEEE.double) : IEEE.double := S754_nan.

Definition sample_digest (input : list Z) : list Z :=
  Bytes.le_bytes 16
    (fold_left (fun h b => ((h + b + 1) * 1099511628211) mod 2 ^ 128)
               input 14695981039346656037).

Definition blank : BloomFilter :=
  {| estimated_elements := 0; false_positive_probability := S754_zero false;
     number_hashes := 0; number_bits := 0; bloom := None; bloom_length := 0;
     elements_added := 0; hash_function := None |}.

(** The filters of scenario A (capacity 10000, rate 0.01) and scenario B
    (capacity 100, rate 0.05) as construction leaves them when the bit
    store is granted. *)
Definition scenario_A : BloomFilter :=
  {| estimated_elements := 10000; false_positive_probability := f_0_01;
     number_hashes := 7; number_bits := 95851;
     bloom := Some (replicate (Z.to_nat 11982) 0); bloom_length := 11982;
     elements_added := 0;
     hash_function := Some (md5_hash_default sample_digest) |}.

Definition scenario_B : BloomFilter :=
  {| estimated_elements := 100; false_positive_probability := f_0_05;
     number_hashes := 4; number_bits := 624;
     bloom := Some (replicate 78 0); bloom_length := 78;
     elements_added := 0;
     hash_function := Some (md5_hash_default sample_digest) |}.

(** The filter of scenario A after 400000000 insertions, as far as the
    estimate of the rate reads it. *)
Definition scenario_A_worn : BloomFilter :=
  set_elements_added 400000000 scenario_A.

(** A file system with no file, where every path can be opened for
    writing. *)
Definition empty_disk : FileSystem :=
  {| files := ∅; writable := fun _ => true |}.

End Sample.

(** ** Notions used to state the properties *)

(** Bit [k] of the bit store is 1. *)
Definition test_bit (A : list Z) (k : Z) : bool :=
  match check_bit A k with
  | Some t => negb (t =? 0)
  | None => false
  end.

(** The number of 1 bits of the bit store. *)
Definition count_set_bits (A : list Z) : nat :=
  length (List.filter (fun k => test_bit A (Z.of_nat k))
                      (seq 0 (8 * length A))).

(** The contract of a hash strategy for [k] probes into [m] bits: on every
    string it returns at least [k] indices, all of them in [[0, m)]. *)
Definition hash_contract (hf : HashFunction) (k m : Z) : Prop :=
  forall str, exists hashes,
    hf (CInt.to_int k) m str = Some hashes /\
    (Z.to_nat k <= length hashes)%nat /\
    Forall (fun h => 0 <= h < m) hashes.

(** The invariants of the data model on a live filter: the bit store holds
    [bloom_length] bytes, which cover [number_bits] bits, and the bound hash
    strategy honours its contract. *)
Record valid_filter (bf : BloomFilter) : Prop := {
  valid_bloom : exists A, bloom bf = Some A /\
                          Z.of_nat (length A) = bloom_length bf /\
                          number_bits bf <= 8 * Z.of_nat (length A);
  valid_hash : exists hf, hash_function bf = Some hf /\
                          hash_contract hf (number_hashes bf) (number_bits bf)
}.

(** The probes [hashes[n .. n + iters)] exist and fall into the store. *)
Definition probes_ok (hashes : list Z) (A : list Z) (n iters : nat) : Prop :=
  forall j, (n <= j < n + iters)%nat ->
    exists h, hashes !! j = Some h /\ (Z.to_nat (h / 8) < length A)%nat.

(** A sequence of insertions, in order. *)
Fixpoint add_strings (strs : list string) : M unit :=
  match strs with
  | [] => ret tt
  | str :: rest => let* _ := bloom_filter_add_string str in add_strings rest
  end.

(** Iterated digesting: the digest of the item's bytes, then the digest of
    the [MD5_DIGEST_LENGTH] bytes of the previous digest, and so on. *)
Fixpoint digest_chain (MD5 : list Z -> list Z) (item : string) (i : nat) : list Z :=
  match i with
  | O => MD5 (Bytes.c_str item)
  | S j => MD5 (take (Z.to_nat MD5_DIGEST_LENGTH) (digest_chain MD5 item j))
  end.

(** The index the default adapter derives from the digest of step [i]. *)
Definition adapter_index (MD5 : list Z -> list Z) (item : string) (modulus : Z) (i : nat) : Z :=
  Bytes.le_value (take 8 (digest_chain MD5 item i)) mod modulus.

(** The record [bloom_filter_export] writes: the three header fields, then
    the bytes of the bit store. *)
Definition export_record (bf : BloomFilter) (A : list Z) : list Z :=
  Bytes.le_bytes 8 (estimated_elements bf) ++
  Bytes.le_bytes 8 (elements_added bf) ++
  Bytes.le_bytes 4 (IEEE.bits_of_float (false_positive_probability bf)) ++
  A.

(** The strategy [bloom_filter_set_hash_function] binds for an argument. *)
Definition bound_strategy (MD5 : list Z -> list Z) (hf : option HashFunction) : HashFunction :=
  match hf with
  | None => md5_hash_default MD5
  | Some f => f
  end.

(** A filter as construction leaves it and insertion keeps it: the fields
    are in the range of their C types, the rate is a binary32 value, the
    sizing fields are the ones [calculate_optimal_hashes] derives from the
    two parameters, and the bit store holds [bloom_length] bytes. *)
Record persistable (log : IEEE.double -> IEEE.double) (bf : BloomFilter) : Prop := {
  p_elements : 0 <= estimated_elements bf < 2 ^ 64;
  p_added : 0 <= elements_added bf < 2 ^ 64;
  p_rate : IEEE.valid_float (false_positive_probability bf) = true;
  p_sized : calculate_optimal_hashes log bf = Some (tt, bf);
  p_bloom : exists A, bloom bf = Some A /\ Z.of_nat (length A) = bloom_length bf
}.

(** The sign of a floating value that is not a NaN. *)
Definition sign_is (s : bool) (x : spec_float) : Prop :=
  match x with
  | S754_zero s' | S754_infinity s' | S754_finite s' _ _ => s' = s
  | S754_nan => True
  end.

(** The call returned [BLOOM_FAILURE]. *)
Definition returns_failure {A} (o : option (status * A)) : bool :=
  match o with
  | Some (BLOOM_FAILURE, _) => true
  | _ => false
  end.

(** The filter of scenario B after the insertion of its three strings. *)
Definition scenario_B_filled : BloomFilter :=
  match add_strings ["alpha"; "beta"; "gamma"]%string Sample.scenario_B with
  | Some (_, bf) => bf
  | None => Sample.scenario_B
  end.

(** The operations of [bloom.c] on a filter ([bloom_filter_stats], which
    only prints, apart), and a run of them.  An operation that allocates
    carries the outcome of its allocation. *)
Inductive operation :=
  | op_init (granted : bool) (elements : Z) (rate : IEEE.float)
            (hf : option HashFunction)
  | op_set_hash_function (hf : option HashFunction)
  | op_destroy
  | op_add_string (str : string)
  | op_check_string (str : string)
  | op_current_false_positive_rate
  | op_export (filepath : string)
  | op_import (granted : bool) (filepath : string) (hf : option HashFunction).

(** The operations that give the filter another bit store, or none:
    construction and import store the result of a new [calloc], destruction
    frees the store and stores NULL. *)
Definition replaces_store (op : operation) : bool :=
  match op with
  | op_init _ _ _ _ | op_import _ _ _ | op_destroy => true
  | _ => false
  end.

(** Bit [k] of the filter is set: there is a bit store and it has a 1 at
    position [k]. *)
Definition bit_is_set (bf : BloomFilter) (k : Z) : bool :=
  match bloom bf with
  | Some A => test_bit A k
  | None => false
  end.

Section Runs.

Variable MD5 : list Z -> list Z.
Variable log exp : IEEE.double -> IEEE.double.
Variable pow : IEEE.double -> IEEE.double -> IEEE.double.

Definition run_operation (op : operation) (st : BloomFilter * FileSystem)
    : option (BloomFilter * FileSystem) :=
  let '(bf, fs) := st in
  match op with
  | op_init granted elements rate hf =>
      match bloom_filter_init MD5 log granted elements rate hf bf with
      | Some (_, bf') => Some (bf', fs)
      | None => None
      end
  | op_set_hash_function hf =>
      match bloom_filter_set_hash_function MD5 hf bf with
      | Some (_, bf') => Some (bf', fs)
      | None => None
      end
  | op_destroy =>
      match bloom_filter_destroy bf with
      | Some (_, bf') => Some (bf', fs)
      | None => None
      end
  | op_add_string str =>
      match bloom_filter_add_string str bf with
      | Some (_, bf') => Some (bf', fs)
      | None => None
      end
  | op_check_string str =>
      match bloom_filter_check_string str bf with
      | Some (_, bf') => Some (bf', fs)
      | None => None
      end
  | op_current_false_positive_rate =>
      match bloom_filter_current_false_positive_rate exp pow bf with
      | Some (_, bf') => Some (bf', fs)
      | None => None
      end
  | op_export filepath =>
      match bloom_filter_export filepath fs bf with
      | Some ((_, fs'), bf') => Some (bf', fs')
      | None => None
      end
  | op_import granted filepath hf =>
      match bloom_filter_import MD5 log granted filepath hf fs bf with
      | Some (_, bf') => Some (bf', fs)
      | None => None
      end
  end.

(** The operation clears no set bit of the filter it is run on. *)
Definition clears_no_bit (op : operation) (bf : BloomFilter) (fs : FileSystem) : Prop :=
  forall st' k,
    run_operation op (bf, fs) = Some st' ->
    bit_is_set bf k = true -> bit_is_set (fst st') k = true.

Fixpoint run_operations (ops : list operation) (st : BloomFilter * FileSystem)
    : option (BloomFilter * FileSystem) :=
  match ops with
  | [] => Some st
  | op :: rest =>
      match run_operation op st with
      | Some st' => run_operations rest st'
      | None => None
      end
  end.

End Runs.

(** ** The formula of the specification, over the reals *)

Module Formula.

(** The real number a floating value stands for (0 where it stands for
    none). *)
Definition real_value (x : spec_float) : R :=
  match x with
  | S754_finite s m e => (IZR (cond_Zopp s (Zpos m)) * powerRZ 2 e)%R
  | _ => 0%R
  end.

(** The integer nearest to [x], halves away from zero. *)
Definition Rround (x : R) : Z :=
  if Rle_dec 0 x then Zfloor (x + / 2) else Zceil (x - / 2).

(** The sizing of section 4.1 of the specification:
    [m = ceil(-n * ln(p) / (ln 2)^2)], [k = round(ln(2) * m / n)] and
    [bit_store_length = ceil(m / 8)]. *)
Definition spec_number_bits (n : Z) (p : R) : Z :=
  Zceil (- IZR n * ln p / (ln 2) ^ 2).
Definition spec_number_hashes (n m : Z) : Z :=
  Rround (ln 2 * IZR m / IZR n).
Definition spec_bit_store_length (m : Z) : Z :=
  Zceil (IZR m / 8).

(** Enclosures of the exponential at a rational [A / G], scaled by [D]:
    [exp t] lies between [1 + t] and [1 / (1 - t)] for a small [t], and
    squaring [K] times carries the enclosure of [exp (A / (G * 2^K))] to
    one of [exp (A / G)], with every quotient rounded outwards. *)
Definition G : Z := 2 ^ 96.
Definition K : nat := 100.
Definition D : Z := 2 ^ 260.

Definition sq_above (d z : Z) : Z := (z * z + d - 1) / d.
Definition sq_below (d z : Z) : Z := (z * z) / d.

Fixpoint iter_sq (f : Z -> Z) (k : nat) (z : Z) : Z :=
  match k with
  | O => z
  | S k' => iter_sq f k' (f z)
  end.

Definition base_above (d t a : Z) : Z := (d * t + (t - a) - 1) / (t - a).
Definition base_below (d t a : Z) : Z := d + (a * d) / t.

Definition exp_above (A : Z) : Z :=
  iter_sq (sq_above D) K (base_above D (G * 2 ^ Z.of_nat K) A).
Definition exp_below (A : Z) : Z :=
  iter_sq (sq_below D) K (base_below D (G * 2 ^ Z.of_nat K) A).

(** Numerators over [G] of rationals just below and just above [ln 2],
    [- ln 0.01f] and [- ln 0.65f]. *)
Definition ln_2_lo : Z := 54916777467707473351141405592.
Definition ln_2_hi : Z := 54916777467707473351141536665.
Definition ln_inv_0_01_lo : Z := 364859173672196879047586361692.
Definition ln_inv_0_01_hi : Z := 364859173672196879047586492765.
Definition ln_inv_0_65_lo : Z := 34130141790613398935304863610.
Definition ln_inv_0_65_hi : Z := 34130141790613398935304994683.

End Formula.

(** ** The testing function [print_bits]

    Standard output is the string the function returns. *)

(** The loop of [print_bits]: one character per bit, from bit [i] on. *)
Fixpoint print_bits_loop (iters : nat) (i : Z) (ch : Z) : string :=
  match iters with
  | O => EmptyString
  | S iters' =>
      String (if Z.land ch (Z.shiftl 1 i) =? 0 then "0"%char else "1"%char)
             (print_bits_loop iters' (i + 1) ch)
  end.

Definition print_bits (ch : Z) : string :=
  String.append (print_bits_loop (Z.to_nat CHAR_LEN) 0 ch) (String "010"%char EmptyString).

(** ** Further notions used to state properties *)

(** The number a string of ['0'] and ['1'] characters spells, least
    significant bit first. *)
Fixpoint read_bits (s : string) : Z :=
  match s with
  | EmptyString => 0
  | String c rest => (if Ascii.eqb c "1"%char then 1 else 0) + 2 * read_bits rest
  end.

(** Every element of the store is the value of an [unsigned char]. *)
Definition byte_store (A : list Z) : Prop := Forall (fun b => 0 <= b < 256) A.

(** The indices an operation on [bf] probes for the string [x]: the first
    [number_hashes] elements of the array the hash strategy returns (none
    when the call is undefined). *)
Definition probes (bf : BloomFilter) (x : string) : list Z :=
  match hash_function bf with
  | Some hf =>
      match hf (CInt.to_int (number_hashes bf)) (number_bits bf) x with
      | Some hashes => take (Z.to_nat (number_hashes bf)) hashes
      | None => []
      end
  | None => []
  end.

(** The 20 bytes [bloom_filter_export] writes before the bit store. *)
Definition export_header (bf : BloomFilter) : list Z :=
  Bytes.le_bytes 8 (estimated_elements bf) ++
  Bytes.le_bytes 8 (elements_added bf) ++
  Bytes.le_bytes 4 (IEEE.bits_of_float (false_positive_probability bf)).

(** * Properties *)

(** ** The bit store *)

Section BitStore.

Lemma land_shiftl_1 (b i : Z) :
  0 <= i -> Z.land b (Z.shiftl 1 i) = if Z.testbit b i then 2 ^ i else 0.
Proof.
  intros Hi. rewrite Z.shiftl_1_l.
  apply Z.bits_inj'. intros n Hn.
  rewrite Z.land_spec, Z.pow2_bits_eqb by lia.
  destruct (Z.eqb_spec i n) as [->|Hne].
  - rewrite andb_true_r. destruct (Z.testbit b n) eqn:E.
    + rewrite Z.pow2_bits_true; lia.
    + now rewrite Z.bits_0.
  - rewrite andb_false_r. destruct (Z.testbit b i).
    + rewrite Z.pow2_bits_false; lia.
    + now rewrite Z.bits_0.
Qed.

Lemma test_bit_spec (A : list Z) (k : Z) :
  test_bit A k = true <->
  exists b, A !! Z.to_nat (k / 8) = Some b /\ Z.testbit b (k mod 8) = true.
Proof.
  unfold test_bit, check_bit.
  assert (Hk : 0 <= k mod 8 < 8) by (apply Z.mod_pos_bound; lia).
  destruct (A !! Z.to_nat (k / 8)) as [b|]; split.
  - intros H. exists b. split; [reflexivity|].
    rewrite land_shiftl_1 in H by lia.
    destruct (Z.testbit b (k mod 8)); [reflexivity|discriminate].
  - intros (b' & [= <-] & Hb).
    rewrite land_shiftl_1, Hb by lia.
    apply negb_true_iff, Z.eqb_neq. apply Z.pow_nonzero; lia.
  - discriminate.
  - intros (b' & [=] & _).
Qed.

Lemma set_byte_testbit (b i j : Z) :
  0 <= i < 8 -> 0 <= j < 8 ->
  Z.testbit (Z.lor b (Z.shiftl 1 i) mod 256) j = Z.testbit b j || (i =? j).
Proof.
  intros Hi Hj. change 256 with (2 ^ 8).
  rewrite Z.mod_pow2_bits_low by lia.
  rewrite Z.lor_spec, Z.shiftl_1_l, Z.pow2_bits_eqb by lia. reflexivity.
Qed.

Lemma set_bit_length (A A' : list Z) (k : Z) :
  set_bit A k = Some A' -> length A' = length A.
Proof.
  unfold set_bit. destruct (A !! Z.to_nat (k / 8)); [|discriminate].
  intros [= <-]. apply length_insert.
Qed.

Lemma set_bit_defined (A : list Z) (k : Z) :
  (Z.to_nat (k / 8) < length A)%nat -> exists A', set_bit A k = Some A'.
Proof.
  intros H. unfold set_bit.
  destruct (lookup_lt_is_Some_2 A _ H) as [b ->]. eauto.
Qed.

Lemma set_bit_sets (A A' : list Z) (k : Z) :
  set_bit A k = Some A' -> test_bit A' k = true.
Proof.
  unfold set_bit. destruct (A !! Z.to_nat (k / 8)) as [b|] eqn:E; [|discriminate].
  intros [= <-]. apply test_bit_spec.
  assert (Hk : 0 <= k mod 8 < 8) by (apply Z.mod_pos_bound; lia).
  eexists. split.
  - apply list_lookup_insert_eq. eapply lookup_lt_Some; eauto.
  - rewrite set_byte_testbit, Z.eqb_refl by lia. apply orb_true_r.
Qed.

Lemma set_bit_keeps (A A' : list Z) (k j : Z) :
  set_bit A k = Some A' -> test_bit A j = true -> test_bit A' j = true.
Proof.
  unfold set_bit. destruct (A !! Z.to_nat (k / 8)) as [b|] eqn:E; [|discriminate].
  intros [= <-]. rewrite !test_bit_spec. intros (c & Hc & Hbit).
  assert (Hk : 0 <= k mod 8 < 8) by (apply Z.mod_pos_bound; lia).
  assert (Hj : 0 <= j mod 8 < 8) by (apply Z.mod_pos_bound; lia).
  destruct (decide (Z.to_nat (k / 8) = Z.to_nat (j / 8))) as [Heq|Hne].
  - rewrite <- Heq in *. rewrite E in Hc. injection Hc as ->.
    eexists. split.
    + apply list_lookup_insert_eq. eapply lookup_lt_Some; eauto.
    + rewrite set_byte_testbit, Hbit by lia. reflexivity.
  - exists c. split; [|assumption].
    rewrite list_lookup_insert_ne by assumption. assumption.
Qed.

Lemma filter_length_mono {X} (f g : X -> bool) (l : list X) :
  (forall x, f x = true -> g x = true) ->
  (length (List.filter f l) <= length (List.filter g l))%nat.
Proof.
  intros Hfg. induction l as [|x l IH]; simpl; [lia|].
  destruct (f x) eqn:Ef.
  - rewrite (Hfg x Ef). simpl. lia.
  - destruct (g x); simpl; lia.
Qed.

Lemma count_set_bits_mono (A A' : list Z) :
  length A' = length A ->
  (forall k, test_bit A k = true -> test_bit A' k = true) ->
  (count_set_bits A <= count_set_bits A')%nat.
Proof.
  intros Hlen Hsub. unfold count_set_bits. rewrite Hlen.
  apply filter_length_mono. intros k. apply Hsub.
Qed.

End BitStore.

(** ** Encodings *)

Section Encodings.

Lemma le_bytes_length (n : nat) (z : Z) : length (Bytes.le_bytes n z) = n.
Proof. revert z. induction n as [|n IH]; intros z; simpl; [reflexivity|]. now rewrite IH. Qed.

Lemma le_value_le_bytes (n : nat) (z : Z) :
  Bytes.le_value (Bytes.le_bytes n z) = z mod 256 ^ Z.of_nat n.
Proof.
  revert z. induction n as [|n IH]; intros z.
  - simpl. now rewrite Z.mod_1_r.
  - cbn [Bytes.le_bytes Bytes.le_value]. rewrite IH.
    rewrite Nat2Z.inj_succ, Z.pow_succ_r by lia.
    rewrite Z.rem_mul_r by (try apply Z.pow_nonzero; lia). reflexivity.
Qed.

Lemma le_value_le_bytes_8 (z : Z) :
  0 <= z < 2 ^ 64 -> Bytes.le_value (Bytes.le_bytes 8 z) = z.
Proof. intros H. rewrite le_value_le_bytes. apply Z.mod_small. exact H. Qed.

Lemma le_value_le_bytes_4 (z : Z) :
  0 <= z < 2 ^ 32 -> Bytes.le_value (Bytes.le_bytes 4 z) = z.
Proof. intros H. rewrite le_value_le_bytes. apply Z.mod_small. exact H. Qed.

Lemma digits2_pos_bounds (m : positive) :
  2 ^ (Zpos (digits2_pos m) - 1) <= Zpos m < 2 ^ Zpos (digits2_pos m).
Proof.
  induction m as [m IH|m IH|]; cbn [digits2_pos].
  - rewrite Pos2Z.inj_succ.
    replace (Z.succ (Zpos (digits2_pos m)) - 1) with (Z.succ (Zpos (digits2_pos m) - 1)) by lia.
    rewrite !Z.pow_succ_r by lia. lia.
  - rewrite Pos2Z.inj_succ.
    replace (Z.succ (Zpos (digits2_pos m)) - 1) with (Z.succ (Zpos (digits2_pos m) - 1)) by lia.
    rewrite !Z.pow_succ_r by lia. lia.
  - simpl. lia.
Qed.

(** A valid binary32 value is subnormal (exponent -149, less than 23
    mantissa bits used) or normal (a 24-bit mantissa). *)
Lemma valid_float_finite (s : bool) (m : positive) (e : Z) :
  IEEE.valid_float (S754_finite s m e) = true ->
  (Zpos m < 2 ^ 23 /\ e = -149) \/
  (2 ^ 23 <= Zpos m < 2 ^ 24 /\ -149 <= e <= 104).
Proof.
  unfold IEEE.valid_float, valid_binary, bounded, canonical_mantissa, fexp, emin.
  intros H. apply andb_true_iff in H as [Hc He].
  apply Z.eqb_eq in Hc. apply Z.leb_le in He.
  pose proof (digits2_pos_bounds m) as Hd.
  set (d := Zpos (digits2_pos m)) in *.
  destruct (Z.max_spec (d + e - 24) (3 - 128 - 24)) as [[Hlt Hmax]|[Hge Hmax]];
    rewrite Hmax in Hc.
  - destruct (Z_lt_le_dec d 24) as [Hd24|Hd24].
    + left. split; [|lia].
      apply Z.lt_le_trans with (2 ^ d); [lia|].
      apply Z.pow_le_mono_r; lia.
    + right. assert (d = 24) by lia. subst e.
      replace d with 24 in Hd by lia. simpl in Hd. lia.
  - right. assert (d = 24) by lia.
    replace d with 24 in Hd by lia. simpl in Hd. lia.
Qed.

Lemma bits_of_float_range (x : IEEE.float) :
  IEEE.valid_float x = true -> 0 <= IEEE.bits_of_float x < 2 ^ 32.
Proof.
  destruct x as [s|s| |s m e]; intros Hv; unfold IEEE.bits_of_float, IEEE.sign_bit.
  - destruct s; lia.
  - destruct s; lia.
  - lia.
  - destruct (valid_float_finite s m e Hv) as [[Hm He]|[Hm He]].
    + rewrite (proj2 (Z.ltb_lt _ _) Hm). destruct s; lia.
    + rewrite (proj2 (Z.ltb_ge _ _) (proj1 Hm)). destruct s; lia.
Qed.

Lemma float_of_bits_of_float (x : IEEE.float) :
  IEEE.valid_float x = true -> IEEE.float_of_bits (IEEE.bits_of_float x) = x.
Proof.
  destruct x as [s|s| |s m e]; intros Hv.
  - destruct s; reflexivity.
  - destruct s; reflexivity.
  - reflexivity.
  - unfold IEEE.bits_of_float, IEEE.float_of_bits.
    destruct (valid_float_finite s m e Hv) as [[Hm He]|[Hm He]].
    + rewrite (proj2 (Z.ltb_lt _ _) Hm).
      set (b := IEEE.sign_bit s + Zpos m).
      assert (Hs : (2 ^ 31 <=? b) = s)
        by (subst b; unfold IEEE.sign_bit; destruct s; [apply Z.leb_le|apply Z.leb_gt]; lia).
      assert (Hex : (b / 2 ^ 23) mod 256 = 0)
        by (subst b; unfold IEEE.sign_bit; destruct s;
            change (2 ^ 23) with 8388608 in *; change (2 ^ 31) with 2147483648;
            Z.div_mod_to_equations; lia).
      assert (Hfr : b mod 2 ^ 23 = Zpos m)
        by (subst b; unfold IEEE.sign_bit; destruct s;
            change (2 ^ 23) with 8388608 in *; change (2 ^ 31) with 2147483648;
            Z.div_mod_to_equations; lia).
      rewrite Hs, Hex, Hfr. simpl. subst e. reflexivity.
    + rewrite (proj2 (Z.ltb_ge _ _) (proj1 Hm)).
      set (b := IEEE.sign_bit s + ((e + 150) * 2 ^ 23 + (Zpos m - 2 ^ 23))).
      assert (Hs : (2 ^ 31 <=? b) = s)
        by (subst b; unfold IEEE.sign_bit; destruct s; [apply Z.leb_le|apply Z.leb_gt];
            change (2 ^ 23) with 8388608 in *; change (2 ^ 24) with 16777216 in *;
            change (2 ^ 31) with 2147483648; lia).
      assert (Hex : (b / 2 ^ 23) mod 256 = e + 150)
        by (subst b; unfold IEEE.sign_bit; destruct s;
            change (2 ^ 23) with 8388608 in *; change (2 ^ 24) with 16777216 in *;
            change (2 ^ 31) with 2147483648;
            Z.div_mod_to_equations; lia).
      assert (Hfr : b mod 2 ^ 23 = Zpos m - 2 ^ 23)
        by (subst b; unfold IEEE.sign_bit; destruct s;
            change (2 ^ 23) with 8388608 in *; change (2 ^ 24) with 16777216 in *;
            change (2 ^ 31) with 2147483648;
            Z.div_mod_to_equations; lia).
      rewrite Hs, Hex, Hfr.
      destruct (Z.eqb_spec (e + 150) 0) as [H0|_]; [lia|].
      destruct (Z.eqb_spec (e + 150) 255) as [H0|_]; [lia|].
      replace (Zpos m - 2 ^ 23 + 2 ^ 23) with (Zpos m) by lia.
      replace (e + 150 - 150) with e by lia. reflexivity.
Qed.

End Encodings.

(** ** Insertion and query *)

Section InsertQuery.

Lemma set_bloom_same (bf : BloomFilter) (A : list Z) :
  bloom bf = Some A -> set_bloom (Some A) bf = bf.
Proof. destruct bf; simpl; intros ->; reflexivity. Qed.

Lemma probe_in_store (A : list Z) (m h : Z) :
  m <= 8 * Z.of_nat (length A) -> 0 <= h < m ->
  (Z.to_nat (h / 8) < length A)%nat.
Proof.
  intros Hm Hh.
  assert (h / 8 < Z.of_nat (length A)) by (apply Z.div_lt_upper_bound; lia).
  assert (0 <= h / 8) by (apply Z.div_pos; lia).
  lia.
Qed.

Lemma add_string_loop_spec (iters : nat) :
  forall (n : nat) (hashes : list Z) (bf : BloomFilter) (A : list Z),
    bloom bf = Some A ->
    probes_ok hashes A n iters ->
    exists A',
      add_string_loop iters (Z.of_nat n) hashes bf = Some (tt, set_bloom (Some A') bf) /\
      length A' = length A /\
      (forall k, test_bit A k = true -> test_bit A' k = true) /\
      (forall j h, (n <= j < n + iters)%nat -> hashes !! j = Some h ->
                   test_bit A' h = true).
Proof.
  induction iters as [|iters IH]; intros n hashes bf A HA Hp.
  - exists A. simpl. unfold ret. rewrite set_bloom_same by assumption.
    repeat split; auto. intros; lia.
  - destruct (Hp n ltac:(lia)) as (h & Hh & Hin).
    destruct (set_bit_defined A h Hin) as [A1 HA1].
    destruct (IH (S n) hashes (set_bloom (Some A1) bf) A1 eq_refl) as (A' & Hrun & Hlen & Hmono & Hset).
    { intros j Hj. destruct (Hp j ltac:(lia)) as (h' & Hh' & Hin').
      exists h'. split; [assumption|].
      rewrite (set_bit_length _ _ _ HA1). assumption. }
    exists A'. split; [|split; [|split]].
    + simpl. unfold bind, defined, load, store.
      rewrite Nat2Z.id, Hh, HA, HA1.
      replace (Z.of_nat n + 1) with (Z.of_nat (S n)) by lia.
      rewrite Hrun. reflexivity.
    + rewrite Hlen. eapply set_bit_length; eauto.
    + intros k Hk. apply Hmono. eapply set_bit_keeps; eauto.
    + intros j h' Hj Hh'.
      destruct (decide (j = n)) as [->|Hne].
      * rewrite Hh in Hh'. injection Hh' as <-.
        apply Hmono. eapply set_bit_sets; eauto.
      * apply (Hset j); [lia|assumption].
Qed.

Lemma check_string_loop_spec (iters : nat) :
  forall (n : nat) (hashes : list Z) (bf : BloomFilter) (A : list Z),
    bloom bf = Some A ->
    probes_ok hashes A n iters ->
    exists r,
      check_string_loop iters (Z.of_nat n) hashes bf = Some (r, bf) /\
      (r = BLOOM_SUCCESS <->
       forall j h, (n <= j < n + iters)%nat -> hashes !! j = Some h ->
                   test_bit A h = true).
Proof.
  induction iters as [|iters IH]; intros n hashes bf A HA Hp.
  - exists BLOOM_SUCCESS. split; [reflexivity|].
    split; [intros _ j h Hj; lia|reflexivity].
  - destruct (Hp n ltac:(lia)) as (h & Hh & Hin).
    destruct (lookup_lt_is_Some_2 A _ Hin) as [b Hb].
    destruct (IH (S n) hashes bf A HA) as (r & Hrun & Hr).
    { intros j Hj. apply Hp. lia. }
    simpl. unfold bind, defined, load.
    rewrite Nat2Z.id, Hh, HA. unfold check_bit at 1. rewrite Hb.
    assert (Ht : test_bit A h = negb (Z.land b (Z.shiftl 1 (h mod 8)) =? 0))
      by (unfold test_bit, check_bit; rewrite Hb; reflexivity).
    destruct (Z.land b (Z.shiftl 1 (h mod 8)) =? 0) eqn:E.
    + exists BLOOM_FAILURE. split; [reflexivity|].
      split; [discriminate|].
      intros Hall. specialize (Hall n h ltac:(lia) Hh).
      rewrite Ht in Hall. discriminate.
    + exists r. replace (Z.of_nat n + 1) with (Z.of_nat (S n)) by lia.
      split; [assumption|].
      rewrite Hr. split.
      * intros Hall j h' Hj Hh'.
        destruct (decide (j = n)) as [->|Hne].
        -- rewrite Hh in Hh'. injection Hh' as <-. rewrite Ht. reflexivity.
        -- apply (Hall j); [lia|assumption].
      * intros Hall j h' Hj. apply Hall. lia.
Qed.

(** What a valid filter gives the two loops for a string [x]. *)
Lemma valid_filter_probes (bf : BloomFilter) (x : string) :
  valid_filter bf ->
  exists A hf hashes,
    bloom bf = Some A /\ hash_function bf = Some hf /\
    hf (CInt.to_int (number_hashes bf)) (number_bits bf) x = Some hashes /\
    probes_ok hashes A 0 (Z.to_nat (number_hashes bf)).
Proof.
  intros [(A & HA & _ & Hm) (hf & Hhf & Hc)].
  destruct (Hc x) as (hashes & Hcall & Hlen & Hrange).
  exists A, hf, hashes. repeat split; try assumption.
  intros j Hj.
  destruct (lookup_lt_is_Some_2 hashes j ltac:(lia)) as [h Hh].
  exists h. split; [assumption|].
  eapply probe_in_store; [eassumption|].
  rewrite Forall_forall in Hrange. apply Hrange.
  eapply list_elem_of_lookup_2; eauto.
Qed.

Lemma add_string_spec (bf : BloomFilter) (x : string) :
  valid_filter bf ->
  exists A A' hf hashes,
    bloom bf = Some A /\ hash_function bf = Some hf /\
    hf (CInt.to_int (number_hashes bf)) (number_bits bf) x = Some hashes /\
    bloom_filter_add_string x bf =
      Some (BLOOM_SUCCESS,
            set_elements_added (CInt.to_uint64 (elements_added bf + 1))
                               (set_bloom (Some A') bf)) /\
    length A' = length A /\
    (forall k, test_bit A k = true -> test_bit A' k = true) /\
    (forall j h, (j < Z.to_nat (number_hashes bf))%nat ->
                 hashes !! j = Some h -> test_bit A' h = true).
Proof.
  intros Hv.
  destruct (valid_filter_probes bf x Hv) as (A & hf & hashes & HA & Hhf & Hcall & Hp).
  destruct (add_string_loop_spec _ 0 hashes bf A HA Hp) as (A' & Hrun & Hlen & Hmono & Hset).
  exists A, A', hf, hashes. repeat split; try assumption.
  - unfold bloom_filter_add_string, bind, load, defined, store, free, ret.
    rewrite Hhf, Hcall. change 0 with (Z.of_nat 0). rewrite Hrun. reflexivity.
  - intros j h Hj. apply Hset. lia.
Qed.

Lemma check_string_spec (bf : BloomFilter) (x : string) :
  valid_filter bf ->
  exists A hf hashes r,
    bloom bf = Some A /\ hash_function bf = Some hf /\
    hf (CInt.to_int (number_hashes bf)) (number_bits bf) x = Some hashes /\
    bloom_filter_check_string x bf = Some (r, bf) /\
    (r = BLOOM_SUCCESS <->
     forall j h, (j < Z.to_nat (number_hashes bf))%nat ->
                 hashes !! j = Some h -> test_bit A h = true).
Proof.
  intros Hv.
  destruct (valid_filter_probes bf x Hv) as (A & hf & hashes & HA & Hhf & Hcall & Hp).
  destruct (check_string_loop_spec _ 0 hashes bf A HA Hp) as (r & Hrun & Hr).
  exists A, hf, hashes, r. repeat split; try assumption.
  - unfold bloom_filter_check_string, bind, load, defined, free, ret.
    rewrite Hhf, Hcall. change 0 with (Z.of_nat 0). rewrite Hrun. reflexivity.
  - intros Hs j h Hj. apply Hr; [assumption|lia].
  - intros Hall. apply Hr. intros j h Hj. apply Hall. lia.
Qed.

(** Insertion keeps the invariants of the data model. *)
Lemma add_string_valid (bf bf' : BloomFilter) (x : string) (r : status) :
  valid_filter bf -> bloom_filter_add_string x bf = Some (r, bf') ->
  valid_filter bf'.
Proof.
  intros Hv Hadd.
  destruct (add_string_spec bf x Hv) as (A & A' & hf & hashes & HA & Hhf & _ & Hrun & Hlen & _).
  rewrite Hrun in Hadd. injection Hadd as <- <-.
  destruct Hv as [(A0 & HA0 & Hbl & Hm) (hf0 & Hhf0 & Hc)].
  rewrite HA in HA0. injection HA0 as <-.
  split; simpl.
  - exists A'. rewrite Hlen. auto.
  - exists hf0. auto.
Qed.

End InsertQuery.

(** ** Membership after insertion *)

Section Membership.

Lemma contains_after_add (bf bf' : BloomFilter) (x y : string) (r : status) :
  valid_filter bf ->
  bloom_filter_check_string y bf = Some (BLOOM_SUCCESS, bf) ->
  bloom_filter_add_string x bf = Some (r, bf') ->
  bloom_filter_check_string y bf' = Some (BLOOM_SUCCESS, bf').
Proof.
  intros Hv Hy Hadd.
  pose proof (add_string_valid bf bf' x r Hv Hadd) as Hv'.
  destruct (add_string_spec bf x Hv) as (A & A' & hf & hx & HA & Hhf & _ & Hrun & _ & Hmono & _).
  rewrite Hrun in Hadd. injection Hadd as <- <-.
  destruct (check_string_spec bf y Hv) as (A0 & hf0 & hy & r0 & HA0 & Hhf0 & Hcall & Hchk & Hr0).
  rewrite Hchk in Hy. injection Hy as ->.
  rewrite HA in HA0. injection HA0 as <-.
  destruct (check_string_spec _ y Hv') as (A1 & hf1 & hy1 & r1 & HA1 & Hhf1 & Hcall1 & Hchk1 & Hr1).
  simpl in HA1, Hhf1, Hcall1, Hr1. injection HA1 as <-.
  rewrite Hhf0 in Hhf1. injection Hhf1 as <-.
  rewrite Hcall in Hcall1. injection Hcall1 as <-.
  rewrite Hchk1. f_equal. f_equal.
  apply Hr1. intros j h Hj Hh. apply Hmono.
  apply (proj1 Hr0 eq_refl j h Hj Hh).
Qed.

Lemma contains_just_added (bf bf' : BloomFilter) (x : string) (r : status) :
  valid_filter bf ->
  bloom_filter_add_string x bf = Some (r, bf') ->
  bloom_filter_check_string x bf' = Some (BLOOM_SUCCESS, bf').
Proof.
  intros Hv Hadd.
  pose proof (add_string_valid bf bf' x r Hv Hadd) as Hv'.
  destruct (add_string_spec bf x Hv) as (A & A' & hf & hx & HA & Hhf & Hcall & Hrun & _ & _ & Hset).
  rewrite Hrun in Hadd. injection Hadd as <- <-.
  destruct (check_string_spec _ x Hv') as (A1 & hf1 & hx1 & r1 & HA1 & Hhf1 & Hcall1 & Hchk1 & Hr1).
  simpl in HA1, Hhf1, Hcall1, Hr1. injection HA1 as <-.
  rewrite Hhf in Hhf1. injection Hhf1 as <-.
  rewrite Hcall in Hcall1. injection Hcall1 as <-.
  rewrite Hchk1. f_equal. f_equal.
  apply Hr1. exact Hset.
Qed.

Lemma add_strings_valid (strs : list string) :
  forall bf, valid_filter bf ->
    exists bf', add_strings strs bf = Some (tt, bf') /\ valid_filter bf'.
Proof.
  induction strs as [|s strs IH]; intros bf Hv.
  - exists bf. split; [reflexivity|assumption].
  - destruct (add_string_spec bf s Hv) as (A & A' & hf & hs & _ & _ & _ & Hrun & _).
    pose proof (add_string_valid _ _ _ _ Hv Hrun) as Hv1.
    destruct (IH _ Hv1) as (bf' & Hrest & Hv').
    exists bf'. split; [|assumption].
    cbn [add_strings]. unfold bind. rewrite Hrun. exact Hrest.
Qed.

Lemma contains_after_adds (strs : list string) (y : string) :
  forall bf, valid_filter bf ->
    bloom_filter_check_string y bf = Some (BLOOM_SUCCESS, bf) ->
    exists bf', add_strings strs bf = Some (tt, bf') /\
                bloom_filter_check_string y bf' = Some (BLOOM_SUCCESS, bf').
Proof.
  induction strs as [|s strs IH]; intros bf Hv Hy.
  - exists bf. split; [reflexivity|assumption].
  - destruct (add_string_spec bf s Hv) as (A & A' & hf & hs & _ & _ & _ & Hrun & _).
    pose proof (add_string_valid _ _ _ _ Hv Hrun) as Hv1.
    pose proof (contains_after_add _ _ s y _ Hv Hy Hrun) as Hy1.
    destruct (IH _ Hv1 Hy1) as (bf' & Hrest & Hy').
    exists bf'. split; [|assumption].
    cbn [add_strings]. unfold bind. rewrite Hrun. exact Hrest.
Qed.

(** C1. No false negatives: on a filter that satisfies the invariants of
    the data model, any sequence of insertions that contains [x] runs to
    completion, and after it [bloom_filter_check_string] answers
    [BLOOM_SUCCESS] for [x], whatever was inserted before or after [x]. *)
Theorem no_false_negatives (bf : BloomFilter) (x : string) (strs : list string) :
  valid_filter bf -> In x strs ->
  exists bf', add_strings strs bf = Some (tt, bf') /\
              bloom_filter_check_string x bf' = Some (BLOOM_SUCCESS, bf').
Proof.
  revert bf. induction strs as [|s strs IH]; intros bf Hv Hin; [destruct Hin|].
  destruct (add_string_spec bf s Hv) as (A & A' & hf & hs & _ & _ & _ & Hrun & _).
  pose proof (add_string_valid _ _ _ _ Hv Hrun) as Hv1.
  cbn [add_strings]. unfold bind. rewrite Hrun.
  destruct Hin as [->|Hin].
  - apply contains_after_adds; [assumption|].
    exact (contains_just_added _ _ _ _ Hv Hrun).
  - apply IH; assumption.
Qed.

End Membership.

(** ** Frame and monotonicity *)

Section Frame.

Variable MD5 : list Z -> list Z.
Variable log exp : IEEE.double -> IEEE.double.
Variable pow : IEEE.double -> IEEE.double -> IEEE.double.

Lemma check_string_loop_frame (iters : nat) :
  forall i hashes bf r bf',
    check_string_loop iters i hashes bf = Some (r, bf') -> bf' = bf.
Proof.
  induction iters as [|iters IH]; intros i hashes bf r bf'; simpl.
  - unfold ret. now intros [= _ <-].
  - unfold bind, defined, load.
    destruct (hashes !! Z.to_nat i) as [h|]; [|discriminate].
    destruct (bloom bf) as [A|]; [|discriminate].
    destruct (check_bit A h) as [t|]; [|discriminate].
    destruct (t =? 0).
    + unfold ret. now intros [= _ <-].
    + apply IH.
Qed.

Lemma check_string_frame (x : string) (bf bf' : BloomFilter) (r : status) :
  bloom_filter_check_string x bf = Some (r, bf') -> bf' = bf.
Proof.
  unfold bloom_filter_check_string, bind, defined, load, free, ret.
  destruct (hash_function bf) as [f|]; [|discriminate].
  destruct (f _ _ x) as [hashes|]; [|discriminate].
  destruct (check_string_loop _ 0 hashes bf) as [[r0 bf0]|] eqn:E; [|discriminate].
  apply check_string_loop_frame in E. subst bf0. now intros [= _ <-].
Qed.

Lemma add_string_loop_mono (iters : nat) :
  forall i hashes bf bf' A,
    bloom bf = Some A ->
    add_string_loop iters i hashes bf = Some (tt, bf') ->
    exists A', bloom bf' = Some A' /\ length A' = length A /\
               forall k, test_bit A k = true -> test_bit A' k = true.
Proof.
  induction iters as [|iters IH]; intros i hashes bf bf' A HA; simpl.
  - unfold ret. intros [= <-]. exists A. auto.
  - unfold bind, defined, load, store.
    destruct (hashes !! Z.to_nat i) as [h|]; [|discriminate].
    rewrite HA.
    destruct (set_bit A h) as [A1|] eqn:E; [|discriminate].
    intros Hrun.
    apply (IH _ _ (set_bloom (Some A1) bf) _ A1 eq_refl) in Hrun as (A' & HA' & Hlen & Hmono).
    exists A'. split; [assumption|]. split.
    + rewrite Hlen. eapply set_bit_length; eauto.
    + intros k Hk. apply Hmono. eapply set_bit_keeps; eauto.
Qed.

Lemma add_string_mono (x : string) (bf bf' : BloomFilter) (r : status) (A : list Z) :
  bloom bf = Some A ->
  bloom_filter_add_string x bf = Some (r, bf') ->
  exists A', bloom bf' = Some A' /\ length A' = length A /\
             forall k, test_bit A k = true -> test_bit A' k = true.
Proof.
  intros HA. unfold bloom_filter_add_string, bind, defined, load, store, free, ret.
  destruct (hash_function bf) as [f|]; [|discriminate].
  destruct (f _ _ x) as [hashes|]; [|discriminate].
  destruct (add_string_loop _ 0 hashes bf) as [[[] bf0]|] eqn:E; [|discriminate].
  intros [= _ <-]. simpl.
  eapply add_string_loop_mono; eauto.
Qed.

Lemma export_frame (filepath : string) (fs fs' : FileSystem) (bf bf' : BloomFilter) (r : status) :
  bloom_filter_export filepath fs bf = Some ((r, fs'), bf') -> bf' = bf.
Proof.
  unfold bloom_filter_export, bind, defined, load, ret.
  destruct (Stdio.fopen_wb fs filepath); [|now intros [= _ _ <-]].
  destruct (object_bytes _ _); [|discriminate]. now intros [= _ _ <-].
Qed.

Lemma run_operation_mono (op : operation) (bf bf' : BloomFilter) (fs fs' : FileSystem) (A : list Z) :
  replaces_store op = false ->
  bloom bf = Some A ->
  run_operation MD5 log exp pow op (bf, fs) = Some (bf', fs') ->
  exists A', bloom bf' = Some A' /\ length A' = length A /\
             forall k, test_bit A k = true -> test_bit A' k = true.
Proof.
  intros Hop HA.
  destruct op as [granted elements rate hf|hf| |str|str| |filepath|granted filepath hf];
    try discriminate Hop; simpl.
  - destruct hf; intros [= <- _]; exists A; auto.
  - destruct (bloom_filter_add_string str bf) as [[r bf0]|] eqn:E; [|discriminate].
    intros [= <- _]. eapply add_string_mono; eauto.
  - destruct (bloom_filter_check_string str bf) as [[r bf0]|] eqn:E; [|discriminate].
    intros [= <- _]. apply check_string_frame in E. subst bf0. exists A. auto.
  - intros [= <- _]. exists A. auto.
  - destruct (bloom_filter_export filepath fs bf) as [[[r fs0] bf0]|] eqn:E; [|discriminate].
    intros [= <- _]. apply export_frame in E. subst bf0. exists A. auto.
Qed.

Lemma run_operations_mono (ops : list operation) :
  forall bf fs st' A,
    Forall (fun op => replaces_store op = false) ops ->
    bloom bf = Some A ->
    run_operations MD5 log exp pow ops (bf, fs) = Some st' ->
    exists A', bloom (fst st') = Some A' /\ length A' = length A /\
               forall k, test_bit A k = true -> test_bit A' k = true.
Proof.
  induction ops as [|op ops IH]; intros bf fs st' A Hops HA; cbn [run_operations].
  - intros [= <-]. exists A. auto.
  - apply Forall_cons in Hops as [Hop Hops].
    destruct (run_operation MD5 log exp pow op (bf, fs)) as [[bf1 fs1]|] eqn:E; [|discriminate].
    destruct (run_operation_mono _ _ _ _ _ _ Hop HA E) as (A1 & HA1 & Hlen1 & Hmono1).
    intros Hrun. destruct (IH _ _ _ _ Hops HA1 Hrun) as (A' & HA' & Hlen & Hmono).
    exists A'. split; [assumption|]. split; [congruence|auto].
Qed.

(** C5. Monotonic bits, with the exception the code makes: an insertion
    into a filter that satisfies the invariants of the data model
    succeeds and leaves every bit that was 1 at 1, so the number of 1 bits
    does not decrease; no operation, and no run of operations, clears a
    bit, provided none of them is one of the three that give the filter
    another bit store or none ([bloom_filter_init], [bloom_filter_import],
    [bloom_filter_destroy]); and a query that answered [BLOOM_SUCCESS]
    still does after any further insertions. *)
Theorem set_bits_are_never_cleared (bf : BloomFilter) (x : string) :
  valid_filter bf ->
  exists A A' bf',
    bloom bf = Some A /\
    bloom_filter_add_string x bf = Some (BLOOM_SUCCESS, bf') /\
    bloom bf' = Some A' /\
    (forall k, test_bit A k = true -> test_bit A' k = true) /\
    (count_set_bits A <= count_set_bits A')%nat /\
    (forall ops fs st',
        Forall (fun op => replaces_store op = false) ops ->
        run_operations MD5 log exp pow ops (bf, fs) = Some st' ->
        exists B, bloom (fst st') = Some B /\
                  forall k, test_bit A k = true -> test_bit B k = true) /\
    (forall op fs,
        replaces_store op = false -> clears_no_bit MD5 log exp pow op bf fs) /\
    (forall y strs,
        bloom_filter_check_string y bf = Some (BLOOM_SUCCESS, bf) ->
        exists bf'', add_strings strs bf = Some (tt, bf'') /\
                     bloom_filter_check_string y bf'' = Some (BLOOM_SUCCESS, bf'')).
Proof.
  intros Hv.
  destruct (add_string_spec bf x Hv) as (A & A' & hf & hs & HA & _ & _ & Hrun & Hlen & Hmono & _).
  exists A, A'. eexists. split; [exact HA|]. split; [exact Hrun|].
  split; [reflexivity|]. split; [exact Hmono|].
  split; [apply count_set_bits_mono; assumption|]. split; [|split].
  - intros ops fs st' Hkeep Hops.
    destruct (run_operations_mono ops bf fs st' A Hkeep HA Hops) as (B & HB & _ & HmonoB).
    exists B. auto.
  - intros op fs Hop [bf1 fs1] k Hstep. unfold bit_is_set. rewrite HA. cbn [fst].
    destruct (run_operation_mono op bf bf1 fs fs1 A Hop HA Hstep) as (B & HB & _ & HmonoB).
    rewrite HB. apply HmonoB.
  - intros y strs Hy. apply contains_after_adds; assumption.
Qed.

(** C10. A query leaves the filter as it was: on a filter that satisfies
    the invariants of the data model [bloom_filter_check_string] returns,
    and the filter it leaves (every byte of the bit store and every field,
    [elements_added] included) is the filter it was given. *)
Theorem check_string_leaves_filter_unchanged (bf : BloomFilter) (x : string) :
  valid_filter bf ->
  exists r, bloom_filter_check_string x bf = Some (r, bf) /\
            forall r' bf', bloom_filter_check_string x bf = Some (r', bf') ->
                           bf' = bf.
Proof.
  intros Hv.
  destruct (check_string_spec bf x Hv) as (A & hf & hs & r & _ & _ & _ & Hchk & _).
  exists r. split; [exact Hchk|].
  intros r' bf'. apply check_string_frame.
Qed.

End Frame.

(** ** The default hash adapter *)

Section DefaultAdapter.

Variable MD5 : list Z -> list Z.

Lemma md5_hash_loop_spec (num_bits : Z) (str : string) (iters : nat) :
  forall (n : nat) (digest results : list Z),
    0 < num_bits ->
    (n + iters <= length results)%nat ->
    (forall n', n = S n' -> digest = digest_chain MD5 str n') ->
    exists res,
      md5_hash_loop MD5 iters (Z.of_nat n) num_bits str digest results = Some res /\
      length res = length results /\
      (forall j, (n <= j < n + iters)%nat -> res !! j = Some (adapter_index MD5 str num_bits j)) /\
      (forall j, (j < n)%nat -> res !! j = results !! j).
Proof.
  induction iters as [|iters IH]; intros n digest results Hm Hlen Hd.
  - exists results. repeat split; auto. intros j Hj; lia.
  - cbn [md5_hash_loop].
    destruct (Z.eqb_spec num_bits 0) as [?|_]; [lia|].
    assert (Hstep : MD5 (if Z.of_nat n =? 0 then Bytes.c_str str
                         else take (Z.to_nat MD5_DIGEST_LENGTH) digest)
                    = digest_chain MD5 str n).
    { destruct n as [|n'].
      - reflexivity.
      - rewrite (Hd n' eq_refl).
        destruct (Z.eqb_spec (Z.of_nat (S n')) 0); [lia|reflexivity]. }
    rewrite Hstep.
    replace (Z.of_nat n + 1) with (Z.of_nat (S n)) by lia.
    rewrite Nat2Z.id.
    destruct (IH (S n) (digest_chain MD5 str n)
                 (<[n := adapter_index MD5 str num_bits n]> results) Hm)
      as (res & Hrun & Hreslen & Hnew & Hold).
    { rewrite length_insert. lia. }
    { intros n' [= <-]. reflexivity. }
    exists res. split; [exact Hrun|]. split; [|split].
    + rewrite Hreslen. apply length_insert.
    + intros j Hj. destruct (decide (j = n)) as [->|Hne].
      * rewrite Hold by lia. apply list_lookup_insert_eq. lia.
      * apply Hnew. lia.
    + intros j Hj. rewrite Hold by lia.
      apply list_lookup_insert_ne. lia.
Qed.

Lemma md5_hash_default_indices (count modulus : Z) (item : string) :
  0 <= count -> 0 < modulus ->
  exists indices,
    md5_hash_default MD5 count modulus item = Some indices /\
    length indices = Z.to_nat count /\
    (forall i, (i < Z.to_nat count)%nat ->
               indices !! i = Some (adapter_index MD5 item modulus i)) /\
    Forall (fun h => 0 <= h < modulus) indices.
Proof.
  intros Hc Hm. unfold md5_hash_default.
  destruct (md5_hash_loop_spec modulus item (Z.to_nat count) 0 []
              (replicate (Z.to_nat count) 0) Hm)
    as (res & Hrun & Hlen & Hnew & _).
  { rewrite length_replicate. lia. }
  { intros n' [=]. }
  rewrite length_replicate in Hlen.
  exists res. split; [exact Hrun|]. split; [exact Hlen|]. split.
  - intros i Hi. apply Hnew. lia.
  - apply Forall_lookup. intros i h Hh.
    assert (Hi : (i < Z.to_nat count)%nat)
      by (rewrite <- Hlen; eapply lookup_lt_Some; eauto).
    rewrite Hnew in Hh by lia. injection Hh as <-.
    unfold adapter_index. apply Z.mod_pos_bound. exact Hm.
Qed.

(** The default adapter honours the contract of a hash strategy whenever
    the bit domain is not empty. *)
Lemma md5_hash_default_contract (k m : Z) :
  0 <= k < 2 ^ 31 -> 0 < m -> hash_contract (md5_hash_default MD5) k m.
Proof.
  intros Hk Hm str.
  assert (Hint : CInt.to_int k = k).
  { unfold CInt.to_int, CInt.to_signed.
    rewrite Z.mod_small by (change (2 ^ 32) with 4294967296; change (2 ^ 31) with 2147483648 in Hk; lia).
    destruct (Z.ltb_spec k (2 ^ (32 - 1))) as [_|H]; [reflexivity|].
    change (2 ^ (32 - 1)) with (2 ^ 31) in H. lia. }
  rewrite Hint.
  destruct (md5_hash_default_indices k m str (proj1 Hk) Hm) as (hs & Hrun & Hlen & _ & Hrange).
  exists hs. split; [exact Hrun|]. split; [lia|exact Hrange].
Qed.

(** C8. The default hash adapter: for a count that is not negative and a
    modulus that is not zero, [md5_hash_default] returns exactly [count]
    indices, each of them below the modulus; index [i] is the first 8
    bytes, read as an unsigned integer, of the digest of step [i],
    reduced modulo the modulus, where step 0 digests the bytes of the item
    and every later step digests the 16 bytes of the digest of the step
    before. *)
Theorem md5_hash_default_chained_digests (count modulus : Z) (item : string) :
  0 <= count -> 0 < modulus ->
  exists indices,
    md5_hash_default MD5 count modulus item = Some indices /\
    length indices = Z.to_nat count /\
    Forall (fun h => 0 <= h < modulus) indices /\
    forall i, (i < Z.to_nat count)%nat ->
      indices !! i =
        Some (Bytes.le_value (take 8 (digest_chain MD5 item i)) mod modulus).
Proof.
  intros Hc Hm.
  destruct (md5_hash_default_indices count modulus item Hc Hm)
    as (indices & Hrun & Hlen & Hidx & Hrange).
  exists indices. auto.
Qed.

End DefaultAdapter.

(** ** Sizing is a function of the two parameters *)

Section Sizing.

Variable log : IEEE.double -> IEEE.double.

Lemma calculate_optimal_hashes_stable (bf1 bf1' bf2 : BloomFilter) :
  calculate_optimal_hashes log bf1 = Some (tt, bf1') ->
  estimated_elements bf2 = estimated_elements bf1 ->
  false_positive_probability bf2 = false_positive_probability bf1 ->
  calculate_optimal_hashes log bf2 =
    Some (tt, set_bloom_length (bloom_length bf1')
                (set_number_bits (number_bits bf1')
                   (set_number_hashes (number_hashes bf1') bf2))).
Proof.
  unfold calculate_optimal_hashes, bind, load, defined, store.
  intros H Hn Hp. rewrite Hn, Hp.
  destruct (CInt.long_neg _) as [minus_n|]; [|discriminate].
  destruct (IEEE.double_to_uint64 _) as [m|]; [|discriminate].
  destruct (IEEE.double_to_uint _) as [k|]; [|discriminate].
  destruct (IEEE.double_to_long _) as [num_pos|]; [|discriminate].
  injection H as <-. reflexivity.
Qed.

Lemma calculate_optimal_hashes_frame (bf bf' : BloomFilter) :
  calculate_optimal_hashes log bf = Some (tt, bf') ->
  bf' = set_bloom_length (bloom_length bf')
          (set_number_bits (number_bits bf')
             (set_number_hashes (number_hashes bf') bf)).
Proof.
  intros H.
  pose proof (calculate_optimal_hashes_stable bf bf' bf H eq_refl eq_refl) as H'.
  rewrite H in H'. now injection H'.
Qed.

End Sizing.

(** ** Export and import *)

Section Persistence.

Variable MD5 : list Z -> list Z.
Variable log : IEEE.double -> IEEE.double.

Lemma object_bytes_all (A : list Z) (len : Z) :
  Z.of_nat (length A) = len -> object_bytes (Some A) len = Some A.
Proof.
  intros <-. unfold object_bytes.
  destruct (Z.eqb_spec (Z.of_nat (length A)) 0) as [H0|Hne].
  - destruct A; [reflexivity|simpl in H0; lia].
  - rewrite (proj2 (Z.ltb_lt _ _)) by lia. rewrite Z.leb_refl. simpl.
    rewrite Nat2Z.id. now rewrite firstn_all.
Qed.

Lemma fread_full (old x rest : list Z) (n : nat) :
  length x = n -> Stdio.fread old n (x ++ rest) = (x, rest).
Proof.
  intros <-. unfold Stdio.fread.
  rewrite take_app_length, drop_app_length.
  rewrite drop_ge by (rewrite length_take; lia).
  now rewrite app_nil_r.
Qed.

Lemma fread_block_full (A : list Z) (len : Z) :
  Z.of_nat (length A) = len ->
  fread_block (calloc true len) len A = Some (Some A).
Proof.
  intros <-. unfold fread_block, calloc.
  destruct (Z.ltb_spec (Z.of_nat (length A)) 0) as [?|_]; [lia|].
  cbn [orb negb]. rewrite Nat2Z.id.
  destruct (Z.eqb_spec (Z.of_nat (length A)) 0) as [H0|Hne].
  - destruct A; [reflexivity|simpl in H0; lia].
  - rewrite length_replicate.
    rewrite (proj2 (Z.ltb_lt _ _)) by lia. rewrite Z.leb_refl.
    cbn [andb].
    pose proof (fread_full (replicate (length A) 0) A [] (length A) eq_refl) as Hread.
    rewrite app_nil_r in Hread. rewrite Hread. cbn [fst].
    rewrite drop_ge by (rewrite length_replicate; lia).
    now rewrite app_nil_r.
Qed.

Lemma export_spec (bf : BloomFilter) (fs : FileSystem) (filepath : string) (A : list Z) :
  bloom bf = Some A -> Z.of_nat (length A) = bloom_length bf ->
  bloom_filter_export filepath fs bf =
    if writable fs filepath
    then Some ((BLOOM_SUCCESS, Stdio.fclose fs filepath (export_record bf A)), bf)
    else Some ((BLOOM_FAILURE, fs), bf).
Proof.
  intros HA Hlen.
  unfold bloom_filter_export, Stdio.fopen_wb, bind, load, defined, ret.
  destruct (writable fs filepath); [|reflexivity].
  rewrite HA, (object_bytes_all A _ Hlen).
  unfold Stdio.fwrite, export_record.
  rewrite app_nil_l. repeat rewrite <- app_assoc. reflexivity.
Qed.

Lemma export_record_length (bf : BloomFilter) (A : list Z) :
  Z.of_nat (length (export_record bf A)) = 20 + Z.of_nat (length A).
Proof.
  unfold export_record. rewrite !length_app, !le_bytes_length. lia.
Qed.

(** C7. The exported record: with the bit store of [bloom_length] bytes in
    place, [bloom_filter_export] returns [BLOOM_FAILURE] exactly when the
    destination cannot be opened for writing, and then leaves every file
    as it was; otherwise the destination holds, in this order, the 8
    bytes of [estimated_elements], the 8 bytes of [elements_added], the 4
    bytes of [false_positive_probability] and the [bloom_length] bytes of
    the bit store, which makes [20 + bloom_length] bytes. *)
Theorem export_writes_fixed_layout (bf : BloomFilter) (fs : FileSystem)
    (filepath : string) (A : list Z) :
  bloom bf = Some A -> Z.of_nat (length A) = bloom_length bf ->
  exists r fs',
    bloom_filter_export filepath fs bf = Some ((r, fs'), bf) /\
    (r = BLOOM_FAILURE <-> writable fs filepath = false) /\
    (r = BLOOM_FAILURE -> fs' = fs) /\
    (r = BLOOM_SUCCESS ->
       files fs' !! filepath =
         Some (Bytes.le_bytes 8 (estimated_elements bf) ++
               Bytes.le_bytes 8 (elements_added bf) ++
               Bytes.le_bytes 4 (IEEE.bits_of_float (false_positive_probability bf)) ++
               A) /\
       length (Bytes.le_bytes 8 (estimated_elements bf)) = 8%nat /\
       length (Bytes.le_bytes 8 (elements_added bf)) = 8%nat /\
       length (Bytes.le_bytes 4 (IEEE.bits_of_float (false_positive_probability bf))) = 4%nat /\
       Z.of_nat (length (export_record bf A)) = 20 + bloom_length bf /\
       forall other, other <> filepath -> files fs' !! other = files fs !! other).
Proof.
  intros HA Hlen. rewrite (export_spec bf fs filepath A HA Hlen).
  destruct (writable fs filepath) eqn:Hw.
  - eexists _, _. split; [reflexivity|].
    split; [split; discriminate|]. split; [discriminate|].
    intros _. unfold Stdio.fclose. cbn [files].
    rewrite lookup_insert_eq. split; [reflexivity|].
    rewrite !le_bytes_length, export_record_length, Hlen.
    repeat split; try reflexivity.
    intros other Hne. now rewrite lookup_insert_ne.
  - eexists _, _. split; [reflexivity|].
    split; [split; reflexivity|]. split; [reflexivity|discriminate].
Qed.

Lemma import_spec (bf bf0 : BloomFilter) (fs : FileSystem) (filepath : string)
    (hf : option HashFunction) (A : list Z) :
  persistable log bf -> bloom bf = Some A ->
  writable fs filepath = true ->
  files fs !! filepath = Some (export_record bf A) ->
  bloom_filter_import MD5 log true filepath hf fs bf0 =
    Some (BLOOM_SUCCESS, set_hash_function (Some (bound_strategy MD5 hf)) bf).
Proof.
  intros [Hn Ha Hp Hsized (A0 & HA0 & Hlen)] HA Hw Hfile.
  rewrite HA in HA0. injection HA0 as <-.
  unfold bloom_filter_import, Stdio.fopen_rpb. rewrite Hw, Hfile.
  unfold export_record, bind at 1, load at 1.
  rewrite fread_full by apply le_bytes_length.
  unfold bind at 1, store at 1, bind at 1, load at 1.
  rewrite fread_full by apply le_bytes_length.
  unfold bind at 1, store at 1, bind at 1, load at 1.
  rewrite fread_full by apply le_bytes_length.
  rewrite !le_value_le_bytes_8 by assumption.
  rewrite le_value_le_bytes_4 by (apply bits_of_float_range; assumption).
  rewrite float_of_bits_of_float by assumption.
  unfold bind at 1, store at 1, bind at 1.
  erewrite (calculate_optimal_hashes_stable log bf bf) by (try exact Hsized; reflexivity).
  unfold bind, load, store, defined. cbn [bloom_length set_bloom_length set_bloom bloom].
  rewrite (fread_block_full A _ Hlen).
  destruct hf; unfold bloom_filter_set_hash_function, store, ret;
    destruct bf; simpl in *; subst; reflexivity.
Qed.

(** C2. Round trip: a filter as construction and insertion leave it is
    exported successfully to any destination that can be opened for
    writing, and importing that file (into a bit store that [calloc]
    grants, as it granted the one exported) rebuilds it: [estimated_elements],
    [elements_added], [false_positive_probability] and the bit store are
    those of the exported filter, and when the strategy bound by the
    import is the one the filter had, the imported filter is the exported
    one, so every query answers as it did before the export. *)
Theorem export_then_import_round_trip (bf bf0 : BloomFilter) (fs : FileSystem)
    (filepath : string) (hf : option HashFunction) :
  persistable log bf -> writable fs filepath = true ->
  exists fs' bf',
    bloom_filter_export filepath fs bf = Some ((BLOOM_SUCCESS, fs'), bf) /\
    bloom_filter_import MD5 log true filepath hf fs' bf0 = Some (BLOOM_SUCCESS, bf') /\
    estimated_elements bf' = estimated_elements bf /\
    elements_added bf' = elements_added bf /\
    false_positive_probability bf' = false_positive_probability bf /\
    bloom bf' = bloom bf /\
    (hash_function bf = Some (bound_strategy MD5 hf) ->
     bf' = bf /\
     forall x, bloom_filter_check_string x bf' = bloom_filter_check_string x bf).
Proof.
  intros Hp Hw.
  destruct (p_bloom _ _ Hp) as (A & HA & Hlen).
  exists (Stdio.fclose fs filepath (export_record bf A)).
  exists (set_hash_function (Some (bound_strategy MD5 hf)) bf).
  split; [rewrite (export_spec bf fs filepath A HA Hlen), Hw; reflexivity|].
  split.
  - apply (import_spec bf bf0 _ filepath hf A Hp HA).
    + exact Hw.
    + unfold Stdio.fclose. cbn [files]. apply lookup_insert_eq.
  - repeat split; try reflexivity.
    + destruct bf; simpl in *; subst; reflexivity.
    + intros x. destruct bf; simpl in *; subst; reflexivity.
Qed.

End Persistence.

(** ** Construction *)

Section Construction.

Variable MD5 : list Z -> list Z.
Variable log : IEEE.double -> IEEE.double.

Lemma binary_round_aux_sign (prec emax : Z) (s : bool) (m e : Z) (l : location) :
  sign_is s (binary_round_aux prec emax s m e l).
Proof.
  unfold binary_round_aux.
  destruct (shr_fexp prec emax m e l) as [mrs e'].
  destruct (shr_fexp prec emax _ e' loc_Exact) as [mrs' e''].
  destruct (shr_m mrs'); [reflexivity| |exact I].
  destruct (Z.leb e'' (emax - prec)); reflexivity.
Qed.

Lemma binary_normalize_sign (prec emax : Z) (z e : Z) :
  0 <= z -> sign_is false (binary_normalize prec emax z e false).
Proof.
  intros Hz. destruct z as [|p|p]; [reflexivity| |lia].
  unfold binary_normalize, binary_round.
  destruct (shl_align p e _) as [mz ez]. apply binary_round_aux_sign.
Qed.

Lemma d_div_sign (x y : IEEE.double) :
  sign_is false x -> sign_is false y -> sign_is false (IEEE.d_div x y).
Proof.
  destruct x as [sx|sx| |sx mx ex], y as [sy|sy| |sy my ey]; simpl;
    try (intros -> ->; reflexivity); try (intros; exact I).
  intros -> ->. unfold IEEE.d_div, SFdiv.
  destruct (SFdiv_core_binary 53 1024 (Zpos mx) ex (Zpos my) ey) as [[mz ez] lz].
  apply binary_round_aux_sign.
Qed.

Lemma d_ceil_sign (x : IEEE.double) :
  sign_is false x -> sign_is false (IEEE.d_ceil x).
Proof.
  destruct x as [s|s| |s m e]; simpl; try (intros ->; reflexivity); try (intros; exact I).
  intros ->. destruct (0 <=? e) eqn:E; [reflexivity|].
  apply Z.leb_gt in E. apply binary_normalize_sign. simpl.
  assert (0 < 2 ^ (- e)) by (apply Z.pow_pos_nonneg; lia).
  assert (Z.neg m / 2 ^ (- e) < 0) by (apply Z.div_lt_upper_bound; lia).
  lia.
Qed.

Lemma d_trunc_sign (x : IEEE.double) (z : Z) :
  sign_is false x -> IEEE.d_trunc x = Some z -> 0 <= z.
Proof.
  destruct x as [s|s| |s m e]; simpl; try discriminate.
  - intros _ [= <-]. lia.
  - intros -> [= <-]. simpl. destruct (0 <=? e) eqn:E.
    + apply Z.leb_le in E. apply Z.mul_nonneg_nonneg; [lia|]. apply Z.pow_nonneg. lia.
    + apply Z.leb_gt in E. apply Z.div_pos; [lia|]. apply Z.pow_pos_nonneg; lia.
Qed.

(** The byte count [calculate_optimal_hashes] derives is never negative,
    so the allocation that follows it asks for a possible size. *)
Lemma calculate_optimal_hashes_bloom_length (bf bf' : BloomFilter) :
  calculate_optimal_hashes log bf = Some (tt, bf') -> 0 <= bloom_length bf'.
Proof.
  unfold calculate_optimal_hashes, bind, load, defined, store.
  destruct (CInt.long_neg _) as [minus_n|]; [|discriminate].
  destruct (IEEE.double_to_uint64 _) as [m|] eqn:Em; [|discriminate].
  destruct (IEEE.double_to_uint _) as [k|]; [|discriminate].
  destruct (IEEE.double_to_long _) as [num_pos|] eqn:El; [|discriminate].
  intros [= <-]. simpl.
  assert (Hm : 0 <= m).
  { unfold IEEE.double_to_uint64, IEEE.d_to_integer in Em.
    destruct (IEEE.d_trunc _) as [z|]; [|discriminate].
    destruct (Z.leb_spec 0 z); simpl in Em; [|discriminate].
    destruct (z <=? 2 ^ 64 - 1); [|discriminate]. injection Em as <-. assumption. }
  unfold IEEE.double_to_long, IEEE.d_to_integer in El.
  destruct (IEEE.d_trunc _) as [z|] eqn:Ez; [|discriminate].
  destruct ((- 2 ^ 63 <=? z) && (z <=? 2 ^ 63 - 1)); [|discriminate].
  injection El as <-.
  eapply d_trunc_sign; [|exact Ez].
  apply d_ceil_sign, d_div_sign.
  - apply binary_normalize_sign. exact Hm.
  - vm_compute. reflexivity.
Qed.

(** The guard of [bloom_filter_init] on the false positive rate. *)
Lemma init_spec (granted : bool) (elements : Z) (rate : IEEE.float)
    (hf : option HashFunction) (bf0 : BloomFilter) :
  0 <= elements <= CInt.UINT64_MAX ->
  if (elements =? 0)
     || IEEE.d_leb (IEEE.double_of_float rate) (IEEE.d_of_Z 0)
     || IEEE.d_leb (IEEE.d_of_Z 1) (IEEE.double_of_float rate)
  then bloom_filter_init MD5 log granted elements rate hf bf0 = Some (BLOOM_FAILURE, bf0)
  else
    match calculate_optimal_hashes log
            (set_false_positive_probability rate (set_estimated_elements elements bf0)) with
    | Some (_, bf1) =>
        bloom_filter_init MD5 log granted elements rate hf bf0 =
          Some (BLOOM_SUCCESS,
                set_hash_function (Some (bound_strategy MD5 hf))
                  (set_elements_added 0
                     (set_bloom (calloc granted (bloom_length bf1)) bf1)))
    | None => bloom_filter_init MD5 log granted elements rate hf bf0 = None
    end.
Proof.
  intros Hrange. unfold bloom_filter_init.
  destruct (Z.eqb_spec elements 0) as [->|Hne].
  - reflexivity.
  - rewrite (proj2 (Z.leb_gt _ _)) by lia.
    rewrite (proj2 (Z.ltb_ge _ _)) by lia.
    cbn [orb].
    destruct (IEEE.d_leb (IEEE.double_of_float rate) (IEEE.d_of_Z 0)
              || IEEE.d_leb (IEEE.d_of_Z 1) (IEEE.double_of_float rate));
      [reflexivity|].
    unfold bind, store, load, ret.
    destruct (calculate_optimal_hashes log _) as [[[] bf1]|]; [|reflexivity].
    destruct hf; reflexivity.
Qed.

(** Construction with a granted bit store establishes [persistable], and
    insertion keeps it. *)
Lemma init_persistable (elements : Z) (rate : IEEE.float) (hf : option HashFunction)
    (bf0 bf : BloomFilter) :
  0 <= elements <= CInt.UINT64_MAX -> IEEE.valid_float rate = true ->
  bloom_filter_init MD5 log true elements rate hf bf0 = Some (BLOOM_SUCCESS, bf) ->
  persistable log bf.
Proof.
  intros Hrange Hrate Hinit.
  pose proof (init_spec true elements rate hf bf0 Hrange) as Hspec.
  destruct (_ || _ || _); [rewrite Hspec in Hinit; discriminate|].
  destruct (calculate_optimal_hashes log _) as [[[] bf1]|] eqn:Ecalc;
    rewrite Hspec in Hinit; [|discriminate].
  injection Hinit as <-.
  pose proof (calculate_optimal_hashes_bloom_length _ _ Ecalc) as Hlen.
  pose proof (calculate_optimal_hashes_frame log _ _ Ecalc) as Hbf1.
  unfold CInt.UINT64_MAX in Hrange.
  split; cbn [estimated_elements elements_added false_positive_probability
              bloom bloom_length set_hash_function set_elements_added set_bloom].
  - rewrite Hbf1. simpl. lia.
  - lia.
  - rewrite Hbf1. simpl. exact Hrate.
  - erewrite (calculate_optimal_hashes_stable log _ bf1) by (try exact Ecalc; rewrite Hbf1; reflexivity).
    reflexivity.
  - unfold calloc. rewrite (proj2 (Z.ltb_ge _ _)) by lia. cbn [orb negb].
    eexists. split; [reflexivity|]. rewrite length_replicate. lia.
Qed.

(** Construction with a granted bit store establishes the invariants of
    the data model as soon as the bytes it allocates cover the bits it
    derives and the strategy it binds honours its contract. *)
Lemma init_valid_filter (elements : Z) (rate : IEEE.float) (hf : option HashFunction)
    (bf0 bf : BloomFilter) :
  0 <= elements <= CInt.UINT64_MAX ->
  bloom_filter_init MD5 log true elements rate hf bf0 = Some (BLOOM_SUCCESS, bf) ->
  number_bits bf <= 8 * bloom_length bf ->
  hash_contract (bound_strategy MD5 hf) (number_hashes bf) (number_bits bf) ->
  valid_filter bf.
Proof.
  intros Hrange Hinit.
  pose proof (init_spec true elements rate hf bf0 Hrange) as Hspec.
  destruct (_ || _ || _); [rewrite Hspec in Hinit; discriminate|].
  destruct (calculate_optimal_hashes log _) as [[[] bf1]|] eqn:Ecalc;
    rewrite Hspec in Hinit; [|discriminate].
  injection Hinit as <-.
  pose proof (calculate_optimal_hashes_bloom_length _ _ Ecalc) as Hlen.
  cbn [number_bits number_hashes bloom_length bloom hash_function
       set_hash_function set_elements_added set_bloom].
  intros Hbits Hcontract. split.
  - cbn [bloom set_hash_function set_elements_added set_bloom]. unfold calloc.
    rewrite (proj2 (Z.ltb_ge _ _)) by lia. cbn [orb negb].
    eexists. split; [reflexivity|]. rewrite length_replicate.
    cbn [bloom_length number_bits set_hash_function set_elements_added set_bloom].
    split; lia.
  - eexists. split; [reflexivity|]. exact Hcontract.
Qed.

Lemma add_string_persistable (bf bf' : BloomFilter) (x : string) (r : status) :
  persistable log bf -> bloom_filter_add_string x bf = Some (r, bf') ->
  persistable log bf'.
Proof.
  intros [Hn Ha Hp Hsized (A & HA & Hlen)] Hadd.
  destruct (add_string_mono x bf bf' r A HA Hadd) as (A' & HA' & Hlen' & _).
  revert Hadd. unfold bloom_filter_add_string, bind, defined, load, store, free, ret.
  destruct (hash_function bf) as [f|]; [|discriminate].
  destruct (f _ _ x) as [hashes|]; [|discriminate].
  destruct (add_string_loop _ 0 hashes bf) as [[[] bf1]|] eqn:E; [|discriminate].
  intros [= _ <-].
  assert (Hbf1 : exists B, bf1 = set_bloom B bf).
  { clear -E. revert E. generalize 0 at 1. generalize (Z.to_nat (number_hashes bf)).
    intros n. revert bf. induction n as [|n IH]; intros bf i; simpl.
    - unfold ret. intros [= <-]. exists (bloom bf). now destruct bf.
    - unfold bind, defined, load, store.
      destruct (hashes !! Z.to_nat i); [|discriminate].
      destruct (bloom bf) as [A|]; [|discriminate].
      destruct (set_bit A z); [|discriminate].
      intros H. apply IH in H as [B ->]. exists B. reflexivity. }
  destruct Hbf1 as [B ->]. simpl in HA'. subst B.
  split; simpl; try assumption.
  - unfold CInt.to_uint64, CInt.to_unsigned. apply Z.mod_pos_bound. lia.
  - erewrite (calculate_optimal_hashes_stable log bf bf) by (try exact Hsized; reflexivity).
    destruct bf; reflexivity.
  - exists A'. split; [reflexivity|]. lia.
Qed.

End Construction.

(** ** Values of the formula of the specification *)

Section ExpEnclosure.

Local Open Scope R_scope.

Variable d : Z.
Hypothesis d_pos : (0 < d)%Z.

Lemma IZR_d_pos : 0 < IZR d.
Proof. apply IZR_lt. exact d_pos. Qed.

Lemma sq_above_spec (z : Z) : (z * z <= Formula.sq_above d z * d)%Z.
Proof.
  unfold Formula.sq_above.
  pose proof (Z.div_mod (z * z + d - 1) d ltac:(lia)) as Hdm.
  pose proof (Z.mod_pos_bound (z * z + d - 1) d d_pos) as Hm.
  lia.
Qed.

Lemma sq_below_spec (z : Z) : (Formula.sq_below d z * d <= z * z)%Z.
Proof.
  unfold Formula.sq_below.
  pose proof (Z.div_mod (z * z) d ltac:(lia)) as Hdm.
  pose proof (Z.mod_pos_bound (z * z) d d_pos) as Hm.
  lia.
Qed.

Lemma sq_below_nonneg (z : Z) : (0 <= Formula.sq_below d z)%Z.
Proof. unfold Formula.sq_below. apply Z.div_pos; [apply Z.square_nonneg|exact d_pos]. Qed.

Lemma exp_double (t : R) : exp (2 * t) = exp t * exp t.
Proof. replace (2 * t) with (t + t) by ring. apply exp_plus. Qed.

Lemma step_above (t : R) (z : Z) :
  exp t * IZR d <= IZR z -> exp (2 * t) * IZR d <= IZR (Formula.sq_above d z).
Proof.
  intros H. pose proof IZR_d_pos as Hd. pose proof (exp_pos t) as He.
  pose proof (IZR_le _ _ (sq_above_spec z)) as Hs. rewrite !mult_IZR in Hs.
  rewrite exp_double.
  apply Rmult_le_reg_r with (IZR d); [exact Hd|].
  apply Rle_trans with (IZR z * IZR z); [|exact Hs].
  replace (exp t * exp t * IZR d * IZR d) with ((exp t * IZR d) * (exp t * IZR d)) by ring.
  assert (0 <= exp t * IZR d) by (apply Rmult_le_pos; lra).
  apply Rmult_le_compat; assumption.
Qed.

Lemma step_below (t : R) (z : Z) :
  (0 <= z)%Z ->
  IZR z <= exp t * IZR d -> IZR (Formula.sq_below d z) <= exp (2 * t) * IZR d.
Proof.
  intros Hz H. pose proof IZR_d_pos as Hd.
  pose proof (IZR_le _ _ (sq_below_spec z)) as Hs. rewrite !mult_IZR in Hs.
  pose proof (IZR_le _ _ Hz) as Hz'.
  rewrite exp_double.
  apply Rmult_le_reg_r with (IZR d); [exact Hd|].
  apply Rle_trans with (IZR z * IZR z); [exact Hs|].
  replace (exp t * exp t * IZR d * IZR d) with ((exp t * IZR d) * (exp t * IZR d)) by ring.
  apply Rmult_le_compat; assumption.
Qed.

Lemma iter_above (k : nat) :
  forall (t : R) (z : Z),
    exp t * IZR d <= IZR z ->
    exp (2 ^ k * t) * IZR d <= IZR (Formula.iter_sq (Formula.sq_above d) k z).
Proof.
  induction k as [|k IH]; intros t z H; cbn [Formula.iter_sq].
  - replace (2 ^ 0 * t) with t by (simpl; ring). exact H.
  - replace (2 ^ S k * t) with (2 ^ k * (2 * t)) by (simpl; ring).
    apply IH. apply step_above. exact H.
Qed.

Lemma iter_below (k : nat) :
  forall (t : R) (z : Z),
    (0 <= z)%Z -> IZR z <= exp t * IZR d ->
    IZR (Formula.iter_sq (Formula.sq_below d) k z) <= exp (2 ^ k * t) * IZR d.
Proof.
  induction k as [|k IH]; intros t z Hz H; cbn [Formula.iter_sq].
  - replace (2 ^ 0 * t) with t by (simpl; ring). exact H.
  - replace (2 ^ S k * t) with (2 ^ k * (2 * t)) by (simpl; ring).
    apply IH; [apply sq_below_nonneg|]. apply step_below; assumption.
Qed.

Lemma exp_le_inv_1_minus (t : R) : t < 1 -> exp t * (1 - t) <= 1.
Proof.
  intros Ht. pose proof (exp_ineq1_le (- t)) as H. pose proof (exp_pos t) as He.
  rewrite exp_Ropp in H.
  assert (Hinv : exp t * / exp t = 1) by (apply Rinv_r; lra).
  replace (1 - t) with (1 + - t) by ring.
  apply Rle_trans with (exp t * / exp t); [|lra].
  apply Rmult_le_compat_l; lra.
Qed.

Lemma start_above (t a : Z) :
  (0 <= a < t)%Z ->
  exp (IZR a / IZR t) * IZR d <= IZR (Formula.base_above d t a).
Proof.
  intros Ha. unfold Formula.base_above.
  pose proof IZR_d_pos as Hd.
  assert (Ht : 0 < IZR t) by (apply IZR_lt; lia).
  assert (Hta : 0 < IZR (t - a)) by (apply IZR_lt; lia).
  set (q := ((d * t + (t - a) - 1) / (t - a))%Z).
  assert (Hq : (d * t <= q * (t - a))%Z).
  { subst q. pose proof (Z.div_mod (d * t + (t - a) - 1) (t - a) ltac:(lia)) as Hdm.
    pose proof (Z.mod_pos_bound (d * t + (t - a) - 1) (t - a) ltac:(lia)) as Hm. lia. }
  apply IZR_le in Hq. rewrite !mult_IZR in Hq.
  assert (Hx : IZR a / IZR t < 1).
  { apply Rmult_lt_reg_r with (IZR t); [exact Ht|].
    unfold Rdiv. rewrite Rmult_assoc, Rinv_l by lra. rewrite Rmult_1_r, Rmult_1_l.
    apply IZR_lt. lia. }
  pose proof (exp_le_inv_1_minus _ Hx) as He.
  pose proof (exp_pos (IZR a / IZR t)) as Hp.
  assert (Hfrac : 1 - IZR a / IZR t = IZR (t - a) / IZR t).
  { rewrite minus_IZR. field. lra. }
  rewrite Hfrac in He.
  apply Rmult_le_reg_r with (IZR (t - a)); [exact Hta|].
  apply Rle_trans with (IZR d * IZR t); [|exact Hq].
  replace (exp (IZR a / IZR t) * IZR d * IZR (t - a))
    with (exp (IZR a / IZR t) * (IZR (t - a) / IZR t) * (IZR d * IZR t))
    by (field; lra).
  rewrite <- (Rmult_1_l (IZR d * IZR t)) at 2.
  apply Rmult_le_compat_r; [apply Rmult_le_pos; lra|exact He].
Qed.

Lemma start_below (t a : Z) :
  (0 < t)%Z -> (0 <= a)%Z ->
  IZR (Formula.base_below d t a) <= exp (IZR a / IZR t) * IZR d.
Proof.
  intros Ht0 Ha. unfold Formula.base_below.
  pose proof IZR_d_pos as Hd.
  assert (Ht : 0 < IZR t) by (apply IZR_lt; lia).
  set (q := ((a * d) / t)%Z).
  assert (Hq : (q * t <= a * d)%Z).
  { subst q. pose proof (Z.div_mod (a * d) t ltac:(lia)) as Hdm.
    pose proof (Z.mod_pos_bound (a * d) t Ht0) as Hm. lia. }
  apply IZR_le in Hq. rewrite !mult_IZR in Hq.
  pose proof (exp_ineq1_le (IZR a / IZR t)) as He.
  rewrite plus_IZR.
  apply Rle_trans with ((1 + IZR a / IZR t) * IZR d);
    [|apply Rmult_le_compat_r; lra].
  assert (IZR q <= IZR a / IZR t * IZR d); [|lra].
  apply Rmult_le_reg_r with (IZR t); [exact Ht|].
  replace (IZR a / IZR t * IZR d * IZR t) with (IZR a * IZR d) by (field; lra).
  exact Hq.
Qed.

Lemma base_below_nonneg (t a : Z) :
  (0 < t)%Z -> (0 <= a)%Z -> (0 <= Formula.base_below d t a)%Z.
Proof.
  intros Ht Ha. unfold Formula.base_below.
  assert (0 <= a * d / t)%Z by (apply Z.div_pos; [apply Z.mul_nonneg_nonneg|]; lia).
  lia.
Qed.

End ExpEnclosure.

Section FormulaValues.

Local Open Scope R_scope.

Lemma D_pos : (0 < Formula.D)%Z.
Proof. reflexivity. Qed.

Lemma G_pos : 0 < IZR Formula.G.
Proof. apply IZR_lt. reflexivity. Qed.

Lemma IZR_G_pow :
  IZR (Formula.G * 2 ^ Z.of_nat Formula.K) = IZR Formula.G * 2 ^ Formula.K.
Proof. rewrite mult_IZR, <- pow_IZR. reflexivity. Qed.

Lemma scaled_argument (A : Z) :
  2 ^ Formula.K * (IZR A / IZR (Formula.G * 2 ^ Z.of_nat Formula.K))
  = IZR A / IZR Formula.G.
Proof.
  rewrite IZR_G_pow. pose proof G_pos.
  assert (0 < 2 ^ Formula.K) by (apply pow_lt; lra).
  field. split; lra.
Qed.

Lemma exp_above_ok (A : Z) :
  (0 <= A < Formula.G * 2 ^ Z.of_nat Formula.K)%Z ->
  exp (IZR A / IZR Formula.G) * IZR Formula.D <= IZR (Formula.exp_above A).
Proof.
  intros HA. unfold Formula.exp_above. rewrite <- scaled_argument.
  apply iter_above; [exact D_pos|]. apply start_above; [exact D_pos|exact HA].
Qed.

Lemma exp_below_ok (A : Z) :
  (0 <= A)%Z ->
  IZR (Formula.exp_below A) <= exp (IZR A / IZR Formula.G) * IZR Formula.D.
Proof.
  intros HA. unfold Formula.exp_below. rewrite <- scaled_argument.
  apply iter_below; [exact D_pos| |].
  - apply base_below_nonneg; [exact D_pos|reflexivity|exact HA].
  - apply start_below; [exact D_pos|reflexivity|exact HA].
Qed.

Lemma exp_le_reg (x y : R) : exp x <= exp y -> x <= y.
Proof.
  intros H. destruct (Rle_or_lt x y) as [Hle|Hlt]; [exact Hle|].
  apply exp_increasing in Hlt. lra.
Qed.

(** A rational below, and a rational above, the logarithm of [a / b]. *)
Lemma ln_lower (A a b : Z) :
  (0 < a)%Z -> (0 < b)%Z ->
  (0 <= A < Formula.G * 2 ^ Z.of_nat Formula.K)%Z ->
  (Formula.exp_above A * b <= a * Formula.D)%Z ->
  IZR A / IZR Formula.G <= ln (IZR a / IZR b).
Proof.
  intros Ha Hb HA Hcheck.
  assert (Ha' : 0 < IZR a) by (apply IZR_lt; exact Ha).
  assert (Hb' : 0 < IZR b) by (apply IZR_lt; exact Hb).
  assert (Hd : 0 < IZR Formula.D) by (apply IZR_lt; exact D_pos).
  assert (Hc : 0 < IZR a / IZR b) by (apply Rdiv_lt_0_compat; assumption).
  apply exp_le_reg. rewrite (exp_ln _ Hc).
  pose proof (exp_above_ok A HA) as He.
  apply IZR_le in Hcheck. rewrite !mult_IZR in Hcheck.
  apply Rmult_le_reg_r with (IZR Formula.D * IZR b); [apply Rmult_lt_0_compat; lra|].
  replace (IZR a / IZR b * (IZR Formula.D * IZR b)) with (IZR a * IZR Formula.D)
    by (field; lra).
  apply Rle_trans with (IZR (Formula.exp_above A) * IZR b); [|exact Hcheck].
  rewrite <- Rmult_assoc. apply Rmult_le_compat_r; lra.
Qed.

Lemma ln_upper (A a b : Z) :
  (0 < a)%Z -> (0 < b)%Z -> (0 <= A)%Z ->
  (a * Formula.D <= Formula.exp_below A * b)%Z ->
  ln (IZR a / IZR b) <= IZR A / IZR Formula.G.
Proof.
  intros Ha Hb HA Hcheck.
  assert (Ha' : 0 < IZR a) by (apply IZR_lt; exact Ha).
  assert (Hb' : 0 < IZR b) by (apply IZR_lt; exact Hb).
  assert (Hd : 0 < IZR Formula.D) by (apply IZR_lt; exact D_pos).
  assert (Hc : 0 < IZR a / IZR b) by (apply Rdiv_lt_0_compat; assumption).
  apply exp_le_reg. rewrite (exp_ln _ Hc).
  pose proof (exp_below_ok A HA) as He.
  apply IZR_le in Hcheck. rewrite !mult_IZR in Hcheck.
  apply Rmult_le_reg_r with (IZR Formula.D * IZR b); [apply Rmult_lt_0_compat; lra|].
  replace (IZR a / IZR b * (IZR Formula.D * IZR b)) with (IZR a * IZR Formula.D)
    by (field; lra).
  apply Rle_trans with (IZR (Formula.exp_below A) * IZR b); [exact Hcheck|].
  rewrite <- Rmult_assoc. apply Rmult_le_compat_r; lra.
Qed.

Lemma ln_2_enclosure :
  IZR Formula.ln_2_lo / IZR Formula.G <= ln 2 <= IZR Formula.ln_2_hi / IZR Formula.G.
Proof.
  replace 2 with (IZR 2 / IZR 1) by field. split.
  - apply ln_lower;
      [reflexivity | reflexivity | split; [discriminate|vm_compute; reflexivity]
      | apply Z.leb_le; vm_compute; reflexivity].
  - apply ln_upper;
      [reflexivity | reflexivity | discriminate
      | apply Z.leb_le; vm_compute; reflexivity].
Qed.

Lemma ln_inv_0_01_enclosure :
  IZR Formula.ln_inv_0_01_lo / IZR Formula.G
  <= ln (IZR (2 ^ 30)%Z / IZR 10737418)
  <= IZR Formula.ln_inv_0_01_hi / IZR Formula.G.
Proof.
  split.
  - apply ln_lower;
      [reflexivity | reflexivity | split; [discriminate|vm_compute; reflexivity]
      | apply Z.leb_le; vm_compute; reflexivity].
  - apply ln_upper;
      [reflexivity | reflexivity | discriminate
      | apply Z.leb_le; vm_compute; reflexivity].
Qed.

Lemma ln_inv_0_65_enclosure :
  IZR Formula.ln_inv_0_65_lo / IZR Formula.G
  <= ln (IZR (2 ^ 24)%Z / IZR 10905190)
  <= IZR Formula.ln_inv_0_65_hi / IZR Formula.G.
Proof.
  split.
  - apply ln_lower;
      [reflexivity | reflexivity | split; [discriminate|vm_compute; reflexivity]
      | apply Z.leb_le; vm_compute; reflexivity].
  - apply ln_upper;
      [reflexivity | reflexivity | discriminate
      | apply Z.leb_le; vm_compute; reflexivity].
Qed.

End FormulaValues.

Section FormulaAtInputs.

Local Open Scope R_scope.

Lemma real_value_f_0_01 :
  Formula.real_value Sample.f_0_01 = IZR 10737418 / IZR (2 ^ 30)%Z.
Proof.
  unfold Formula.real_value, Sample.f_0_01, cond_Zopp, powerRZ.
  rewrite pow_IZR, positive_nat_Z. reflexivity.
Qed.

Lemma real_value_f_0_65 :
  Formula.real_value Sample.f_0_65 = IZR 10905190 / IZR (2 ^ 24)%Z.
Proof.
  unfold Formula.real_value, Sample.f_0_65, cond_Zopp, powerRZ.
  rewrite pow_IZR, positive_nat_Z. reflexivity.
Qed.

Lemma ln_2_pos : 0 < ln 2.
Proof.
  pose proof ln_2_enclosure as [Hlo _]. pose proof G_pos as Hg.
  apply Rlt_le_trans with (IZR Formula.ln_2_lo / IZR Formula.G); [|exact Hlo].
  apply Rdiv_lt_0_compat; [apply IZR_lt; reflexivity|exact Hg].
Qed.

(** The number of bits of the formula at a capacity [n] and a rate
    [a / b], from an enclosure of [- ln (a / b)] and two comparisons of
    integers. *)
Lemma spec_number_bits_enclosed (n N a b lo hi : Z) :
  (0 < n)%Z -> (1 <= N)%Z -> (0 < a)%Z -> (0 < b)%Z ->
  IZR lo / IZR Formula.G <= ln (IZR b / IZR a) <= IZR hi / IZR Formula.G ->
  (n * hi * Formula.G <= N * Formula.ln_2_lo * Formula.ln_2_lo)%Z ->
  ((N - 1) * Formula.ln_2_hi * Formula.ln_2_hi < n * lo * Formula.G)%Z ->
  Formula.spec_number_bits n (IZR a / IZR b) = N.
Proof.
  intros Hn HN Ha Hb [Hlo Hhi] Hup Hdown.
  assert (Ha' : 0 < IZR a) by (apply IZR_lt; exact Ha).
  assert (Hb' : 0 < IZR b) by (apply IZR_lt; exact Hb).
  assert (Hn' : 0 < IZR n) by (apply IZR_lt; exact Hn).
  assert (HN' : 0 <= IZR (N - 1)) by (apply IZR_le; lia).
  pose proof G_pos as Hg. pose proof ln_2_pos as HY.
  pose proof ln_2_enclosure as [H2lo H2hi].
  assert (Hl2 : 0 < IZR Formula.ln_2_lo) by (apply IZR_lt; reflexivity).
  set (g := IZR Formula.G) in *.
  set (X := ln (IZR b / IZR a)) in *.
  set (Y := ln 2) in *.
  assert (Hln : ln (IZR a / IZR b) = - X).
  { subst X. rewrite <- ln_Rinv by (apply Rdiv_lt_0_compat; assumption).
    f_equal. field. split; lra. }
  apply IZR_le in Hup. apply IZR_lt in Hdown.
  rewrite !mult_IZR in Hup, Hdown. fold g in Hup, Hdown.
  assert (HXlo : IZR lo <= X * g).
  { apply Rmult_le_reg_r with (/ g); [apply Rinv_0_lt_compat; exact Hg|].
    rewrite Rmult_assoc, Rinv_r, Rmult_1_r by lra. exact Hlo. }
  assert (HXhi : X * g <= IZR hi).
  { apply Rmult_le_reg_r with (/ g); [apply Rinv_0_lt_compat; exact Hg|].
    rewrite Rmult_assoc, Rinv_r, Rmult_1_r by lra. exact Hhi. }
  assert (HYlo : IZR Formula.ln_2_lo <= Y * g).
  { apply Rmult_le_reg_r with (/ g); [apply Rinv_0_lt_compat; exact Hg|].
    rewrite Rmult_assoc, Rinv_r, Rmult_1_r by lra. exact H2lo. }
  assert (HYhi : Y * g <= IZR Formula.ln_2_hi).
  { apply Rmult_le_reg_r with (/ g); [apply Rinv_0_lt_compat; exact Hg|].
    rewrite Rmult_assoc, Rinv_r, Rmult_1_r by lra. exact H2hi. }
  assert (HYg : 0 < Y * g) by (apply Rmult_lt_0_compat; assumption).
  (* the two comparisons, scaled by g * g *)
  assert (Hupper : IZR n * (X * g) * g <= IZR N * ((Y * g) * (Y * g))).
  { apply Rle_trans with (IZR n * IZR hi * g).
    - apply Rmult_le_compat_r; [lra|]. apply Rmult_le_compat_l; lra.
    - apply Rle_trans with (IZR N * IZR Formula.ln_2_lo * IZR Formula.ln_2_lo); [exact Hup|].
      replace (IZR N * IZR Formula.ln_2_lo * IZR Formula.ln_2_lo)
        with (IZR N * (IZR Formula.ln_2_lo * IZR Formula.ln_2_lo)) by ring.
      apply Rmult_le_compat_l; [apply IZR_le; lia|].
      apply Rmult_le_compat; lra. }
  assert (Hlower : IZR (N - 1) * ((Y * g) * (Y * g)) < IZR n * (X * g) * g).
  { apply Rle_lt_trans with (IZR (N - 1) * IZR Formula.ln_2_hi * IZR Formula.ln_2_hi).
    - replace (IZR (N - 1) * IZR Formula.ln_2_hi * IZR Formula.ln_2_hi)
        with (IZR (N - 1) * (IZR Formula.ln_2_hi * IZR Formula.ln_2_hi)) by ring.
      apply Rmult_le_compat_l; [exact HN'|].
      apply Rmult_le_compat; lra.
    - apply Rlt_le_trans with (IZR n * IZR lo * g); [exact Hdown|].
      apply Rmult_le_compat_r; [lra|]. apply Rmult_le_compat_l; lra. }
  unfold Formula.spec_number_bits. fold Y. rewrite Hln.
  apply Zceil_eq.
  assert (Hval : - IZR n * - X / Y ^ 2 = IZR n * (X * g) * g / ((Y * g) * (Y * g))).
  { field. split; lra. }
  rewrite Hval.
  assert (Hden : 0 < (Y * g) * (Y * g)) by (apply Rmult_lt_0_compat; assumption).
  replace (IZR N - 1) with (IZR (N - 1)) by (rewrite minus_IZR; reflexivity).
  set (num := IZR n * (X * g) * g) in *.
  set (den := (Y * g) * (Y * g)) in *.
  assert (Hcancel : num / den * den = num) by (field; lra).
  split.
  - apply Rmult_lt_reg_r with den; [exact Hden|]. rewrite Hcancel. exact Hlower.
  - apply Rmult_le_reg_r with den; [exact Hden|]. rewrite Hcancel. exact Hupper.
Qed.

(** The number of hashes of the formula, from two comparisons of
    integers. *)
Lemma spec_number_hashes_enclosed (n m k : Z) :
  (0 < n)%Z -> (0 <= m)%Z -> (1 <= k)%Z ->
  ((2 * k - 1) * Formula.G * n <= 2 * Formula.ln_2_lo * m)%Z ->
  (2 * Formula.ln_2_hi * m < (2 * k + 1) * Formula.G * n)%Z ->
  Formula.spec_number_hashes n m = k.
Proof.
  intros Hn Hm Hk Hdown Hup.
  assert (Hn' : 0 < IZR n) by (apply IZR_lt; exact Hn).
  assert (Hm' : 0 <= IZR m) by (apply IZR_le; exact Hm).
  assert (Hk' : 1 <= IZR k) by (apply IZR_le; exact Hk).
  pose proof G_pos as Hg. pose proof ln_2_enclosure as [H2lo H2hi].
  set (g := IZR Formula.G) in *. set (Y := ln 2) in *.
  apply IZR_le in Hdown. apply IZR_lt in Hup.
  repeat first [rewrite mult_IZR in Hdown | rewrite minus_IZR in Hdown].
  repeat first [rewrite mult_IZR in Hup | rewrite plus_IZR in Hup].
  fold g in Hdown, Hup.
  assert (HYlo : IZR Formula.ln_2_lo <= Y * g).
  { apply Rmult_le_reg_r with (/ g); [apply Rinv_0_lt_compat; exact Hg|].
    rewrite Rmult_assoc, Rinv_r, Rmult_1_r by lra. exact H2lo. }
  assert (HYhi : Y * g <= IZR Formula.ln_2_hi).
  { apply Rmult_le_reg_r with (/ g); [apply Rinv_0_lt_compat; exact Hg|].
    rewrite Rmult_assoc, Rinv_r, Rmult_1_r by lra. exact H2hi. }
  assert (Hgn : 0 < g * IZR n) by (apply Rmult_lt_0_compat; assumption).
  set (x := Y * IZR m / IZR n).
  assert (Hx : 2 * (Y * g) * IZR m = (2 * x) * (g * IZR n)) by (subst x; field; lra).
  assert (Hlo : (2 * IZR k - 1) * (g * IZR n) <= (2 * x) * (g * IZR n)).
  { rewrite <- Hx. apply Rle_trans with (2 * IZR Formula.ln_2_lo * IZR m); [lra|].
    apply Rmult_le_compat_r; [exact Hm'|]. lra. }
  assert (Hhi : (2 * x) * (g * IZR n) < (2 * IZR k + 1) * (g * IZR n)).
  { rewrite <- Hx. apply Rle_lt_trans with (2 * IZR Formula.ln_2_hi * IZR m); [|lra].
    apply Rmult_le_compat_r; [exact Hm'|]. lra. }
  apply Rmult_le_reg_r in Hlo; [|exact Hgn].
  apply Rmult_lt_reg_r in Hhi; [|exact Hgn].
  unfold Formula.spec_number_hashes, Formula.Rround. fold Y. fold x.
  destruct (Rle_dec 0 x) as [_|Hneg]; [|exfalso; apply Hneg; lra].
  apply Zfloor_eq. lra.
Qed.

(** The byte count of the formula is the integer quotient rounded up. *)
Lemma spec_bit_store_length_eq (m : Z) :
  Formula.spec_bit_store_length m = ((m + 7) / 8)%Z.
Proof.
  unfold Formula.spec_bit_store_length. apply Zceil_eq.
  pose proof (Z.div_mod (m + 7) 8 ltac:(lia)) as Hdm.
  pose proof (Z.mod_pos_bound (m + 7) 8 ltac:(lia)) as Hmod.
  set (q := ((m + 7) / 8)%Z) in *.
  assert (Hlo : (8 * q - 8 < m)%Z) by lia.
  assert (Hhi : (m <= 8 * q)%Z) by lia.
  apply IZR_lt in Hlo. apply IZR_le in Hhi.
  rewrite minus_IZR, mult_IZR in Hlo. rewrite mult_IZR in Hhi.
  split; lra.
Qed.

Lemma spec_number_bits_at_5293297 :
  Formula.spec_number_bits 5293297%Z (Formula.real_value Sample.f_0_01) = 50736561%Z.
Proof.
  rewrite real_value_f_0_01.
  apply (spec_number_bits_enclosed 5293297 50736561 10737418 (2 ^ 30)
           Formula.ln_inv_0_01_lo Formula.ln_inv_0_01_hi)%Z;
    try exact ln_inv_0_01_enclosure; try (vm_compute; reflexivity);
    vm_compute; discriminate.
Qed.

Lemma spec_number_bits_at_uint64_max :
  Formula.spec_number_bits (2 ^ 64 - 1)%Z (Formula.real_value Sample.f_0_65)
  = 16539687858965695007%Z.
Proof.
  rewrite real_value_f_0_65.
  apply (spec_number_bits_enclosed (2 ^ 64 - 1) 16539687858965695007 10905190 (2 ^ 24)
           Formula.ln_inv_0_65_lo Formula.ln_inv_0_65_hi)%Z;
    try exact ln_inv_0_65_enclosure; try (vm_compute; reflexivity);
    vm_compute; discriminate.
Qed.

Lemma spec_number_hashes_at_5293297 :
  Formula.spec_number_hashes 5293297%Z 50736561%Z = 7%Z.
Proof.
  apply spec_number_hashes_enclosed; try (vm_compute; reflexivity);
    vm_compute; discriminate.
Qed.

Lemma spec_number_hashes_at_uint64_max :
  Formula.spec_number_hashes (2 ^ 64 - 1)%Z 16539687858965695007%Z = 1%Z.
Proof.
  apply spec_number_hashes_enclosed; try (vm_compute; reflexivity);
    vm_compute; discriminate.
Qed.

End FormulaAtInputs.

(** ** Sizing on concrete parameters *)

Section Scenarios.

Variable MD5 : list Z -> list Z.
Variable log exp : IEEE.double -> IEEE.double.
Variable pow : IEEE.double -> IEEE.double -> IEEE.double.

(** Runs [calculate_optimal_hashes] once the two values of [log] it asks
    for are known. *)
Ltac run_sizing Hp H2 :=
  unfold calculate_optimal_hashes, bind, load, defined, store;
  cbn [false_positive_probability set_false_positive_probability
       estimated_elements set_estimated_elements];
  rewrite Hp, H2; vm_compute; reflexivity.

(** Scenario A: with the values of [log] at the rate and at 2,
    construction for capacity 10000 and rate 0.01 derives 95851 bits, 7
    hashes and 11982 bytes. *)
Lemma scenario_A_sizing (granted : bool) (hf : option HashFunction)
    (bf0 : BloomFilter) :
  log (IEEE.double_of_float Sample.f_0_01) = Sample.log_0_01 ->
  log (IEEE.d_of_Z 2) = Sample.log_2 ->
  exists bf,
    bloom_filter_init MD5 log granted 10000 Sample.f_0_01 hf bf0 = Some (BLOOM_SUCCESS, bf) /\
    number_bits bf = 95851 /\ number_hashes bf = 7 /\ bloom_length bf = 11982.
Proof.
  intros Hp H2.
  pose proof (init_spec MD5 log granted 10000 Sample.f_0_01 hf bf0) as Hspec.
  assert (Hguard : (10000 =? 0)
                   || IEEE.d_leb (IEEE.double_of_float Sample.f_0_01) (IEEE.d_of_Z 0)
                   || IEEE.d_leb (IEEE.d_of_Z 1) (IEEE.double_of_float Sample.f_0_01) = false)
    by (vm_compute; reflexivity).
  rewrite Hguard in Hspec.
  assert (Hcalc : calculate_optimal_hashes log
                    (set_false_positive_probability Sample.f_0_01
                       (set_estimated_elements 10000 bf0))
                  = Some (tt, set_bloom_length 11982
                                (set_number_bits 95851
                                   (set_number_hashes 7
                                      (set_false_positive_probability Sample.f_0_01
                                         (set_estimated_elements 10000 bf0))))))
    by (run_sizing Hp H2).
  rewrite Hcalc in Hspec.
  eexists. split; [apply Hspec; vm_compute; split; discriminate|].
  repeat split.
Qed.

(** Scenario B, in the same way: capacity 100 and rate 0.05 give 624 bits,
    4 hashes and 78 bytes. *)
Lemma scenario_B_sizing (granted : bool) (hf : option HashFunction)
    (bf0 : BloomFilter) :
  log (IEEE.double_of_float Sample.f_0_05) = Sample.log_0_05 ->
  log (IEEE.d_of_Z 2) = Sample.log_2 ->
  exists bf,
    bloom_filter_init MD5 log granted 100 Sample.f_0_05 hf bf0 = Some (BLOOM_SUCCESS, bf) /\
    number_bits bf = 624 /\ number_hashes bf = 4 /\ bloom_length bf = 78.
Proof.
  intros Hp H2.
  pose proof (init_spec MD5 log granted 100 Sample.f_0_05 hf bf0) as Hspec.
  assert (Hguard : (100 =? 0)
                   || IEEE.d_leb (IEEE.double_of_float Sample.f_0_05) (IEEE.d_of_Z 0)
                   || IEEE.d_leb (IEEE.d_of_Z 1) (IEEE.double_of_float Sample.f_0_05) = false)
    by (vm_compute; reflexivity).
  rewrite Hguard in Hspec.
  assert (Hcalc : calculate_optimal_hashes log
                    (set_false_positive_probability Sample.f_0_05
                       (set_estimated_elements 100 bf0))
                  = Some (tt, set_bloom_length 78
                                (set_number_bits 624
                                   (set_number_hashes 4
                                      (set_false_positive_probability Sample.f_0_05
                                         (set_estimated_elements 100 bf0))))))
    by (run_sizing Hp H2).
  rewrite Hcalc in Hspec.
  eexists. split; [apply Hspec; vm_compute; split; discriminate|].
  repeat split.
Qed.

(** At a capacity of [2^64 - 1] and a rate of 0.65 the capacity is read
    into a [long], where it is -1: the product with the logarithm is
    negative, its ceiling is the negative zero, and construction succeeds
    with 0 bits, 0 hashes and 0 bytes. *)
Lemma sizing_at_uint64_max (granted : bool) (hf : option HashFunction)
    (bf0 : BloomFilter) :
  log (IEEE.double_of_float Sample.f_0_65) = Sample.log_0_65 ->
  log (IEEE.d_of_Z 2) = Sample.log_2 ->
  exists bf,
    bloom_filter_init MD5 log granted (2 ^ 64 - 1) Sample.f_0_65 hf bf0 = Some (BLOOM_SUCCESS, bf) /\
    number_bits bf = 0 /\ number_hashes bf = 0 /\ bloom_length bf = 0.
Proof.
  intros Hp H2.
  pose proof (init_spec MD5 log granted (2 ^ 64 - 1) Sample.f_0_65 hf bf0) as Hspec.
  assert (Hguard : (2 ^ 64 - 1 =? 0)
                   || IEEE.d_leb (IEEE.double_of_float Sample.f_0_65) (IEEE.d_of_Z 0)
                   || IEEE.d_leb (IEEE.d_of_Z 1) (IEEE.double_of_float Sample.f_0_65) = false)
    by (vm_compute; reflexivity).
  rewrite Hguard in Hspec.
  assert (Hcalc : calculate_optimal_hashes log
                    (set_false_positive_probability Sample.f_0_65
                       (set_estimated_elements (2 ^ 64 - 1) bf0))
                  = Some (tt, set_bloom_length 0
                                (set_number_bits 0
                                   (set_number_hashes 0
                                      (set_false_positive_probability Sample.f_0_65
                                         (set_estimated_elements (2 ^ 64 - 1) bf0))))))
    by (run_sizing Hp H2).
  rewrite Hcalc in Hspec.
  eexists. split; [apply Hspec; vm_compute; split; discriminate|].
  repeat split.
Qed.

(** At a capacity of 5293297 and a rate of 0.01 construction derives
    50736562 bits (7 hashes, 6342071 bytes): the quotient by
    [LOG_TWO_SQUARED] is just above 50736561. *)
Lemma sizing_at_5293297 (granted : bool) (hf : option HashFunction)
    (bf0 : BloomFilter) :
  log (IEEE.double_of_float Sample.f_0_01) = Sample.log_0_01 ->
  log (IEEE.d_of_Z 2) = Sample.log_2 ->
  exists bf,
    bloom_filter_init MD5 log granted 5293297 Sample.f_0_01 hf bf0 = Some (BLOOM_SUCCESS, bf) /\
    number_bits bf = 50736562 /\ number_hashes bf = 7 /\ bloom_length bf = 6342071.
Proof.
  intros Hp H2.
  pose proof (init_spec MD5 log granted 5293297 Sample.f_0_01 hf bf0) as Hspec.
  assert (Hguard : (5293297 =? 0)
                   || IEEE.d_leb (IEEE.double_of_float Sample.f_0_01) (IEEE.d_of_Z 0)
                   || IEEE.d_leb (IEEE.d_of_Z 1) (IEEE.double_of_float Sample.f_0_01) = false)
    by (vm_compute; reflexivity).
  rewrite Hguard in Hspec.
  assert (Hcalc : calculate_optimal_hashes log
                    (set_false_positive_probability Sample.f_0_01
                       (set_estimated_elements 5293297 bf0))
                  = Some (tt, set_bloom_length 6342071
                                (set_number_bits 50736562
                                   (set_number_hashes 7
                                      (set_false_positive_probability Sample.f_0_01
                                         (set_estimated_elements 5293297 bf0))))))
    by (run_sizing Hp H2).
  rewrite Hcalc in Hspec.
  eexists. split; [apply Hspec; vm_compute; split; discriminate|].
  repeat split.
Qed.

(** C3. Sizing departs from the formula
    [m = ceil(-n * ln(p) / (ln 2)^2)], [k = round(ln(2) * m / n)] at two
    inputs that construction accepts.  At [n = 5293297], [p = 0.01] the
    code derives 50736562 bits where the formula gives 50736561: the code
    divides by the 13-digit constant [LOG_TWO_SQUARED].  At
    [n = 2^64 - 1], [p = 0.65] the capacity is -1 once read into a
    [long], and the code derives 0 bits and 0 hashes where the formula
    gives 16539687858965695007 bits and 1 hash. *)
Theorem sizing_departs_from_formula (granted : bool) (hf : option HashFunction)
    (bf0 : BloomFilter) :
  log (IEEE.double_of_float Sample.f_0_01) = Sample.log_0_01 ->
  log (IEEE.double_of_float Sample.f_0_65) = Sample.log_0_65 ->
  log (IEEE.d_of_Z 2) = Sample.log_2 ->
  (exists bf,
      bloom_filter_init MD5 log granted 5293297 Sample.f_0_01 hf bf0 = Some (BLOOM_SUCCESS, bf) /\
      number_bits bf = 50736562 /\ number_hashes bf = 7 /\ bloom_length bf = 6342071) /\
  Formula.spec_number_bits 5293297 (Formula.real_value Sample.f_0_01) = 50736561 /\
  CInt.to_long (2 ^ 64 - 1) = -1 /\
  (exists bf,
      bloom_filter_init MD5 log granted (2 ^ 64 - 1) Sample.f_0_65 hf bf0 = Some (BLOOM_SUCCESS, bf) /\
      number_bits bf = 0 /\ number_hashes bf = 0 /\ bloom_length bf = 0) /\
  Formula.spec_number_bits (2 ^ 64 - 1) (Formula.real_value Sample.f_0_65)
    = 16539687858965695007 /\
  Formula.spec_number_hashes (2 ^ 64 - 1) 16539687858965695007 = 1.
Proof.
  intros H01 H65 H2. repeat apply conj.
  - apply sizing_at_5293297; assumption.
  - exact spec_number_bits_at_5293297.
  - reflexivity.
  - apply sizing_at_uint64_max; assumption.
  - exact spec_number_bits_at_uint64_max.
  - exact spec_number_hashes_at_uint64_max.
Qed.

(** The status of [bloom_filter_init] is decided by its guard alone: it is
    [BLOOM_FAILURE] exactly when the capacity is 0, the rate compares at
    most 0, or the rate compares at least 1. *)
Lemma init_failure_guard (granted : bool) (elements : Z) (rate : IEEE.float)
    (hf : option HashFunction) (bf0 : BloomFilter) :
  0 <= elements <= CInt.UINT64_MAX ->
  returns_failure (bloom_filter_init MD5 log granted elements rate hf bf0) =
    (elements =? 0)
    || IEEE.d_leb (IEEE.double_of_float rate) (IEEE.d_of_Z 0)
    || IEEE.d_leb (IEEE.d_of_Z 1) (IEEE.double_of_float rate).
Proof.
  intros Hrange. pose proof (init_spec MD5 log granted elements rate hf bf0 Hrange) as Hspec.
  destruct (_ || _ || _).
  - rewrite Hspec. reflexivity.
  - destruct (calculate_optimal_hashes log _) as [[[] bf1]|]; rewrite Hspec; reflexivity.
Qed.

(** C4. Construction with a rate that is not a number: both comparisons
    of the guard are false on a NaN, so [bloom_filter_init] does not
    return [BLOOM_FAILURE] although the rate lies outside the open
    interval (0, 1); on the boundary values 0 and 1 of the rate and on a
    capacity of 0 it does. *)
Theorem init_does_not_reject_nan (granted : bool) (hf : option HashFunction)
    (bf0 : BloomFilter) :
  returns_failure (bloom_filter_init MD5 log granted 1 S754_nan hf bf0) = false /\
  IEEE.d_ltb (IEEE.d_of_Z 0) (IEEE.double_of_float S754_nan)
    && IEEE.d_ltb (IEEE.double_of_float S754_nan) (IEEE.d_of_Z 1) = false /\
  bloom_filter_init MD5 log granted 0 Sample.f_0_01 hf bf0 = Some (BLOOM_FAILURE, bf0) /\
  bloom_filter_init MD5 log granted 1 (IEEE.f_of_Z 0) hf bf0 = Some (BLOOM_FAILURE, bf0) /\
  bloom_filter_init MD5 log granted 1 (IEEE.f_of_Z 1) hf bf0 = Some (BLOOM_FAILURE, bf0) /\
  bloom_filter_init MD5 log granted 1 (IEEE.f_of_Z (-1)) hf bf0 = Some (BLOOM_FAILURE, bf0).
Proof.
  split; [|repeat split].
  rewrite init_failure_guard by (vm_compute; split; discriminate).
  reflexivity.
Qed.

(** While the product of [number_hashes] and [elements_added] is at most
    [2^31], the numerator is its negation. *)
Lemma false_positive_rate_num_small (k added : Z) :
  0 <= k < 2 ^ 32 -> 0 <= added < 2 ^ 64 -> k * added <= 2 ^ 31 ->
  false_positive_rate_num k added = - (k * added).
Proof.
  intros Hk Ha Hprod.
  unfold false_positive_rate_num, CInt.to_int, CInt.to_signed, CInt.to_uint64,
    CInt.to_uint, CInt.to_unsigned.
  assert (Hmod : (((k * -1) mod 2 ^ 32 * added) mod 2 ^ 64) mod 2 ^ 32
                 = (- (k * added)) mod 2 ^ 32).
  { rewrite Z.mod_mod_divide by (exists (2 ^ 32); reflexivity).
    rewrite Z.mul_mod_idemp_l by lia. f_equal. lia. }
  rewrite Hmod. assert (0 <= k * added) by (apply Z.mul_nonneg_nonneg; lia).
  change (2 ^ (32 - 1)) with (2 ^ 31).
  destruct (Z.eq_dec (k * added) 0) as [H0|Hne].
  - rewrite H0. reflexivity.
  - assert (Hval : (- (k * added)) mod 2 ^ 32 = 2 ^ 32 - k * added).
    { symmetry. apply Z.mod_unique with (q := -1); lia. }
    rewrite Hval. destruct (Z.ltb_spec (2 ^ 32 - k * added) (2 ^ 31)); lia.
Qed.

(** What [bloom_filter_current_false_positive_rate] computes for the
    filter of scenario A after 400000000 insertions. *)
Lemma current_false_positive_rate_of_worn :
  bloom_filter_current_false_positive_rate exp pow Sample.scenario_A_worn =
    Some (IEEE.float_of_double
            (pow (IEEE.d_sub (IEEE.d_of_Z 1)
                    (exp (IEEE.d_div (IEEE.d_of_Z 1494967296) (IEEE.d_of_Z 95851))))
                 (IEEE.d_of_Z 7)),
          Sample.scenario_A_worn).
Proof. reflexivity. Qed.

(** With the values Annex F of the C standard gives [exp] on overflow and
    [pow] at negative infinity with an odd exponent, that estimate is
    negative infinity. *)
Lemma current_false_positive_rate_worn_is_negative :
  exp (IEEE.d_div (IEEE.d_of_Z 1494967296) (IEEE.d_of_Z 95851)) = S754_infinity false ->
  pow (S754_infinity true) (IEEE.d_of_Z 7) = S754_infinity true ->
  bloom_filter_current_false_positive_rate exp pow Sample.scenario_A_worn
  = Some (S754_infinity true, Sample.scenario_A_worn).
Proof.
  intros Hexp Hpow.
  rewrite current_false_positive_rate_of_worn, Hexp.
  change (IEEE.d_sub (IEEE.d_of_Z 1) (S754_infinity false)) with (S754_infinity true).
  rewrite Hpow. reflexivity.
Qed.

(** C6. The estimate after 400000000 insertions into the filter of
    scenario A: the numerator [-(7 * 400000000)] does not fit an [int]
    and is stored as [1494967296], so the exponential is taken at a
    positive argument, where the formula of the estimate has the negative
    one. *)
Theorem current_false_positive_rate_wraps :
  false_positive_rate_num (number_hashes Sample.scenario_A_worn)
                          (elements_added Sample.scenario_A_worn) = 1494967296 /\
  - (number_hashes Sample.scenario_A_worn * elements_added Sample.scenario_A_worn)
    = -2800000000 /\
  bloom_filter_current_false_positive_rate exp pow Sample.scenario_A_worn =
    Some (IEEE.float_of_double
            (pow (IEEE.d_sub (IEEE.d_of_Z 1)
                    (exp (IEEE.d_div (IEEE.d_of_Z 1494967296) (IEEE.d_of_Z 95851))))
                 (IEEE.d_of_Z 7)),
          Sample.scenario_A_worn) /\
  IEEE.d_ltb (IEEE.d_of_Z 0)
    (IEEE.d_div (IEEE.d_of_Z 1494967296) (IEEE.d_of_Z 95851)) = true.
Proof.
  split; [reflexivity|]. split; [reflexivity|].
  split; [exact current_false_positive_rate_of_worn|reflexivity].
Qed.

(** C9. Teardown: [bloom_filter_destroy] succeeds, nulls the bit array
    and the hash strategy and zeroes [estimated_elements],
    [false_positive_probability], [number_bits], [number_hashes] and
    [elements_added], but it leaves [bloom_length] at the value it had; a
    second teardown succeeds and changes nothing. *)
Theorem destroy_leaves_bloom_length (bf : BloomFilter) :
  exists bf',
    bloom_filter_destroy bf = Some (BLOOM_SUCCESS, bf') /\
    bloom bf' = None /\ hash_function bf' = None /\
    estimated_elements bf' = 0 /\
    false_positive_probability bf' = S754_zero false /\
    number_bits bf' = 0 /\ number_hashes bf' = 0 /\ elements_added bf' = 0 /\
    bloom_length bf' = bloom_length bf /\
    bloom_filter_destroy bf' = Some (BLOOM_SUCCESS, bf').
Proof.
  eexists. split; [reflexivity|]. repeat split.
Qed.

(** After the teardown of the filter of scenario B, [bloom_length] is
    still 78. *)
Lemma destroy_scenario_B :
  option_map (fun r => bloom_length (snd r)) (bloom_filter_destroy Sample.scenario_B)
  = Some 78.
Proof. reflexivity. Qed.

End Scenarios.

(** ** The scenarios, run on the sample instances *)

Lemma scenario_A_constructed :
  bloom_filter_init Sample.sample_digest Sample.sample_log true 10000 Sample.f_0_01 None
    Sample.blank = Some (BLOOM_SUCCESS, Sample.scenario_A).
Proof. cbv -[md5_hash_default Sample.sample_digest]. reflexivity. Qed.

Lemma scenario_B_constructed :
  bloom_filter_init Sample.sample_digest Sample.sample_log true 100 Sample.f_0_05 None
    Sample.blank = Some (BLOOM_SUCCESS, Sample.scenario_B).
Proof. cbv -[md5_hash_default Sample.sample_digest]. reflexivity. Qed.

Lemma scenario_B_valid : valid_filter Sample.scenario_B.
Proof.
  apply (init_valid_filter Sample.sample_digest Sample.sample_log 100 Sample.f_0_05
           None Sample.blank).
  - unfold CInt.UINT64_MAX. lia.
  - exact scenario_B_constructed.
  - simpl. lia.
  - apply md5_hash_default_contract; simpl; lia.
Qed.

Lemma scenario_B_persistable : persistable Sample.sample_log Sample.scenario_B.
Proof.
  apply (init_persistable Sample.sample_digest Sample.sample_log 100 Sample.f_0_05
           None Sample.blank).
  - unfold CInt.UINT64_MAX. lia.
  - reflexivity.
  - exact scenario_B_constructed.
Qed.

Lemma no_false_negatives_witness :
  valid_filter Sample.scenario_B /\
  In "beta"%string ["alpha"; "beta"; "gamma"]%string /\
  exists bf',
    add_strings ["alpha"; "beta"; "gamma"]%string Sample.scenario_B = Some (tt, bf') /\
    bloom_filter_check_string "beta" bf' = Some (BLOOM_SUCCESS, bf').
Proof.
  split; [exact scenario_B_valid|].
  split; [simpl; auto|].
  apply (no_false_negatives Sample.scenario_B "beta" ["alpha"; "beta"; "gamma"]%string).
  - exact scenario_B_valid.
  - simpl. auto.
Defined.

Lemma add_strings_persistable (log : IEEE.double -> IEEE.double) (strs : list string) :
  forall bf bf', persistable log bf -> add_strings strs bf = Some (tt, bf') ->
                 persistable log bf'.
Proof.
  induction strs as [|s strs IH]; intros bf bf' Hp; cbn [add_strings].
  - unfold ret. now intros [= <-].
  - unfold bind.
    destruct (bloom_filter_add_string s bf) as [[r bf1]|] eqn:E; [|discriminate].
    apply IH. eapply add_string_persistable; eauto.
Qed.

Lemma scenario_B_filled_persistable : persistable Sample.sample_log scenario_B_filled.
Proof.
  unfold scenario_B_filled.
  destruct (add_strings _ Sample.scenario_B) as [[[] bf]|] eqn:E.
  - exact (add_strings_persistable _ _ _ _ scenario_B_persistable E).
  - exact scenario_B_persistable.
Qed.

Lemma export_then_import_round_trip_witness :
  persistable Sample.sample_log scenario_B_filled /\
  writable Sample.empty_disk "filter.blm" = true /\
  exists fs' bf',
    bloom_filter_export "filter.blm" Sample.empty_disk scenario_B_filled
      = Some ((BLOOM_SUCCESS, fs'), scenario_B_filled) /\
    bloom_filter_import Sample.sample_digest Sample.sample_log true "filter.blm" None fs'
      Sample.blank = Some (BLOOM_SUCCESS, bf') /\
    estimated_elements bf' = estimated_elements scenario_B_filled /\
    elements_added bf' = elements_added scenario_B_filled /\
    false_positive_probability bf' = false_positive_probability scenario_B_filled /\
    bloom bf' = bloom scenario_B_filled /\
    (hash_function scenario_B_filled
       = Some (bound_strategy Sample.sample_digest None) ->
     bf' = scenario_B_filled /\
     forall x, bloom_filter_check_string x bf'
               = bloom_filter_check_string x scenario_B_filled).
Proof.
  split; [exact scenario_B_filled_persistable|].
  split; [reflexivity|].
  apply (export_then_import_round_trip Sample.sample_digest Sample.sample_log
           scenario_B_filled Sample.blank Sample.empty_disk "filter.blm" None).
  - exact scenario_B_filled_persistable.
  - reflexivity.
Defined.

Lemma scenario_B_filled_valid : valid_filter scenario_B_filled.
Proof.
  destruct (add_strings_valid ["alpha"; "beta"; "gamma"]%string Sample.scenario_B
              scenario_B_valid) as (bf & Hrun & Hv).
  unfold scenario_B_filled. rewrite Hrun. exact Hv.
Qed.

(** The filled filter of scenario B has its 12 probed bits set, bit 25
    among them, and answers [BLOOM_SUCCESS] for the inserted string alpha. *)
Lemma scenario_B_filled_bits :
  bit_is_set scenario_B_filled 25 = true /\
  option_map count_set_bits (bloom scenario_B_filled) = Some 12%nat.
Proof. split; vm_compute; reflexivity. Qed.

Lemma scenario_B_filled_contains_alpha :
  bloom_filter_check_string "alpha" scenario_B_filled
  = Some (BLOOM_SUCCESS, scenario_B_filled).
Proof.
  destruct (add_string_spec Sample.scenario_B "alpha" scenario_B_valid)
    as (A & A' & hf & hs & _ & _ & _ & Hrun & _).
  pose proof (add_string_valid _ _ _ _ scenario_B_valid Hrun) as Hv1.
  pose proof (contains_just_added _ _ _ _ scenario_B_valid Hrun) as Hy1.
  destruct (contains_after_adds ["beta"; "gamma"]%string "alpha" _ Hv1 Hy1)
    as (bf' & Hrest & Hy').
  assert (Hall : add_strings ["alpha"; "beta"; "gamma"]%string Sample.scenario_B
                 = Some (tt, bf'))
    by (cbn [add_strings]; unfold bind at 1; rewrite Hrun; exact Hrest).
  unfold scenario_B_filled. rewrite Hall. exact Hy'.
Qed.

Lemma set_bits_are_never_cleared_witness :
  valid_filter scenario_B_filled /\
  bit_is_set scenario_B_filled 25 = true /\
  bloom_filter_check_string "alpha" scenario_B_filled
  = Some (BLOOM_SUCCESS, scenario_B_filled) /\
  exists A A' bf',
    bloom scenario_B_filled = Some A /\
    bloom_filter_add_string "delta" scenario_B_filled = Some (BLOOM_SUCCESS, bf') /\
    bloom bf' = Some A' /\
    (forall k, test_bit A k = true -> test_bit A' k = true) /\
    (count_set_bits A <= count_set_bits A')%nat /\
    (forall ops fs st',
        Forall (fun op => replaces_store op = false) ops ->
        run_operations Sample.sample_digest Sample.sample_log Sample.sample_exp
          Sample.sample_pow ops (scenario_B_filled, fs) = Some st' ->
        exists B, bloom (fst st') = Some B /\
                  forall k, test_bit A k = true -> test_bit B k = true) /\
    (forall op fs,
        replaces_store op = false ->
        clears_no_bit Sample.sample_digest Sample.sample_log Sample.sample_exp
          Sample.sample_pow op scenario_B_filled fs) /\
    (forall y strs,
        bloom_filter_check_string y scenario_B_filled
          = Some (BLOOM_SUCCESS, scenario_B_filled) ->
        exists bf'', add_strings strs scenario_B_filled = Some (tt, bf'') /\
                     bloom_filter_check_string y bf'' = Some (BLOOM_SUCCESS, bf'')).
Proof.
  split; [exact scenario_B_filled_valid|].
  split; [exact (proj1 scenario_B_filled_bits)|].
  split; [exact scenario_B_filled_contains_alpha|].
  apply (set_bits_are_never_cleared Sample.sample_digest Sample.sample_log
           Sample.sample_exp Sample.sample_pow scenario_B_filled "delta").
  exact scenario_B_filled_valid.
Defined.

Lemma scenario_B_reconstructed (bf0 : BloomFilter) :
  bloom_filter_init Sample.sample_digest Sample.sample_log true 100 Sample.f_0_05 None bf0
  = Some (BLOOM_SUCCESS, Sample.scenario_B).
Proof. cbv -[md5_hash_default Sample.sample_digest]. reflexivity. Qed.

Lemma scenario_B_reimported (bf0 : BloomFilter) :
  bloom_filter_import Sample.sample_digest Sample.sample_log true "fresh.blm" None
    (Stdio.fclose Sample.empty_disk "fresh.blm"
       (export_record Sample.scenario_B (replicate 78 0))) bf0
  = Some (BLOOM_SUCCESS, Sample.scenario_B).
Proof.
  rewrite (import_spec Sample.sample_digest Sample.sample_log Sample.scenario_B bf0
             (Stdio.fclose Sample.empty_disk "fresh.blm"
                (export_record Sample.scenario_B (replicate 78 0)))
             "fresh.blm" None (replicate 78 0) scenario_B_persistable eq_refl eq_refl).
  - reflexivity.
  - unfold Stdio.fclose. cbn [files]. apply lookup_insert_eq.
Qed.

(** C5, counterexample: without the exception, some operation clears a
    set bit.  Bit 25 of the filled filter of scenario B is set (it is one
    of the probes of the inserted string alpha), and each of the three
    operations that replace the bit store clears it:
    [bloom_filter_destroy] leaves no store, [bloom_filter_init] with the
    same parameters leaves a store of zero bytes, and so does
    [bloom_filter_import] of the export of the freshly constructed
    filter. *)
Lemma store_replacement_clears_set_bits :
  bit_is_set scenario_B_filled 25 = true /\
  ~ clears_no_bit Sample.sample_digest Sample.sample_log Sample.sample_exp Sample.sample_pow
      op_destroy scenario_B_filled Sample.empty_disk /\
  ~ clears_no_bit Sample.sample_digest Sample.sample_log Sample.sample_exp Sample.sample_pow
      (op_init true 100 Sample.f_0_05 None) scenario_B_filled Sample.empty_disk /\
  ~ clears_no_bit Sample.sample_digest Sample.sample_log Sample.sample_exp Sample.sample_pow
      (op_import true "fresh.blm" None) scenario_B_filled
      (Stdio.fclose Sample.empty_disk "fresh.blm"
         (export_record Sample.scenario_B (replicate 78 0))).
Proof.
  pose proof (proj1 scenario_B_filled_bits) as Hset.
  split; [exact Hset|]. split; [|split].
  - intros Hkeep.
    specialize (Hkeep _ 25 eq_refl Hset). discriminate Hkeep.
  - intros Hkeep.
    assert (Hrun : run_operation Sample.sample_digest Sample.sample_log Sample.sample_exp
                     Sample.sample_pow (op_init true 100 Sample.f_0_05 None)
                     (scenario_B_filled, Sample.empty_disk)
                   = Some (Sample.scenario_B, Sample.empty_disk))
      by (cbn [run_operation]; rewrite scenario_B_reconstructed; reflexivity).
    specialize (Hkeep _ 25 Hrun Hset). discriminate Hkeep.
  - intros Hkeep.
    assert (Hrun : run_operation Sample.sample_digest Sample.sample_log Sample.sample_exp
                     Sample.sample_pow (op_import true "fresh.blm" None)
                     (scenario_B_filled,
                      Stdio.fclose Sample.empty_disk "fresh.blm"
                        (export_record Sample.scenario_B (replicate 78 0)))
                   = Some (Sample.scenario_B,
                           Stdio.fclose Sample.empty_disk "fresh.blm"
                             (export_record Sample.scenario_B (replicate 78 0))))
      by (cbn [run_operation]; rewrite scenario_B_reimported; reflexivity).
    specialize (Hkeep _ 25 Hrun Hset). discriminate Hkeep.
Qed.

Lemma check_string_leaves_filter_unchanged_witness :
  valid_filter Sample.scenario_B /\
  exists r,
    bloom_filter_check_string "alpha" Sample.scenario_B = Some (r, Sample.scenario_B) /\
    forall r' bf',
      bloom_filter_check_string "alpha" Sample.scenario_B = Some (r', bf') ->
      bf' = Sample.scenario_B.
Proof.
  split; [exact scenario_B_valid|].
  apply (check_string_leaves_filter_unchanged Sample.scenario_B "alpha").
  exact scenario_B_valid.
Defined.

Lemma export_writes_fixed_layout_witness :
  bloom Sample.scenario_B = Some (replicate 78 0) /\
  Z.of_nat (length (replicate 78 0)) = bloom_length Sample.scenario_B /\
  exists r fs',
    bloom_filter_export "filter.blm" Sample.empty_disk Sample.scenario_B
      = Some ((r, fs'), Sample.scenario_B) /\
    (r = BLOOM_FAILURE <-> writable Sample.empty_disk "filter.blm" = false) /\
    (r = BLOOM_FAILURE -> fs' = Sample.empty_disk) /\
    (r = BLOOM_SUCCESS ->
       files fs' !! "filter.blm"%string =
         Some (Bytes.le_bytes 8 (estimated_elements Sample.scenario_B) ++
               Bytes.le_bytes 8 (elements_added Sample.scenario_B) ++
               Bytes.le_bytes 4 (IEEE.bits_of_float
                                   (false_positive_probability Sample.scenario_B)) ++
               replicate 78 0) /\
       length (Bytes.le_bytes 8 (estimated_elements Sample.scenario_B)) = 8%nat /\
       length (Bytes.le_bytes 8 (elements_added Sample.scenario_B)) = 8%nat /\
       length (Bytes.le_bytes 4 (IEEE.bits_of_float
                                   (false_positive_probability Sample.scenario_B))) = 4%nat /\
       Z.of_nat (length (export_record Sample.scenario_B (replicate 78 0)))
         = 20 + bloom_length Sample.scenario_B /\
       forall other, other <> "filter.blm"%string ->
                     files fs' !! other = files Sample.empty_disk !! other).
Proof.
  split; [reflexivity|]. split; [reflexivity|].
  apply (export_writes_fixed_layout Sample.scenario_B Sample.empty_disk "filter.blm"
           (replicate 78 0)); reflexivity.
Defined.

Lemma md5_hash_default_chained_digests_witness :
  0 <= 4 /\ 0 < 624 /\
  exists indices,
    md5_hash_default Sample.sample_digest 4 624 "alpha" = Some indices /\
    length indices = Z.to_nat 4 /\
    Forall (fun h => 0 <= h < 624) indices /\
    forall i, (i < Z.to_nat 4)%nat ->
      indices !! i =
        Some (Bytes.le_value (take 8 (digest_chain Sample.sample_digest "alpha" i))
              mod 624).
Proof.
  split; [lia|]. split; [lia|].
  apply (md5_hash_default_chained_digests Sample.sample_digest 4 624 "alpha"); lia.
Defined.

Lemma sizing_departs_from_formula_witness :
  Sample.sample_log (IEEE.double_of_float Sample.f_0_01) = Sample.log_0_01 /\
  Sample.sample_log (IEEE.double_of_float Sample.f_0_65) = Sample.log_0_65 /\
  Sample.sample_log (IEEE.d_of_Z 2) = Sample.log_2 /\
  (exists bf,
      bloom_filter_init Sample.sample_digest Sample.sample_log true 5293297 Sample.f_0_01
        None Sample.blank = Some (BLOOM_SUCCESS, bf) /\
      number_bits bf = 50736562 /\ number_hashes bf = 7 /\ bloom_length bf = 6342071) /\
  Formula.spec_number_bits 5293297 (Formula.real_value Sample.f_0_01) = 50736561 /\
  CInt.to_long (2 ^ 64 - 1) = -1 /\
  (exists bf,
      bloom_filter_init Sample.sample_digest Sample.sample_log true (2 ^ 64 - 1) Sample.f_0_65
        None Sample.blank = Some (BLOOM_SUCCESS, bf) /\
      number_bits bf = 0 /\ number_hashes bf = 0 /\ bloom_length bf = 0) /\
  Formula.spec_number_bits (2 ^ 64 - 1) (Formula.real_value Sample.f_0_65)
    = 16539687858965695007 /\
  Formula.spec_number_hashes (2 ^ 64 - 1) 16539687858965695007 = 1.
Proof.
  split; [reflexivity|]. split; [reflexivity|]. split; [reflexivity|].
  apply (sizing_departs_from_formula Sample.sample_digest Sample.sample_log true None
           Sample.blank); reflexivity.
Defined.

(** * Further properties of the code *)

(** ** The bit macros *)

Section BitMacros.

Lemma test_bit_lookup (A : list Z) (j : Z) :
  test_bit A j = match A !! Z.to_nat (j / 8) with
                 | Some b => Z.testbit b (j mod 8)
                 | None => false
                 end.
Proof.
  unfold test_bit, check_bit.
  assert (Hj : 0 <= j mod 8 < 8) by (apply Z.mod_pos_bound; lia).
  destruct (A !! Z.to_nat (j / 8)) as [b|]; [|reflexivity].
  rewrite land_shiftl_1 by lia.
  destruct (Z.testbit b (j mod 8)); [|reflexivity].
  apply negb_true_iff, Z.eqb_neq, Z.pow_nonzero; lia.
Qed.

Lemma same_bit_iff (j k : Z) :
  0 <= j -> 0 <= k ->
  (j =? k) = (Nat.eqb (Z.to_nat (j / 8)) (Z.to_nat (k / 8)) && (j mod 8 =? k mod 8)).
Proof.
  intros Hj Hk.
  pose proof (Z.div_mod j 8 ltac:(lia)) as Hdj.
  pose proof (Z.div_mod k 8 ltac:(lia)) as Hdk.
  pose proof (Z.div_pos j 8 Hj ltac:(lia)) as Hqj.
  pose proof (Z.div_pos k 8 Hk ltac:(lia)) as Hqk.
  destruct (Z.eqb_spec j k) as [->|Hne].
  - rewrite Nat.eqb_refl, Z.eqb_refl. reflexivity.
  - destruct (Nat.eqb_spec (Z.to_nat (j / 8)) (Z.to_nat (k / 8))) as [Hq|Hq];
      [|reflexivity].
    destruct (Z.eqb_spec (j mod 8) (k mod 8)) as [Hr|Hr]; [|reflexivity].
    exfalso. apply Hne. assert (j / 8 = k / 8) by lia. lia.
Qed.

Lemma clear_byte_testbit (b i j : Z) :
  0 <= i < 8 -> 0 <= j < 8 ->
  Z.testbit (Z.land b (Z.lnot (Z.shiftl 1 i)) mod 256) j
  = Z.testbit b j && negb (i =? j).
Proof.
  intros Hi Hj. change 256 with (2 ^ 8).
  rewrite Z.mod_pow2_bits_low by lia.
  rewrite Z.land_spec, Z.lnot_spec, Z.shiftl_1_l, Z.pow2_bits_eqb by lia.
  reflexivity.
Qed.

Lemma test_bit_set_bit (A A' : list Z) (k j : Z) :
  0 <= k -> 0 <= j -> set_bit A k = Some A' ->
  test_bit A' j = test_bit A j || (j =? k).
Proof.
  intros Hk Hj. unfold set_bit.
  destruct (A !! Z.to_nat (k / 8)) as [b|] eqn:E; [|discriminate].
  intros [= <-]. rewrite !test_bit_lookup, (same_bit_iff j k Hj Hk).
  assert (Hkm : 0 <= k mod 8 < 8) by (apply Z.mod_pos_bound; lia).
  assert (Hjm : 0 <= j mod 8 < 8) by (apply Z.mod_pos_bound; lia).
  destruct (Nat.eqb_spec (Z.to_nat (j / 8)) (Z.to_nat (k / 8))) as [Heq|Hne].
  - rewrite Heq, E.
    rewrite list_lookup_insert_eq by (eapply lookup_lt_Some; eauto).
    rewrite set_byte_testbit by lia. cbn [andb].
    f_equal. apply Z.eqb_sym.
  - rewrite list_lookup_insert_ne by congruence. cbn [andb].
    now rewrite orb_false_r.
Qed.

Lemma test_bit_clear_bit (A A' : list Z) (k j : Z) :
  0 <= k -> 0 <= j -> clear_bit A k = Some A' ->
  test_bit A' j = test_bit A j && negb (j =? k).
Proof.
  intros Hk Hj. unfold clear_bit.
  destruct (A !! Z.to_nat (k / 8)) as [b|] eqn:E; [|discriminate].
  intros [= <-]. rewrite !test_bit_lookup, (same_bit_iff j k Hj Hk).
  assert (Hkm : 0 <= k mod 8 < 8) by (apply Z.mod_pos_bound; lia).
  assert (Hjm : 0 <= j mod 8 < 8) by (apply Z.mod_pos_bound; lia).
  destruct (Nat.eqb_spec (Z.to_nat (j / 8)) (Z.to_nat (k / 8))) as [Heq|Hne].
  - rewrite Heq, E.
    rewrite list_lookup_insert_eq by (eapply lookup_lt_Some; eauto).
    rewrite clear_byte_testbit by lia. cbn [andb].
    f_equal. f_equal. apply Z.eqb_sym.
  - rewrite list_lookup_insert_ne by congruence. cbn [andb].
    now rewrite andb_true_r.
Qed.

Lemma set_bit_in_range (A : list Z) (k : Z) :
  0 <= k ->
  (Z.to_nat (k / 8) < length A)%nat <-> k < 8 * Z.of_nat (length A).
Proof.
  intros Hk.
  pose proof (Z.div_mod k 8 ltac:(lia)) as Hd.
  pose proof (Z.mod_pos_bound k 8 ltac:(lia)) as Hm.
  pose proof (Z.div_pos k 8 Hk ltac:(lia)) as Hq.
  split; intros H; lia.
Qed.

Lemma byte_testbit_high (b n : Z) : 0 <= b < 256 -> 8 <= n -> Z.testbit b n = false.
Proof.
  intros Hb Hn. rewrite <- (Z.mod_small b (2 ^ 8)) by (change (2 ^ 8) with 256; lia).
  apply Z.mod_pow2_bits_high. lia.
Qed.

(** Two byte stores of one length with the same bits are the same list. *)
Lemma byte_store_ext (A B : list Z) :
  byte_store A -> byte_store B -> length A = length B ->
  (forall j, 0 <= j -> test_bit A j = test_bit B j) -> A = B.
Proof.
  intros HA HB Hlen Hbits. apply list_eq. intros i.
  destruct (A !! i) as [a|] eqn:Ea.
  - assert (Hi : (i < length B)%nat) by (rewrite <- Hlen; eapply lookup_lt_Some; eauto).
    destruct (lookup_lt_is_Some_2 B i Hi) as [b Eb]. rewrite Eb. f_equal.
    unfold byte_store in HA, HB. rewrite Forall_forall in HA, HB.
    pose proof (HA a (list_elem_of_lookup_2 _ _ _ Ea)) as Hra.
    pose proof (HB b (list_elem_of_lookup_2 _ _ _ Eb)) as Hrb.
    apply Z.bits_inj'. intros n Hn.
    destruct (Z_lt_le_dec n 8) as [Hlt|Hge].
    + specialize (Hbits (8 * Z.of_nat i + n) ltac:(lia)).
      rewrite !test_bit_lookup in Hbits.
      replace ((8 * Z.of_nat i + n) / 8) with (Z.of_nat i) in Hbits
        by (apply Z.div_unique with n; lia).
      replace ((8 * Z.of_nat i + n) mod 8) with n in Hbits
        by (apply Z.mod_unique with (Z.of_nat i); lia).
      rewrite Nat2Z.id, Ea, Eb in Hbits. exact Hbits.
    + rewrite !byte_testbit_high by assumption. reflexivity.
  - symmetry. apply lookup_ge_None. rewrite <- Hlen. apply lookup_ge_None. exact Ea.
Qed.

Lemma set_bit_byte_store (A A' : list Z) (k : Z) :
  byte_store A -> set_bit A k = Some A' -> byte_store A'.
Proof.
  unfold set_bit, byte_store. intros HA.
  destruct (A !! Z.to_nat (k / 8)) as [b|]; [|discriminate].
  intros [= <-]. apply Forall_insert; [exact HA|].
  apply Z.mod_pos_bound. lia.
Qed.

Lemma clear_bit_length (A A' : list Z) (k : Z) :
  clear_bit A k = Some A' -> length A' = length A.
Proof.
  unfold clear_bit. destruct (A !! Z.to_nat (k / 8)); [|discriminate].
  intros [= <-]. apply length_insert.
Qed.

Lemma clear_bit_byte_store (A A' : list Z) (k : Z) :
  byte_store A -> clear_bit A k = Some A' -> byte_store A'.
Proof.
  unfold clear_bit, byte_store. intros HA.
  destruct (A !! Z.to_nat (k / 8)) as [b|]; [|discriminate].
  intros [= <-]. apply Forall_insert; [exact HA|].
  apply Z.mod_pos_bound. lia.
Qed.

(** X1. [set_bit] at a position inside the store sets that bit and no
    other and keeps the length of the store; at a position past the end
    of the store it is undefined. *)
Theorem set_bit_sets_exactly_one_bit (A : list Z) (k : Z) :
  0 <= k ->
  (k < 8 * Z.of_nat (length A) ->
   exists A', set_bit A k = Some A' /\ length A' = length A /\
              forall j, 0 <= j -> test_bit A' j = test_bit A j || (j =? k)) /\
  (8 * Z.of_nat (length A) <= k -> set_bit A k = None).
Proof.
  intros Hk. split.
  - intros Hin. apply (set_bit_in_range A k Hk) in Hin.
    destruct (set_bit_defined A k Hin) as [A' HA'].
    exists A'. split; [exact HA'|]. split; [eapply set_bit_length; eauto|].
    intros j Hj. eapply test_bit_set_bit; eauto.
  - intros Hout. unfold set_bit.
    assert (Hge : (length A <= Z.to_nat (k / 8))%nat).
    { pose proof (set_bit_in_range A k Hk). lia. }
    apply lookup_ge_None in Hge. rewrite Hge. reflexivity.
Qed.

(** X2. On a store of bytes, [clear_bit] undoes [set_bit]: setting a bit
    that was 0 and clearing it again gives back the store, and after
    [clear_bit] the bit tests as 0 while every other bit is as before. *)
Theorem clear_bit_undoes_set_bit (A : list Z) (k : Z) :
  byte_store A -> 0 <= k < 8 * Z.of_nat (length A) ->
  (exists B, clear_bit A k = Some B /\
             forall j, 0 <= j -> test_bit B j = test_bit A j && negb (j =? k)) /\
  (test_bit A k = false ->
   exists A', set_bit A k = Some A' /\ clear_bit A' k = Some A).
Proof.
  intros HA [Hk Hin]. apply (set_bit_in_range A k Hk) in Hin.
  destruct (lookup_lt_is_Some_2 A _ Hin) as [b Hb].
  split.
  - assert (Hc : exists B, clear_bit A k = Some B)
      by (unfold clear_bit; rewrite Hb; eauto).
    destruct Hc as [B HB]. exists B. split; [exact HB|].
    intros j Hj. eapply test_bit_clear_bit; eauto.
  - intros Hclear.
    destruct (set_bit_defined A k Hin) as [A' HA'].
    exists A'. split; [exact HA'|].
    assert (Hin' : (Z.to_nat (k / 8) < length A')%nat)
      by (rewrite (set_bit_length _ _ _ HA'); exact Hin).
    destruct (lookup_lt_is_Some_2 A' _ Hin') as [b' Hb'].
    assert (Hc : exists B, clear_bit A' k = Some B)
      by (unfold clear_bit; rewrite Hb'; eauto).
    destruct Hc as [B HB]. rewrite HB. f_equal.
    apply byte_store_ext.
    + eapply clear_bit_byte_store; [|exact HB]. eapply set_bit_byte_store; eauto.
    + exact HA.
    + rewrite (clear_bit_length _ _ _ HB). eapply set_bit_length; eauto.
    + intros j Hj.
      rewrite (test_bit_clear_bit _ _ _ _ Hk Hj HB),
              (test_bit_set_bit _ _ _ _ Hk Hj HA').
      destruct (Z.eqb_spec j k) as [->|_].
      * rewrite Hclear. reflexivity.
      * now rewrite orb_false_r, andb_true_r.
Qed.

End BitMacros.

(** ** Insertion and query, bit by bit *)

Section Probes.

Lemma existsb_eqb_In (b : Z) (l : list Z) :
  existsb (Z.eqb b) l = true <-> In b l.
Proof.
  rewrite existsb_exists. split.
  - intros (h & Hin & Heq). apply Z.eqb_eq in Heq. now subst.
  - intros Hin. exists b. split; [exact Hin|apply Z.eqb_refl].
Qed.

Lemma In_take_lookup (l : list Z) (n : nat) (h : Z) :
  In h (take n l) <-> exists j, (j < n)%nat /\ l !! j = Some h.
Proof.
  rewrite <- list_elem_of_In, list_elem_of_lookup. split.
  - intros (j & Hj). apply lookup_take_Some in Hj as [Hl Hlt]. eauto.
  - intros (j & Hlt & Hl). exists j. apply lookup_take_Some. auto.
Qed.

(** What a valid filter probes for a string. *)
Lemma valid_filter_probes_spec (bf : BloomFilter) (x : string) :
  valid_filter bf ->
  exists A hf hashes,
    bloom bf = Some A /\ hash_function bf = Some hf /\
    hf (CInt.to_int (number_hashes bf)) (number_bits bf) x = Some hashes /\
    probes bf x = take (Z.to_nat (number_hashes bf)) hashes /\
    length (probes bf x) = Z.to_nat (number_hashes bf) /\
    (forall h, In h (probes bf x) -> 0 <= h < number_bits bf) /\
    probes_ok hashes A 0 (Z.to_nat (number_hashes bf)).
Proof.
  intros Hv.
  destruct (valid_filter_probes bf x Hv) as (A & hf & hashes & HA & Hhf & Hcall & Hp).
  destruct Hv as [_ (hf' & Hhf' & Hc)].
  rewrite Hhf in Hhf'. injection Hhf' as <-.
  destruct (Hc x) as (hashes' & Hcall' & Hlen & Hrange).
  rewrite Hcall in Hcall'. injection Hcall' as <-.
  exists A, hf, hashes.
  assert (Hpr : probes bf x = take (Z.to_nat (number_hashes bf)) hashes)
    by (unfold probes; rewrite Hhf, Hcall; reflexivity).
  repeat split; try assumption.
  - rewrite Hpr, length_take. lia.
  - rewrite Forall_forall in Hrange. apply Hrange.
    rewrite Hpr in H. apply In_take_lookup in H as (j & _ & Hl).
    apply list_elem_of_lookup. eauto.
  - rewrite Forall_forall in Hrange. apply Hrange.
    rewrite Hpr in H. apply In_take_lookup in H as (j & _ & Hl).
    apply list_elem_of_lookup. eauto.
Qed.

Lemma add_string_loop_exact (iters : nat) :
  forall (n : nat) (hashes : list Z) (bf : BloomFilter) (A : list Z),
    bloom bf = Some A ->
    probes_ok hashes A n iters ->
    (forall h, In h (take iters (drop n hashes)) -> 0 <= h) ->
    exists A',
      add_string_loop iters (Z.of_nat n) hashes bf = Some (tt, set_bloom (Some A') bf) /\
      length A' = length A /\
      (byte_store A -> byte_store A') /\
      (forall b, 0 <= b ->
         test_bit A' b = test_bit A b || existsb (Z.eqb b) (take iters (drop n hashes))).
Proof.
  induction iters as [|iters IH]; intros n hashes bf A HA Hp Hpos.
  - exists A. simpl. unfold ret. rewrite set_bloom_same by assumption.
    repeat split; auto. intros b _. now rewrite orb_false_r.
  - destruct (Hp n ltac:(lia)) as (h & Hh & Hin).
    destruct (set_bit_defined A h Hin) as [A1 HA1].
    assert (Hdrop : drop n hashes = h :: drop (S n) hashes)
      by (apply drop_S; exact Hh).
    assert (Hh0 : 0 <= h) by (apply Hpos; rewrite Hdrop; left; reflexivity).
    destruct (IH (S n) hashes (set_bloom (Some A1) bf) A1 eq_refl)
      as (A' & Hrun & Hlen & Hbytes & Hbits).
    { intros j Hj. destruct (Hp j ltac:(lia)) as (h' & Hh' & Hin').
      exists h'. split; [assumption|].
      rewrite (set_bit_length _ _ _ HA1). assumption. }
    { intros h' Hh'. apply Hpos. rewrite Hdrop. right. exact Hh'. }
    exists A'. split; [|split; [|split]].
    + simpl. unfold bind, defined, load, store.
      rewrite Nat2Z.id, Hh, HA, HA1.
      replace (Z.of_nat n + 1) with (Z.of_nat (S n)) by lia.
      rewrite Hrun. reflexivity.
    + rewrite Hlen. eapply set_bit_length; eauto.
    + intros HbA. apply Hbytes. eapply set_bit_byte_store; eauto.
    + intros b Hb. rewrite (Hbits b Hb), (test_bit_set_bit _ _ _ _ Hh0 Hb HA1).
      rewrite Hdrop. cbn [take existsb]. now rewrite orb_assoc.
Qed.

Lemma add_string_exact (bf : BloomFilter) (x : string) :
  valid_filter bf ->
  exists A A',
    bloom bf = Some A /\
    bloom_filter_add_string x bf =
      Some (BLOOM_SUCCESS,
            set_elements_added (CInt.to_uint64 (elements_added bf + 1))
                               (set_bloom (Some A') bf)) /\
    length A' = length A /\
    (byte_store A -> byte_store A') /\
    (forall b, 0 <= b ->
       test_bit A' b = test_bit A b || existsb (Z.eqb b) (probes bf x)).
Proof.
  intros Hv.
  destruct (valid_filter_probes_spec bf x Hv)
    as (A & hf & hashes & HA & Hhf & Hcall & Hpr & _ & Hrange & Hp).
  destruct (add_string_loop_exact _ 0 hashes bf A HA Hp) as (A' & Hrun & Hlen & Hbytes & Hbits).
  { intros h Hh. rewrite drop_0, <- Hpr in Hh. apply Hrange in Hh. lia. }
  exists A, A'. repeat split; try assumption.
  - unfold bloom_filter_add_string, bind, load, defined, store, free, ret.
    rewrite Hhf, Hcall. change 0 with (Z.of_nat 0). rewrite Hrun. reflexivity.
  - intros b Hb. rewrite (Hbits b Hb), drop_0, Hpr. reflexivity.
Qed.

Lemma check_string_probes (bf : BloomFilter) (x : string) (A : list Z) :
  valid_filter bf -> bloom bf = Some A ->
  exists r,
    bloom_filter_check_string x bf = Some (r, bf) /\
    (r = BLOOM_SUCCESS <-> forall h, In h (probes bf x) -> test_bit A h = true).
Proof.
  intros Hv HA.
  destruct (check_string_spec bf x Hv) as (A0 & hf & hashes & r & HA0 & Hhf & Hcall & Hchk & Hr).
  rewrite HA in HA0. injection HA0 as <-.
  assert (Hpr : probes bf x = take (Z.to_nat (number_hashes bf)) hashes)
    by (unfold probes; rewrite Hhf, Hcall; reflexivity).
  exists r. split; [exact Hchk|]. rewrite Hr, Hpr. split.
  - intros Hall h Hin. apply In_take_lookup in Hin as (j & Hj & Hl). eauto.
  - intros Hall j h Hj Hl. apply Hall, In_take_lookup. eauto.
Qed.

(** The counter after [n] insertions. *)
Lemma counter_after (n : nat) (e : Z) :
  0 <= e < 2 ^ 64 ->
  Nat.iter n (fun c => CInt.to_uint64 (c + 1)) e = (e + Z.of_nat n) mod 2 ^ 64.
Proof.
  intros He. induction n as [|n IH].
  - simpl. rewrite Z.add_0_r. symmetry. apply Z.mod_small. exact He.
  - rewrite Nat.iter_succ, IH. unfold CInt.to_uint64, CInt.to_unsigned.
    rewrite Z.add_mod_idemp_l by lia. f_equal. lia.
Qed.

Lemma add_strings_exact (strs : list string) :
  forall (bf : BloomFilter) (A : list Z),
    valid_filter bf -> bloom bf = Some A ->
    exists A',
      add_strings strs bf =
        Some (tt, set_elements_added
                    (Nat.iter (length strs) (fun c => CInt.to_uint64 (c + 1))
                              (elements_added bf))
                    (set_bloom (Some A') bf)) /\
      length A' = length A /\
      (byte_store A -> byte_store A') /\
      (forall b, 0 <= b ->
         test_bit A' b
         = test_bit A b || existsb (fun s => existsb (Z.eqb b) (probes bf s)) strs).
Proof.
  induction strs as [|s strs IH]; intros bf A Hv HA.
  - exists A. split; [|repeat split; auto].
    + simpl. unfold ret. destruct bf; simpl in *; subst; reflexivity.
    + intros b _. simpl. now rewrite orb_false_r.
  - destruct (add_string_exact bf s Hv) as (A0 & A1 & HA0 & Hrun & Hlen1 & Hbytes1 & Hbits1).
    rewrite HA in HA0. injection HA0 as <-.
    pose proof (add_string_valid _ _ _ _ Hv Hrun) as Hv1.
    destruct (IH _ A1 Hv1 eq_refl) as (A' & Hrest & Hlen & Hbytes & Hbits).
    exists A'. split; [|split; [|split]].
    + cbn [add_strings]. unfold bind. rewrite Hrun, Hrest.
      cbn [length]. rewrite Nat.iter_succ_r. reflexivity.
    + congruence.
    + auto.
    + intros b Hb. rewrite (Hbits b Hb), (Hbits1 b Hb).
      cbn [existsb]. rewrite orb_assoc. reflexivity.
Qed.

End Probes.

Section InsertQueryExact.

Lemma existsb_probes_In (bf : BloomFilter) (strs : list string) (b : Z) :
  existsb (fun s => existsb (Z.eqb b) (probes bf s)) strs = true
  <-> exists s, In s strs /\ In b (probes bf s).
Proof.
  rewrite existsb_exists. split; intros (s & Hs & Hb); exists s; split; auto;
    apply existsb_eqb_In; exact Hb.
Qed.

Lemma existsb_same_members (f : string -> bool) (l l' : list string) :
  (forall s, In s l <-> In s l') -> existsb f l = existsb f l'.
Proof.
  intros Hsame. apply eq_true_iff_eq. rewrite !existsb_exists.
  split; intros (s & Hs & Hf); exists s; split; auto; apply Hsame; exact Hs.
Qed.

Lemma forallb_false_witness (f : Z -> bool) (l : list Z) :
  forallb f l = false -> exists h, In h l /\ f h = false.
Proof.
  induction l as [|a l IH]; [discriminate|]. simpl.
  destruct (f a) eqn:E.
  - intros H. destruct (IH H) as (h & Hin & Hh). exists h. auto.
  - intros _. exists a. auto.
Qed.

(** X3. bloom_filter_add_string on a live filter returns BLOOM_SUCCESS and
    sets exactly the bits its hash strategy names for the string (the first
    [number_hashes] entries of the returned array): a bit is set afterwards
    when it was set before or is one of these.  The store keeps its length,
    [elements_added] grows by one modulo 2^64, and no other field changes. *)
Theorem add_string_sets_exactly_the_probed_bits (bf : BloomFilter) (x : string) :
  valid_filter bf ->
  exists A A' bf',
    bloom bf = Some A /\
    bloom_filter_add_string x bf = Some (BLOOM_SUCCESS, bf') /\
    bloom bf' = Some A' /\
    length A' = length A /\
    (forall b, 0 <= b ->
       test_bit A' b = true <-> test_bit A b = true \/ In b (probes bf x)) /\
    elements_added bf' = (elements_added bf + 1) mod 2 ^ 64 /\
    estimated_elements bf' = estimated_elements bf /\
    false_positive_probability bf' = false_positive_probability bf /\
    number_hashes bf' = number_hashes bf /\
    number_bits bf' = number_bits bf /\
    bloom_length bf' = bloom_length bf /\
    hash_function bf' = hash_function bf.
Proof.
  intros Hv.
  destruct (add_string_exact bf x Hv) as (A & A' & HA & Hrun & Hlen & _ & Hbits).
  eexists A, A', _. split; [exact HA|]. split; [exact Hrun|].
  repeat split; try reflexivity; try assumption.
  - rewrite (Hbits b H), orb_true_iff, existsb_eqb_In. tauto.
  - rewrite (Hbits b H), orb_true_iff, existsb_eqb_In. tauto.
Qed.

(** X4. [elements_added] counts calls, not distinct items: after any
    sequence of [n] insertions into a live filter, repeated strings
    included, it holds the old count plus [n], reduced modulo 2^64. *)
Theorem elements_added_counts_insertions (bf : BloomFilter) (strs : list string) :
  valid_filter bf -> 0 <= elements_added bf < 2 ^ 64 ->
  exists bf',
    add_strings strs bf = Some (tt, bf') /\
    elements_added bf' = (elements_added bf + Z.of_nat (length strs)) mod 2 ^ 64.
Proof.
  intros Hv He. destruct (valid_bloom _ Hv) as (A & HA & _).
  destruct (add_strings_exact strs bf A Hv HA) as (A' & Hrun & _).
  eexists. split; [exact Hrun|]. cbn [elements_added set_elements_added].
  apply counter_after. exact He.
Qed.

(** X5. The bit store after a sequence of insertions depends only on which
    strings were inserted, not on their order or on repetitions; two
    sequences with the same members and the same length leave the whole
    filter in the same state. *)
Theorem insertion_order_is_irrelevant
    (bf : BloomFilter) (A : list Z) (strs strs' : list string) :
  valid_filter bf -> bloom bf = Some A -> byte_store A ->
  (forall s, In s strs <-> In s strs') ->
  exists bf1 bf2,
    add_strings strs bf = Some (tt, bf1) /\
    add_strings strs' bf = Some (tt, bf2) /\
    bloom bf1 = bloom bf2 /\
    (length strs = length strs' -> bf1 = bf2).
Proof.
  intros Hv HA Hbytes Hsame.
  destruct (add_strings_exact strs bf A Hv HA) as (A1 & Hrun1 & Hlen1 & Hb1 & Hbits1).
  destruct (add_strings_exact strs' bf A Hv HA) as (A2 & Hrun2 & Hlen2 & Hb2 & Hbits2).
  assert (HA12 : A1 = A2).
  { apply byte_store_ext; auto; [congruence|].
    intros j Hj. rewrite (Hbits1 j Hj), (Hbits2 j Hj). f_equal.
    apply existsb_same_members. exact Hsame. }
  eexists _, _. split; [exact Hrun1|]. split; [exact Hrun2|]. split.
  - cbn [bloom set_elements_added set_bloom]. now rewrite HA12.
  - intros Hlen. rewrite HA12, Hlen. reflexivity.
Qed.

(** X6. bloom_filter_check_string on a live filter answers BLOOM_SUCCESS
    exactly when every bit its hash strategy names for the string is set,
    and BLOOM_FAILURE exactly when one of them is clear. *)
Theorem check_string_tests_the_probed_bits (bf : BloomFilter) (A : list Z) (x : string) :
  valid_filter bf -> bloom bf = Some A ->
  (bloom_filter_check_string x bf = Some (BLOOM_SUCCESS, bf)
   <-> forall h, In h (probes bf x) -> test_bit A h = true) /\
  (bloom_filter_check_string x bf = Some (BLOOM_FAILURE, bf)
   <-> exists h, In h (probes bf x) /\ test_bit A h = false).
Proof.
  intros Hv HA.
  destruct (check_string_probes bf x A Hv HA) as (r & Hrun & Hr).
  rewrite Hrun. split.
  - rewrite <- Hr. split; [intros [= ->]; reflexivity|intros ->; reflexivity].
  - split.
    + intros [= ->].
      destruct (forallb (test_bit A) (probes bf x)) eqn:E.
      * rewrite forallb_forall in E. apply Hr in E. discriminate.
      * apply forallb_false_witness in E as (h & Hin & Hh).
        exists h. split; [exact Hin|]. now destruct (test_bit A h).
    + intros (h & Hin & Hh). destruct r; [|reflexivity].
      destruct Hr as [Hr _]. rewrite (Hr eq_refl h Hin) in Hh. discriminate.
Qed.

(** X7. After a sequence of insertions into a live filter, a query for [y]
    answers BLOOM_SUCCESS exactly when each bit probed for [y] was set
    before the insertions or is probed for one of the inserted strings.
    So a string that was never inserted is reported present as soon as its
    probes are covered by those of other strings (a false positive), and
    only then. *)
Theorem membership_after_insertions
    (bf : BloomFilter) (A : list Z) (strs : list string) :
  valid_filter bf -> bloom bf = Some A ->
  exists bf',
    add_strings strs bf = Some (tt, bf') /\
    forall y,
      bloom_filter_check_string y bf' = Some (BLOOM_SUCCESS, bf')
      <-> forall h, In h (probes bf y) ->
                    test_bit A h = true \/ exists s, In s strs /\ In h (probes bf s).
Proof.
  intros Hv HA.
  destruct (add_strings_exact strs bf A Hv HA) as (A' & Hrun & _ & _ & Hbits).
  eexists. split; [exact Hrun|]. intros y.
  destruct (add_strings_valid strs bf Hv) as (bf'' & Hrun'' & Hv').
  rewrite Hrun in Hrun''. injection Hrun'' as <-.
  destruct (check_string_probes _ y A' Hv' eq_refl) as (r & Hchk & Hr).
  change (probes (set_elements_added
                    (Nat.iter (length strs) (fun c => CInt.to_uint64 (c + 1))
                              (elements_added bf))
                    (set_bloom (Some A') bf)) y)
    with (probes bf y) in Hr.
  destruct (valid_filter_probes_spec bf y Hv) as (_ & _ & _ & _ & _ & _ & _ & _ & Hrange & _).
  rewrite Hchk. split.
  - intros [= ->]. intros h Hin.
    destruct Hr as [Hr _]. specialize (Hr eq_refl h Hin).
    rewrite Hbits in Hr by (apply Hrange in Hin; lia).
    apply orb_true_iff in Hr as [Hr|Hr]; [left; exact Hr|].
    right. apply existsb_probes_In. exact Hr.
  - intros Hall. destruct Hr as [_ Hr]. rewrite Hr; [reflexivity|].
    intros h Hin. rewrite Hbits by (apply Hrange in Hin; lia).
    apply orb_true_iff. destruct (Hall h Hin) as [H|H]; [left; exact H|].
    right. apply existsb_probes_In. exact H.
Qed.

(** A live filter whose bit store is all zero and whose [number_hashes]
    is at least 1 answers BLOOM_FAILURE to every query. *)
Lemma zeroed_filter_rejects (bf : BloomFilter) (x : string) :
  valid_filter bf ->
  bloom bf = Some (replicate (Z.to_nat (bloom_length bf)) 0) ->
  1 <= number_hashes bf ->
  bloom_filter_check_string x bf = Some (BLOOM_FAILURE, bf).
Proof.
  intros Hv HA Hk.
  destruct (check_string_probes bf x _ Hv HA) as (r & Hrun & Hr).
  rewrite Hrun. destruct r; [|reflexivity].
  destruct Hr as [Hr _]. specialize (Hr eq_refl).
  destruct (valid_filter_probes_spec bf x Hv) as (_ & _ & _ & _ & _ & _ & _ & Hlen & _).
  destruct (probes bf x) as [|h l]; [simpl in Hlen; lia|].
  specialize (Hr h (or_introl eq_refl)).
  rewrite test_bit_lookup in Hr.
  destruct (replicate _ 0 !! _) as [b|] eqn:E; [|discriminate].
  apply lookup_replicate in E as [-> _]. rewrite Z.bits_0 in Hr. discriminate.
Qed.

(** X8. With [number_hashes] equal to 0, which nothing in the code
    excludes (calculate_optimal_hashes notes that it should check for at
    least 1), neither loop runs: a query answers BLOOM_SUCCESS for every
    string, and an insertion only counts, leaving the bit store as it is.
    The bit store is not read, so this holds even when [bloom] is NULL. *)
Theorem zero_hashes_filter_contains_everything
    (bf : BloomFilter) (hf : HashFunction) (x : string) (hashes : list Z) :
  number_hashes bf = 0 ->
  hash_function bf = Some hf ->
  hf 0 (number_bits bf) x = Some hashes ->
  bloom_filter_check_string x bf = Some (BLOOM_SUCCESS, bf) /\
  bloom_filter_add_string x bf
  = Some (BLOOM_SUCCESS, set_elements_added (CInt.to_uint64 (elements_added bf + 1)) bf).
Proof.
  intros Hk Hhf Hcall. split.
  - unfold bloom_filter_check_string, bind, load, defined, free, ret.
    rewrite Hhf, Hk. change (CInt.to_int 0) with 0. rewrite Hcall. reflexivity.
  - unfold bloom_filter_add_string, bind, load, defined, store, free, ret.
    rewrite Hhf, Hk. change (CInt.to_int 0) with 0. rewrite Hcall. reflexivity.
Qed.

Lemma filter_orb_length (f g : nat -> bool) (l : list nat) :
  (length (List.filter (fun k => f k || g k) l)
   <= length (List.filter f l) + length (List.filter g l))%nat.
Proof.
  induction l as [|a l IH]; [simpl; lia|].
  cbn [List.filter]. destruct (f a), (g a); cbn [orb length]; lia.
Qed.

Lemma filter_eqb_none (h : Z) (n : nat) :
  forall a, h < Z.of_nat a ->
    List.filter (fun k => Z.of_nat k =? h) (seq a n) = [].
Proof.
  induction n as [|n IH]; intros a Ha; [reflexivity|].
  cbn [seq List.filter]. rewrite (proj2 (Z.eqb_neq _ _)) by lia.
  apply IH. lia.
Qed.

Lemma filter_eqb_length (h : Z) (n : nat) :
  forall a, (length (List.filter (fun k => (Z.of_nat k =? h)%Z) (seq a n)) <= 1)%nat.
Proof.
  induction n as [|n IH]; intros a; [simpl; lia|].
  cbn [seq List.filter]. destruct (Z.eqb_spec (Z.of_nat a) h) as [Heq|Hne].
  - rewrite filter_eqb_none by lia. simpl. lia.
  - apply IH.
Qed.

Lemma filter_existsb_length (f : nat -> bool) (P : list Z) (n : nat) :
  (length (List.filter (fun k => f k || existsb (Z.eqb (Z.of_nat k)) P) (seq 0 n))
   <= length (List.filter f (seq 0 n)) + length P)%nat.
Proof.
  revert f. induction P as [|h P IH]; intros f.
  - rewrite (List.filter_ext _ f); [simpl; lia|].
    intros k. simpl. apply orb_false_r.
  - rewrite (List.filter_ext _ (fun k => (f k || (Z.of_nat k =? h))
                                        || existsb (Z.eqb (Z.of_nat k)) P)).
    + pose proof (IH (fun k => f k || (Z.of_nat k =? h))) as H1.
      pose proof (filter_orb_length f (fun k => Z.of_nat k =? h) (seq 0 n)) as H2.
      pose proof (filter_eqb_length h n 0%nat) as H3.
      cbn [length]. lia.
    + intros k. cbn [existsb]. apply orb_assoc.
Qed.

Lemma existsb_concat (b : Z) (bf : BloomFilter) (strs : list string) :
  existsb (fun s => existsb (Z.eqb b) (probes bf s)) strs
  = existsb (Z.eqb b) (concat (List.map (probes bf) strs)).
Proof.
  induction strs as [|s strs IH]; [reflexivity|].
  cbn [existsb List.map concat]. rewrite existsb_app, IH. reflexivity.
Qed.

Lemma probes_concat_length (bf : BloomFilter) (strs : list string) :
  valid_filter bf ->
  length (concat (List.map (probes bf) strs))
  = (Z.to_nat (number_hashes bf) * length strs)%nat.
Proof.
  intros Hv. induction strs as [|s strs IH]; [simpl; lia|].
  cbn [List.map concat length]. rewrite length_app, IH.
  destruct (valid_filter_probes_spec bf s Hv) as (_ & _ & _ & _ & _ & _ & _ & Hlen & _).
  rewrite Hlen. lia.
Qed.

(** X9. Each insertion sets at most [number_hashes] bits that were clear:
    after [n] insertions into a live filter the number of set bits has
    grown, but by no more than [number_hashes * n]. *)
Theorem insertions_set_few_bits (bf : BloomFilter) (A : list Z) (strs : list string) :
  valid_filter bf -> bloom bf = Some A ->
  exists bf' A',
    add_strings strs bf = Some (tt, bf') /\
    bloom bf' = Some A' /\
    (count_set_bits A <= count_set_bits A')%nat /\
    (count_set_bits A'
     <= count_set_bits A + Z.to_nat (number_hashes bf) * length strs)%nat.
Proof.
  intros Hv HA.
  destruct (add_strings_exact strs bf A Hv HA) as (A' & Hrun & Hlen & _ & Hbits).
  eexists _, A'. split; [exact Hrun|]. split; [reflexivity|]. split.
  - unfold count_set_bits. rewrite Hlen. apply filter_length_mono.
    intros k Hk. rewrite Hbits by lia. rewrite Hk. reflexivity.
  - unfold count_set_bits. rewrite Hlen.
    rewrite (List.filter_ext (fun k => test_bit A' (Z.of_nat k))
               (fun k => test_bit A (Z.of_nat k)
                         || existsb (Z.eqb (Z.of_nat k))
                              (concat (List.map (probes bf) strs)))).
    + rewrite <- (probes_concat_length bf strs Hv). apply filter_existsb_length.
    + intros k. rewrite Hbits by lia. now rewrite existsb_concat.
Qed.

Lemma add_string_loop_outside (iters : nat) :
  forall (n : nat) (hashes : list Z) (bf : BloomFilter) (A : list Z) (j : nat),
    bloom bf = Some A ->
    (n <= j < n + iters)%nat ->
    (length hashes <= j)%nat \/
    (exists h, hashes !! j = Some h /\ 8 * Z.of_nat (length A) <= h) ->
    add_string_loop iters (Z.of_nat n) hashes bf = None.
Proof.
  induction iters as [|iters IH]; intros n hashes bf A j HA Hj Hbad; [lia|].
  cbn [add_string_loop]. unfold bind, defined, load, store. rewrite Nat2Z.id.
  destruct (hashes !! n) as [h0|] eqn:E0; [|reflexivity].
  rewrite HA. destruct (set_bit A h0) as [A1|] eqn:E1; [|reflexivity].
  destruct (decide (j = n)) as [->|Hne].
  - exfalso. destruct Hbad as [Hshort|(h & Hh & Hout)].
    + apply lookup_lt_Some in E0. lia.
    + rewrite E0 in Hh. injection Hh as ->.
      unfold set_bit in E1.
      destruct (A !! Z.to_nat (h / 8)) as [b|] eqn:Eb; [|discriminate].
      apply lookup_lt_Some in Eb.
      apply (set_bit_in_range A h) in Eb; lia.
  - replace (Z.of_nat n + 1) with (Z.of_nat (S n)) by lia.
    apply (IH (S n) hashes _ A1 j); [reflexivity|lia|].
    rewrite (set_bit_length _ _ _ E1). exact Hbad.
Qed.

(** X10. What a hash function owes the filter is needed: when the array it
    returns has fewer than [number_hashes] entries, or one of the first
    [number_hashes] entries is an index past the last bit of the store,
    bloom_filter_add_string reads or writes outside an array, which is
    undefined behaviour; it does not return BLOOM_FAILURE. *)
Theorem add_string_outside_store_is_undefined
    (bf : BloomFilter) (hf : HashFunction) (x : string) (hashes A : list Z) (j : nat) :
  hash_function bf = Some hf ->
  hf (CInt.to_int (number_hashes bf)) (number_bits bf) x = Some hashes ->
  bloom bf = Some A ->
  (j < Z.to_nat (number_hashes bf))%nat ->
  (length hashes <= j)%nat \/
  (exists h, hashes !! j = Some h /\ 8 * Z.of_nat (length A) <= h) ->
  bloom_filter_add_string x bf = None.
Proof.
  intros Hhf Hcall HA Hj Hbad.
  unfold bloom_filter_add_string, bind, load, defined.
  rewrite Hhf, Hcall. change 0 with (Z.of_nat 0).
  rewrite (add_string_loop_outside (Z.to_nat (number_hashes bf)) 0 hashes bf A j HA
             ltac:(lia) Hbad).
  reflexivity.
Qed.

End InsertQueryExact.

(** ** Construction and destruction, in full *)

Section Lifecycle.

Variable MD5 : list Z -> list Z.
Variable log : IEEE.double -> IEEE.double.

(** The test of the two guards of [bloom_filter_init]. *)
Lemma init_guard_cases (granted : bool) (elements : Z) (rate : IEEE.float)
    (hf : option HashFunction) (bf0 : BloomFilter) :
  if (elements <=? 0) || (CInt.UINT64_MAX <? elements)
     || IEEE.d_leb (IEEE.double_of_float rate) (IEEE.d_of_Z 0)
     || IEEE.d_leb (IEEE.d_of_Z 1) (IEEE.double_of_float rate)
  then bloom_filter_init MD5 log granted elements rate hf bf0 = Some (BLOOM_FAILURE, bf0)
  else
    match calculate_optimal_hashes log
            (set_false_positive_probability rate (set_estimated_elements elements bf0)) with
    | Some (_, bf1) =>
        bloom_filter_init MD5 log granted elements rate hf bf0 =
          Some (BLOOM_SUCCESS,
                set_hash_function (Some (bound_strategy MD5 hf))
                  (set_elements_added 0
                     (set_bloom (calloc granted (bloom_length bf1)) bf1)))
    | None => bloom_filter_init MD5 log granted elements rate hf bf0 = None
    end.
Proof.
  destruct ((elements <=? 0) || (CInt.UINT64_MAX <? elements)) eqn:Erange.
  - cbn [orb]. unfold bloom_filter_init. rewrite Erange. reflexivity.
  - apply orb_false_iff in Erange as [H1 H2].
    apply Z.leb_gt in H1. apply Z.ltb_ge in H2.
    pose proof (init_spec MD5 log granted elements rate hf bf0 ltac:(lia)) as Hspec.
    rewrite (proj2 (Z.eqb_neq elements 0)) in Hspec by lia.
    cbn [orb] in *. exact Hspec.
Qed.

(** X11. bloom_filter_init returns BLOOM_FAILURE exactly when one of its
    four comparisons holds ([estimated_elements <= 0], [> UINT64_MAX],
    [false_positive_rate <= 0.0], [>= 1.0]), and then it has written
    nothing: the caller's structure is as it was, whatever it held. *)
Theorem init_failure_writes_nothing (granted : bool) (elements : Z)
    (rate : IEEE.float) (hf : option HashFunction) (bf0 : BloomFilter) :
  ((elements <=? 0) || (CInt.UINT64_MAX <? elements)
   || IEEE.d_leb (IEEE.double_of_float rate) (IEEE.d_of_Z 0)
   || IEEE.d_leb (IEEE.d_of_Z 1) (IEEE.double_of_float rate) = true ->
   bloom_filter_init MD5 log granted elements rate hf bf0 = Some (BLOOM_FAILURE, bf0)) /\
  (forall bf,
      bloom_filter_init MD5 log granted elements rate hf bf0 = Some (BLOOM_FAILURE, bf) ->
              (elements <=? 0) || (CInt.UINT64_MAX <? elements)
              || IEEE.d_leb (IEEE.double_of_float rate) (IEEE.d_of_Z 0)
              || IEEE.d_leb (IEEE.d_of_Z 1) (IEEE.double_of_float rate) = true /\
              bf = bf0).
Proof.
  pose proof (init_guard_cases granted elements rate hf bf0) as Hspec.
  destruct (_ || _ || _ || _).
  - split; [intros _; exact Hspec|].
    intros bf Hrun. rewrite Hspec in Hrun. injection Hrun as <-. auto.
  - split; [discriminate|]. intros bf Hrun.
    destruct (calculate_optimal_hashes log _) as [[[] bf1]|];
      rewrite Hspec in Hrun; discriminate.
Qed.

(** What a successful [bloom_filter_init] leaves, whatever the structure
    held and whatever the allocator answered. *)
Lemma init_result (granted : bool) (elements : Z) (rate : IEEE.float)
    (hf : option HashFunction) (bf0 bf : BloomFilter) :
  bloom_filter_init MD5 log granted elements rate hf bf0 = Some (BLOOM_SUCCESS, bf) ->
  exists k m len,
    0 <= len /\
    forall granted' bf0',
      bloom_filter_init MD5 log granted' elements rate hf bf0' =
        Some (BLOOM_SUCCESS,
              {| estimated_elements := elements;
                 false_positive_probability := rate;
                 number_hashes := k; number_bits := m;
                 bloom := calloc granted' len; bloom_length := len;
                 elements_added := 0;
                 hash_function := Some (bound_strategy MD5 hf) |}).
Proof.
  intros Hrun. pose proof (init_guard_cases granted elements rate hf bf0) as Hspec.
  destruct (_ || _ || _ || _) eqn:Eg; [rewrite Hspec in Hrun; discriminate|].
  destruct (calculate_optimal_hashes log _) as [[[] bf1]|] eqn:Ecalc;
    rewrite Hspec in Hrun; [|discriminate].
  pose proof (calculate_optimal_hashes_bloom_length _ _ _ Ecalc) as Hlen.
  exists (number_hashes bf1), (number_bits bf1), (bloom_length bf1).
  split; [exact Hlen|]. intros granted' bf0'.
  pose proof (init_guard_cases granted' elements rate hf bf0') as Hspec'.
  rewrite Eg in Hspec'.
  rewrite (calculate_optimal_hashes_stable log _ bf1
             (set_false_positive_probability rate (set_estimated_elements elements bf0'))
             Ecalc eq_refl eq_refl) in Hspec'.
  rewrite Hspec'. reflexivity.
Qed.

(** X12. A successful bloom_filter_init assigns every field: the two
    parameters as given, a counter of 0, the hash strategy asked for (the
    MD5 one for a null argument) and, for the bit store, what [calloc]
    returned, untested: [bloom_length] zero bytes when the allocation is
    granted, the null pointer when it is refused.  BLOOM_SUCCESS is
    returned in both cases.  So the resulting filter depends on the
    arguments and on the answer of the allocator only, not on what the
    structure held before, be it uninitialised memory, a destroyed filter
    or a live one. *)
Theorem init_assigns_every_field (granted : bool) (elements : Z) (rate : IEEE.float)
    (hf : option HashFunction) (bf0 bf : BloomFilter) :
  bloom_filter_init MD5 log granted elements rate hf bf0 = Some (BLOOM_SUCCESS, bf) ->
  estimated_elements bf = elements /\
  false_positive_probability bf = rate /\
  elements_added bf = 0 /\
  hash_function bf = Some (bound_strategy MD5 hf) /\
  0 <= bloom_length bf /\
  bloom bf = (if granted then Some (replicate (Z.to_nat (bloom_length bf)) 0)
              else None) /\
  (forall bf0',
     bloom_filter_init MD5 log granted elements rate hf bf0' = Some (BLOOM_SUCCESS, bf)) /\
  (forall granted' bf0', exists bf',
     bloom_filter_init MD5 log granted' elements rate hf bf0' = Some (BLOOM_SUCCESS, bf') /\
     set_bloom None bf' = set_bloom None bf).
Proof.
  intros Hrun.
  destruct (init_result granted elements rate hf bf0 bf Hrun) as (k & m & len & Hlen & Hall).
  rewrite (Hall granted bf0) in Hrun. injection Hrun as <-.
  cbn [estimated_elements false_positive_probability elements_added hash_function
       bloom_length bloom].
  repeat split; try reflexivity; try assumption.
  - unfold calloc. rewrite (proj2 (Z.ltb_ge _ _)) by lia.
    destruct granted; reflexivity.
  - intros bf0'. apply Hall.
  - intros granted' bf0'. eexists. split; [apply Hall|reflexivity].
Qed.

Lemma null_store_undefined (bf : BloomFilter) (x : string) :
  bloom bf = None -> 1 <= number_hashes bf ->
  bloom_filter_add_string x bf = None /\
  bloom_filter_check_string x bf = None.
Proof.
  intros Hnull Hk.
  unfold bloom_filter_add_string, bloom_filter_check_string, bind, load, defined.
  destruct (hash_function bf) as [hf|]; [|split; reflexivity].
  destruct (hf _ _ x) as [hashes|]; [|split; reflexivity].
  destruct (Z.to_nat (number_hashes bf)) as [|n] eqn:En; [lia|].
  cbn [add_string_loop check_string_loop]. unfold bind, load, defined.
  destruct (hashes !! Z.to_nat 0) as [h|]; [|split; reflexivity].
  rewrite Hnull. split; reflexivity.
Qed.

(** X13. bloom_filter_destroy always returns BLOOM_SUCCESS and leaves no
    hash strategy and no bit store, so the filter cannot be used again
    before a new bloom_filter_init: an insertion or a query calls through
    the null [hash_function], and an export to a file that opens passes
    the null [bloom] to [fwrite] with the [bloom_length] that destruction
    left in place.  Each of these is undefined behaviour, not a
    BLOOM_FAILURE. *)
Theorem destroyed_filter_cannot_be_used (bf : BloomFilter) (x filepath : string)
    (fs : FileSystem) :
  exists bf',
    bloom_filter_destroy bf = Some (BLOOM_SUCCESS, bf') /\
    bloom_filter_add_string x bf' = None /\
    bloom_filter_check_string x bf' = None /\
    (writable fs filepath = true -> bloom_length bf <> 0 ->
     bloom_filter_export filepath fs bf' = None) /\
    (writable fs filepath = false ->
     bloom_filter_export filepath fs bf' = Some ((BLOOM_FAILURE, fs), bf')).
Proof.
  eexists. split; [reflexivity|]. split; [reflexivity|]. split; [reflexivity|].
  split.
  - intros Hw Hlen.
    unfold bloom_filter_export, Stdio.fopen_wb, bind, load, defined, ret, object_bytes.
    rewrite Hw. cbn [bloom bloom_length set_hash_function set_number_bits
                     set_number_hashes set_false_positive_probability
                     set_estimated_elements set_elements_added set_bloom].
    rewrite (proj2 (Z.eqb_neq _ _) Hlen). reflexivity.
  - intros Hw. unfold bloom_filter_export, Stdio.fopen_wb. rewrite Hw. reflexivity.
Qed.

End Lifecycle.

(** ** The default hash strategy at the edges *)

Section DefaultAdapterEdges.

Variable MD5 : list Z -> list Z.

(** X14. md5_hash_default is undefined exactly when it is asked for at
    least one index with [num_bits] equal to 0 (the remainder divides by
    zero); asked for no index, or a negative number of them, it returns an
    empty array without hashing anything. *)
Theorem md5_hash_default_defined (count modulus : Z) (item : string) :
  0 <= modulus ->
  (md5_hash_default MD5 count modulus item = None <-> 0 < count /\ modulus = 0) /\
  (count <= 0 -> md5_hash_default MD5 count modulus item = Some []).
Proof.
  intros Hm. split; [split|].
  - intros Hnone.
    destruct (Z.le_gt_cases count 0) as [Hc|Hc].
    + unfold md5_hash_default in Hnone.
      replace (Z.to_nat count) with O in Hnone by lia. discriminate.
    + split; [exact Hc|].
      destruct (Z.eq_dec modulus 0) as [H0|Hne]; [exact H0|].
      destruct (md5_hash_default_indices MD5 count modulus item) as (l & Hl & _);
        [lia|lia|]. congruence.
  - intros [Hc ->]. unfold md5_hash_default.
    destruct (Z.to_nat count) as [|n] eqn:E; [lia|]. reflexivity.
  - intros Hc. unfold md5_hash_default.
    replace (Z.to_nat count) with O by lia. reflexivity.
Qed.

(** X15. The i-th index md5_hash_default returns does not depend on how
    many indices are asked for: the array for a smaller count is a prefix
    of the array for a larger one, modulus and item being the same. *)
Theorem md5_hash_default_prefix (count count' modulus : Z) (item : string) :
  0 <= count <= count' -> 0 < modulus ->
  exists indices indices',
    md5_hash_default MD5 count modulus item = Some indices /\
    md5_hash_default MD5 count' modulus item = Some indices' /\
    indices = take (Z.to_nat count) indices'.
Proof.
  intros Hc Hm.
  destruct (md5_hash_default_indices MD5 count modulus item) as (l & Hl & Hlen & Hi & _);
    [lia|lia|].
  destruct (md5_hash_default_indices MD5 count' modulus item) as (l' & Hl' & Hlen' & Hi' & _);
    [lia|lia|].
  exists l, l'. split; [exact Hl|]. split; [exact Hl'|].
  apply list_eq. intros i. rewrite lookup_take.
  destruct (decide (i < Z.to_nat count)%nat) as [Hlt|Hge].
  - rewrite Hi by exact Hlt. rewrite Hi' by lia. reflexivity.
  - apply lookup_ge_None. lia.
Qed.

End DefaultAdapterEdges.

(** ** Import of files that were not exported as they are *)

Section ImportEdges.

Variable MD5 : list Z -> list Z.
Variable log : IEEE.double -> IEEE.double.

Lemma fread_block_any (len : Z) (data : list Z) :
  0 <= len ->
  fread_block (calloc true len) len data =
    Some (Some (take (Z.to_nat len) data
                ++ replicate (Z.to_nat len - length data) 0)).
Proof.
  intros Hlen. unfold fread_block, calloc.
  rewrite (proj2 (Z.ltb_ge _ _)) by lia. cbn [orb negb].
  destruct (Z.eqb_spec len 0) as [->|Hne]; [reflexivity|].
  rewrite length_replicate, Z2Nat.id by lia.
  rewrite (proj2 (Z.ltb_lt _ _)) by lia. rewrite Z.leb_refl. cbn [andb].
  unfold Stdio.fread. cbn [fst].
  rewrite take_replicate, !drop_replicate, length_take, Nat.sub_diag.
  cbn [replicate]. rewrite app_nil_r. do 4 f_equal. lia.
Qed.

Lemma import_of_header (bf bf0 : BloomFilter) (fs : FileSystem) (filepath : string)
    (hf : option HashFunction) (data : list Z) :
  persistable log bf ->
  writable fs filepath = true ->
  files fs !! filepath = Some (export_header bf ++ data) ->
  bloom_filter_import MD5 log true filepath hf fs bf0 =
    Some (BLOOM_SUCCESS,
          set_hash_function (Some (bound_strategy MD5 hf))
            (set_bloom (Some (take (Z.to_nat (bloom_length bf)) data
                              ++ replicate (Z.to_nat (bloom_length bf) - length data) 0))
               bf)).
Proof.
  intros [Hn Ha Hp Hsized (A0 & HA0 & Hlen)] Hw Hfile.
  unfold bloom_filter_import, Stdio.fopen_rpb. rewrite Hw, Hfile.
  unfold export_header. repeat rewrite <- app_assoc.
  unfold bind at 1, load at 1.
  rewrite fread_full by apply le_bytes_length.
  unfold bind at 1, store at 1, bind at 1, load at 1.
  rewrite fread_full by apply le_bytes_length.
  unfold bind at 1, store at 1, bind at 1, load at 1.
  rewrite fread_full by apply le_bytes_length.
  rewrite !le_value_le_bytes_8 by assumption.
  rewrite le_value_le_bytes_4 by (apply bits_of_float_range; assumption).
  rewrite float_of_bits_of_float by assumption.
  unfold bind at 1, store at 1, bind at 1.
  erewrite (calculate_optimal_hashes_stable log bf bf) by (try exact Hsized; reflexivity).
  unfold bind, load, store, defined. cbn [bloom_length set_bloom_length set_bloom bloom].
  rewrite fread_block_any by lia.
  destruct hf; unfold bloom_filter_set_hash_function, store, ret;
    destruct bf; simpl in *; subst; reflexivity.
Qed.

(** X16. bloom_filter_import does not check what it reads.  Given a file
    that starts with the 20 header bytes of a filter, it returns
    BLOOM_SUCCESS whatever follows: the bit store is the first
    [bloom_length] bytes after the header, a store that is cut short is
    completed with zero bytes (so items inserted before the export may be
    reported absent), and bytes past the store are ignored; in every case
    the store has [bloom_length] bytes.  (The allocation of the store is
    the granted one; a refused one is handed to [fread] as it is.) *)
Theorem import_accepts_any_bit_store (bf bf0 : BloomFilter) (fs : FileSystem)
    (filepath : string) (hf : option HashFunction) (data : list Z) :
  persistable log bf ->
  writable fs filepath = true ->
  files fs !! filepath = Some (export_header bf ++ data) ->
  exists bf',
    bloom_filter_import MD5 log true filepath hf fs bf0 = Some (BLOOM_SUCCESS, bf') /\
    bloom bf' = Some (take (Z.to_nat (bloom_length bf)) data
                      ++ replicate (Z.to_nat (bloom_length bf) - length data) 0) /\
    length (take (Z.to_nat (bloom_length bf)) data
            ++ replicate (Z.to_nat (bloom_length bf) - length data) 0)
    = Z.to_nat (bloom_length bf) /\
    estimated_elements bf' = estimated_elements bf /\
    elements_added bf' = elements_added bf /\
    false_positive_probability bf' = false_positive_probability bf /\
    number_hashes bf' = number_hashes bf /\
    number_bits bf' = number_bits bf /\
    bloom_length bf' = bloom_length bf /\
    hash_function bf' = Some (bound_strategy MD5 hf).
Proof.
  intros Hp Hw Hfile. eexists. split.
  - apply (import_of_header bf bf0 fs filepath hf data Hp Hw Hfile).
  - split; [reflexivity|].
    split; [rewrite length_app, length_take, length_replicate; lia|].
    repeat split.
Qed.

(** X17. bloom_filter_import returns BLOOM_FAILURE only when the file does
    not open in mode r+b (it is missing or cannot be written to), and
    then leaves the structure as it was.  Once the file is open no
    outcome is a failure: an empty or malformed file gives BLOOM_SUCCESS
    or undefined behaviour. *)
Theorem import_fails_only_at_open (granted : bool) (filepath : string)
    (hf : option HashFunction) (fs : FileSystem) (bf0 bf : BloomFilter) (r : status) :
  bloom_filter_import MD5 log granted filepath hf fs bf0 = Some (r, bf) ->
  (r = BLOOM_FAILURE <-> writable fs filepath = false \/ files fs !! filepath = None) /\
  (r = BLOOM_FAILURE -> bf = bf0).
Proof.
  unfold bloom_filter_import, Stdio.fopen_rpb.
  destruct (writable fs filepath) eqn:Hw.
  - destruct (files fs !! filepath) as [fp|] eqn:Hf.
    + intros Hrun. assert (Hr : r = BLOOM_SUCCESS).
      { revert Hrun. unfold bind, load, store, defined, ret.
        destruct (Stdio.fread _ 8 fp) as [b1 fp1].
        destruct (Stdio.fread _ 8 fp1) as [b2 fp2].
        destruct (Stdio.fread _ 4 fp2) as [b3 fp3].
        destruct (calculate_optimal_hashes log _) as [[[] bf1]|]; [|discriminate].
        cbn [bloom set_bloom bloom_length].
        destruct (fread_block _ _ fp3) as [ptr|]; [|discriminate].
        destruct hf; unfold bloom_filter_set_hash_function, store; intros [= <- _];
          reflexivity. }
      subst r. split; [split|]; try discriminate.
      intros [H|H]; discriminate.
    + intros [= <- <-]. split; [split; auto|reflexivity].
  - intros [= <- <-]. split; [split; auto|reflexivity].
Qed.

End ImportEdges.

(** ** The numerator of the rate estimate and the testing function *)

Section RateNumerator.

Lemma to_int_small (z : Z) : - 2 ^ 31 <= z < 2 ^ 31 -> CInt.to_int z = z.
Proof.
  intros Hz. unfold CInt.to_int, CInt.to_signed.
  change (2 ^ (32 - 1)) with (2 ^ 31).
  destruct (Z.lt_ge_cases z 0) as [Hneg|Hpos].
  - replace (z mod 2 ^ 32) with (z + 2 ^ 32).
    + rewrite (proj2 (Z.ltb_ge _ _)) by lia. lia.
    + apply Z.mod_unique with (-1); lia.
  - rewrite Z.mod_small by lia. rewrite (proj2 (Z.ltb_lt _ _)) by lia. reflexivity.
Qed.

Lemma to_int_range (z : Z) : - 2 ^ 31 <= CInt.to_int z < 2 ^ 31.
Proof.
  unfold CInt.to_int, CInt.to_signed. change (2 ^ (32 - 1)) with (2 ^ 31).
  pose proof (Z.mod_pos_bound z (2 ^ 32) ltac:(lia)) as Hm.
  destruct (Z.ltb_spec (z mod 2 ^ 32) (2 ^ 31)); lia.
Qed.

(** X18. The numerator [int num] of bloom_filter_current_false_positive_rate
    holds [- number_hashes * elements_added] reduced to 32 bits in two's
    complement.  It is the mathematical value exactly as long as the
    product of the number of hashes and the number of insertions is at
    most 2^31; beyond that the estimate is computed from another number. *)
Theorem false_positive_rate_num_exact_range (k added : Z) :
  0 <= k < 2 ^ 32 -> 0 <= added < 2 ^ 64 ->
  false_positive_rate_num k added = CInt.to_int (- (k * added)) /\
  (false_positive_rate_num k added = - (k * added) <-> k * added <= 2 ^ 31).
Proof.
  intros Hk Ha.
  assert (Hnum : false_positive_rate_num k added = CInt.to_int (- (k * added))).
  { unfold false_positive_rate_num, CInt.to_int, CInt.to_signed, CInt.to_uint64,
      CInt.to_uint, CInt.to_unsigned.
    assert (Hmod : (((k * -1) mod 2 ^ 32 * added) mod 2 ^ 64) mod 2 ^ 32
                   = (- (k * added)) mod 2 ^ 32).
    { rewrite Z.mod_mod_divide by (exists (2 ^ 32); reflexivity).
      rewrite Z.mul_mod_idemp_l by lia. f_equal. lia. }
    rewrite Hmod. reflexivity. }
  split; [exact Hnum|]. rewrite Hnum.
  assert (0 <= k * added) by (apply Z.mul_nonneg_nonneg; lia).
  split.
  - intros Heq. pose proof (to_int_range (- (k * added))) as Hr. lia.
  - intros Hle. apply to_int_small. lia.
Qed.

End RateNumerator.

Section PrintBits.

Lemma print_bits_char (ch i : Z) :
  0 <= i ->
  (if Z.land ch (Z.shiftl 1 i) =? 0 then "0"%char else "1"%char)
  = (if Z.testbit ch i then "1"%char else "0"%char).
Proof.
  intros Hi.
  assert (Hb : Z.land ch (Z.shiftl 1 i) = Z.b2z (Z.testbit ch i) * 2 ^ i).
  { apply Z.bits_inj'. intros n Hn.
    rewrite Z.land_spec, Z.shiftl_1_l, Z.pow2_bits_eqb by lia.
    destruct (Z.eqb_spec i n) as [->|Hne].
    - destruct (Z.testbit ch n) eqn:E; cbn [Z.b2z].
      + rewrite Z.mul_1_l, Z.pow2_bits_true by lia. reflexivity.
      + rewrite Z.mul_0_l, Z.bits_0. reflexivity.
    - rewrite andb_false_r. destruct (Z.testbit ch i); cbn [Z.b2z].
      + rewrite Z.mul_1_l, Z.pow2_bits_false by lia. reflexivity.
      + rewrite Z.mul_0_l, Z.bits_0. reflexivity. }
  rewrite Hb. pose proof (Z.pow_pos_nonneg 2 i ltac:(lia) Hi).
  destruct (Z.testbit ch i); cbn [Z.b2z].
  - rewrite Z.mul_1_l. destruct (Z.eqb_spec (2 ^ i) 0); [lia|reflexivity].
  - reflexivity.
Qed.

Lemma print_bits_loop_length (n : nat) (i ch : Z) :
  String.length (print_bits_loop n i ch) = n.
Proof. revert i. induction n as [|n IH]; intros i; simpl; [reflexivity|]. now rewrite IH. Qed.

Lemma print_bits_loop_get (n : nat) :
  forall (i ch : Z) (j : nat), 0 <= i -> (j < n)%nat ->
    String.get j (print_bits_loop n i ch)
    = Some (if Z.testbit ch (i + Z.of_nat j) then "1"%char else "0"%char).
Proof.
  induction n as [|n IH]; intros i ch j Hi Hj; [lia|].
  cbn [print_bits_loop]. destruct j as [|j].
  - cbn [String.get]. rewrite print_bits_char by exact Hi.
    now rewrite Z.add_0_r.
  - cbn [String.get]. rewrite IH by lia.
    replace (i + 1 + Z.of_nat j) with (i + Z.of_nat (S j)) by lia. reflexivity.
Qed.

Lemma read_bits_print_bits_loop (n : nat) :
  forall (i ch : Z), 0 <= i ->
    read_bits (print_bits_loop n i ch) = (ch / 2 ^ i) mod 2 ^ Z.of_nat n.
Proof.
  induction n as [|n IH]; intros i ch Hi.
  - simpl. now rewrite Z.mod_1_r.
  - cbn [print_bits_loop read_bits]. rewrite print_bits_char by exact Hi.
    rewrite IH by lia.
    replace (2 ^ Z.of_nat (S n)) with (2 * 2 ^ Z.of_nat n)
      by (rewrite Nat2Z.inj_succ, Z.pow_succ_r by lia; reflexivity).
    rewrite Z.rem_mul_r by lia.
    replace (ch / 2 ^ (i + 1)) with (ch / 2 ^ i / 2)
      by (rewrite Z.pow_add_r, Z.pow_1_r, Z.div_div by lia; reflexivity).
    f_equal.
    pose proof (Z.testbit_spec' ch i Hi) as Hb.
    destruct (Z.testbit ch i); cbn [Z.b2z] in Hb; rewrite <- Hb; reflexivity.
Qed.

(** X19. print_bits writes the eight bits of its argument as the characters
    0 and 1, least significant bit first, followed by a newline: character
    [j] tells bit [j], and the eight characters read back, lowest bit
    first, give the byte (the value of the [char] modulo 256). *)
Theorem print_bits_least_significant_first (ch : Z) :
  exists s,
    print_bits ch = String.append s (String "010"%char EmptyString) /\
    String.length s = 8%nat /\
    (forall j, (j < 8)%nat ->
       String.get j s = Some (if Z.testbit ch (Z.of_nat j) then "1"%char else "0"%char)) /\
    read_bits s = ch mod 256.
Proof.
  exists (print_bits_loop 8 0 ch). split; [reflexivity|].
  split; [apply print_bits_loop_length|]. split.
  - intros j Hj. rewrite print_bits_loop_get by lia. reflexivity.
  - rewrite read_bits_print_bits_loop by lia.
    change (2 ^ 0) with 1. rewrite Z.div_1_r. reflexivity.
Qed.

End PrintBits.

(** ** The bit store that the sizing allocates *)

Section StoreSize.

Variable log : IEEE.double -> IEEE.double.

Lemma digits2_pos_iter_xO (n p : positive) :
  digits2_pos (Pos.iter xO p n) = (digits2_pos p + n)%positive.
Proof.
  induction n as [|n IH] using Pos.peano_ind.
  - simpl. lia.
  - rewrite Pos.iter_succ. cbn [digits2_pos]. rewrite IH. lia.
Qed.

Lemma Zpos_iter_xO (n p : positive) :
  Zpos (Pos.iter xO p n) = Zpos p * 2 ^ Zpos n.
Proof.
  induction n as [|n IH] using Pos.peano_ind.
  - simpl. lia.
  - rewrite Pos.iter_succ, Pos2Z.inj_xO, IH, Pos2Z.inj_succ, Z.pow_succ_r by lia. lia.
Qed.

(** A 53-bit mantissa with an exponent in range is kept as it is. *)
Lemma round_canonical (sx : bool) (mz : positive) (ez : Z) :
  digits2_pos mz = 53%positive -> -1074 <= ez <= 971 ->
  binary_round_aux 53 1024 sx (Zpos mz) ez loc_Exact = S754_finite sx mz ez.
Proof.
  intros Hd He. unfold binary_round_aux, shr_fexp, fexp, emin.
  cbn [Zdigits2 shr_record_of_loc]. rewrite Hd.
  replace (Z.max (53 + ez - 53) (3 - 1024 - 53) - ez) with 0 by lia.
  cbn [shr shr_m shr_r shr_s loc_of_shr_record round_nearest_even Zdigits2
       shr_record_of_loc].
  rewrite Hd.
  replace (Z.max (53 + ez - 53) (3 - 1024 - 53) - ez) with 0 by lia.
  cbn [shr shr_m]. rewrite (proj2 (Z.leb_le _ _)) by lia. reflexivity.
Qed.

(** A 54-bit even mantissa loses its last bit, exactly. *)
Lemma round_even_54 (sx : bool) (mz : positive) (ez : Z) :
  digits2_pos mz = 53%positive -> -1075 <= ez <= 970 ->
  binary_round_aux 53 1024 sx (Zpos mz~0) ez loc_Exact = S754_finite sx mz (ez + 1).
Proof.
  intros Hd He. unfold binary_round_aux, shr_fexp, fexp, emin.
  cbn [Zdigits2 shr_record_of_loc digits2_pos]. rewrite Hd.
  replace (Z.max (Zpos (Pos.succ 53) + ez - 53) (3 - 1024 - 53) - ez) with 1 by lia.
  cbn [shr SpecFloat.iter_pos shr_1 orb shr_m shr_r shr_s loc_of_shr_record round_nearest_even
       Zdigits2 shr_record_of_loc].
  rewrite Hd.
  replace (Z.max (53 + (ez + 1) - 53) (3 - 1024 - 53) - (ez + 1)) with 0 by lia.
  cbn [shr shr_m]. rewrite (proj2 (Z.leb_le _ _)) by lia. reflexivity.
Qed.

(** An integer below 2^53 converts to [double] exactly. *)
Lemma d_of_Z_exact (z : Z) :
  0 < z < 2 ^ 53 ->
  exists mz ez,
    IEEE.d_of_Z z = S754_finite false mz ez /\
    digits2_pos mz = 53%positive /\ -52 <= ez <= 0 /\
    Zpos mz = z * 2 ^ (- ez).
Proof.
  intros Hz. destruct z as [|p|p]; try lia.
  pose proof (digits2_pos_bounds p) as Hb.
  assert (Hd : Zpos (digits2_pos p) <= 53).
  { destruct (Z_le_gt_dec (Zpos (digits2_pos p)) 53) as [H|H]; [exact H|].
    assert (2 ^ 53 <= 2 ^ (Zpos (digits2_pos p) - 1))
      by (apply Z.pow_le_mono_r; lia). lia. }
  unfold IEEE.d_of_Z, IEEE.d_normalize, binary_normalize, binary_round, shl_align,
    fexp, emin.
  replace (Z.max (Zpos (digits2_pos p) + 0 - 53) (3 - 1024 - 53) - 0)
    with (Zpos (digits2_pos p) - 53) by lia.
  destruct (Zpos (digits2_pos p) - 53) as [|q|q] eqn:Eq; try lia.
  - exists p, 0. rewrite round_canonical by lia.
    split; [reflexivity|]. split; [lia|]. split; [lia|]. simpl. lia.
  - exists (Pos.iter xO p q), (Z.max (Zpos (digits2_pos p) + 0 - 53) (3 - 1024 - 53)).
    replace (Z.max (Zpos (digits2_pos p) + 0 - 53) (3 - 1024 - 53)) with (Zneg q) by lia.
    assert (Hdq : digits2_pos (Pos.iter xO p q) = 53%positive)
      by (rewrite digits2_pos_iter_xO; lia).
    rewrite round_canonical by lia.
    split; [reflexivity|]. split; [exact Hdq|]. split; [lia|].
    rewrite Zpos_iter_xO. reflexivity.
Qed.

Lemma d_trunc_d_of_Z (z : Z) :
  0 <= z < 2 ^ 53 -> IEEE.d_trunc (IEEE.d_of_Z z) = Some z.
Proof.
  intros Hz. destruct (Z.eq_dec z 0) as [->|Hne]; [reflexivity|].
  destruct (d_of_Z_exact z ltac:(lia)) as (mz & ez & -> & _ & He & Hm).
  unfold IEEE.d_trunc. cbn [cond_Zopp]. f_equal.
  destruct (Z.leb_spec 0 ez) as [H0|H0].
  - replace ez with 0 in * by lia. simpl in Hm. lia.
  - rewrite Hm. apply Z.div_mul. apply Z.pow_nonzero; lia.
Qed.

Lemma ceil_eighth (z P : Z) : 0 < P -> - ((- (z * P)) / (P * 8)) = (z + 7) / 8.
Proof.
  intros HP.
  replace (- (z * P)) with ((- z) * P) by lia.
  rewrite (Z.mul_comm P 8), Z.div_mul_cancel_r by lia.
  pose proof (Z.div_mod (- z) 8 ltac:(lia)) as Hdm.
  pose proof (Z.mod_pos_bound (- z) 8 ltac:(lia)) as Hr.
  apply Z.div_unique with (7 - (- z) mod 8); lia.
Qed.

(** [ceil(m / (CHAR_LEN * 1.0))], converted to [long], for [m] below 2^53. *)
Lemma bytes_for_bits (m : Z) :
  0 <= m < 2 ^ 53 ->
  IEEE.double_to_long
    (IEEE.d_ceil
       (IEEE.d_div (IEEE.d_of_Z m)
          (IEEE.d_mul (IEEE.d_of_Z CHAR_LEN) (IEEE.d_of_Z 1))))
  = Some ((m + 7) / 8).
Proof.
  intros Hm.
  change (IEEE.d_mul (IEEE.d_of_Z CHAR_LEN) (IEEE.d_of_Z 1))
    with (S754_finite false 4503599627370496 (-49)).
  destruct (Z.eq_dec m 0) as [->|Hne]; [reflexivity|].
  destruct (d_of_Z_exact m ltac:(lia)) as (mz & ez & -> & Hd & He & Hmz).
  assert (Hdiv : IEEE.d_div (S754_finite false mz ez)
                   (S754_finite false 4503599627370496 (-49))
                 = S754_finite false mz (ez - 3)).
  { unfold IEEE.d_div, SFdiv, SFdiv_core_binary, fexp, emin.
    cbn [Zdigits2 xorb]. rewrite Hd.
    change (digits2_pos 4503599627370496) with 53%positive.
    replace (Z.min (Z.max (53 + ez - (53 + -49) - 53) (3 - 1024 - 53)) (ez - -49))
      with (ez - 4) by lia.
    replace (ez - -49 - (ez - 4)) with 53 by lia.
    rewrite Z.shiftl_mul_pow2 by lia.
    replace (Zpos mz * 2 ^ 53) with (Zpos mz~0 * 4503599627370496) by lia.
    pose proof (Z_div_mod (Zpos mz~0 * 4503599627370496) 4503599627370496 ltac:(lia))
      as Hqr.
    destruct (Z.div_eucl _ _) as [q r]. destruct Hqr as [Hq Hr].
    assert (r = 0 /\ q = Zpos mz~0) as [-> ->] by nia.
    change (new_location 4503599627370496 0) with loc_Exact.
    rewrite round_even_54 by lia. f_equal. lia. }
  rewrite Hdiv. unfold IEEE.d_ceil.
  rewrite (proj2 (Z.leb_gt 0 (ez - 3))) by lia. cbn [cond_Zopp].
  assert (Hc : - (- Zpos mz / 2 ^ (- (ez - 3))) = (m + 7) / 8).
  { rewrite Hmz. replace (- (ez - 3)) with (- ez + 3) by lia.
    rewrite Z.pow_add_r by lia. change (2 ^ 3) with 8.
    apply ceil_eighth. apply Z.pow_pos_nonneg; lia. }
  rewrite Hc.
  assert (Hrange : 0 < (m + 7) / 8 < 2 ^ 53).
  { pose proof (Z.div_mod (m + 7) 8 ltac:(lia)).
    pose proof (Z.mod_pos_bound (m + 7) 8 ltac:(lia)). lia. }
  unfold IEEE.double_to_long, IEEE.d_to_integer.
  change (IEEE.d_normalize ((m + 7) / 8) 0 false) with (IEEE.d_of_Z ((m + 7) / 8)).
  rewrite d_trunc_d_of_Z by lia.
  rewrite (proj2 (Z.leb_le _ _)) by lia. rewrite (proj2 (Z.leb_le _ _)) by lia.
  reflexivity.
Qed.

Lemma d_to_integer_range (lo hi : Z) (x : IEEE.double) (z : Z) :
  IEEE.d_to_integer lo hi x = Some z -> lo <= z <= hi.
Proof.
  unfold IEEE.d_to_integer. destruct (IEEE.d_trunc x) as [t|]; [|discriminate].
  destruct (Z.leb_spec lo t); [|discriminate].
  destruct (Z.leb_spec t hi); [|discriminate].
  intros [= <-]. lia.
Qed.

Lemma calculate_optimal_hashes_sized (bf bf' : BloomFilter) :
  calculate_optimal_hashes log bf = Some (tt, bf') ->
  0 <= number_hashes bf' < 2 ^ 32 /\
  0 <= number_bits bf' < 2 ^ 64 /\
  0 <= bloom_length bf' < 2 ^ 63 /\
  (number_bits bf' < 2 ^ 53 ->
   bloom_length bf' = (number_bits bf' + 7) / 8 /\
   number_bits bf' <= 8 * bloom_length bf' < number_bits bf' + 8).
Proof.
  intros Hrun.
  pose proof (calculate_optimal_hashes_bloom_length _ _ _ Hrun) as Hlen0.
  revert Hrun. unfold calculate_optimal_hashes, bind, load, defined, store.
  destruct (CInt.long_neg _) as [minus_n|]; [|discriminate].
  destruct (IEEE.double_to_uint64 _) as [m|] eqn:Em; [|discriminate].
  destruct (IEEE.double_to_uint _) as [k|] eqn:Ek; [|discriminate].
  destruct (IEEE.double_to_long _) as [num_pos|] eqn:El; [|discriminate].
  intros [= <-].
  cbn [number_hashes number_bits bloom_length set_bloom_length set_number_bits
       set_number_hashes] in *.
  apply d_to_integer_range in Em, Ek. pose proof (d_to_integer_range _ _ _ _ El) as Hl.
  split; [lia|]. split; [lia|]. split; [lia|].
  intros Hm. rewrite bytes_for_bits in El by lia. injection El as <-.
  split; [reflexivity|].
  pose proof (Z.div_mod (m + 7) 8 ltac:(lia)).
  pose proof (Z.mod_pos_bound (m + 7) 8 ltac:(lia)). lia.
Qed.


(** X20. calculate_optimal_hashes writes [number_hashes], [number_bits] and
    [bloom_length] and nothing else, and what it writes depends on the two
    parameters only.  The values fit their C types, and for fewer than
    2^53 bits the byte count is the number of bits divided by 8 and
    rounded up, so the store that bloom_filter_init and
    bloom_filter_import ask for has a byte for every bit index below
    [number_bits]. *)
Theorem calculate_optimal_hashes_store_covers_bits (bf bf' : BloomFilter) :
  calculate_optimal_hashes log bf = Some (tt, bf') ->
  bf' = set_bloom_length (bloom_length bf')
          (set_number_bits (number_bits bf')
             (set_number_hashes (number_hashes bf') bf)) /\
  (forall bf2,
     estimated_elements bf2 = estimated_elements bf ->
     false_positive_probability bf2 = false_positive_probability bf ->
     calculate_optimal_hashes log bf2 =
       Some (tt, set_bloom_length (bloom_length bf')
                   (set_number_bits (number_bits bf')
                      (set_number_hashes (number_hashes bf') bf2)))) /\
  0 <= number_hashes bf' < 2 ^ 32 /\
  0 <= number_bits bf' < 2 ^ 64 /\
  0 <= bloom_length bf' < 2 ^ 63 /\
  (number_bits bf' < 2 ^ 53 ->
   bloom_length bf' = (number_bits bf' + 7) / 8 /\
   number_bits bf' <= 8 * bloom_length bf' < number_bits bf' + 8).
Proof.
  intros Hrun. split; [exact (calculate_optimal_hashes_frame log bf bf' Hrun)|].
  split; [intros bf2 Hn Hp; exact (calculate_optimal_hashes_stable log bf bf' bf2 Hrun Hn Hp)|].
  exact (calculate_optimal_hashes_sized bf bf' Hrun).
Qed.

End StoreSize.

(** ** A freshly constructed filter *)

Section FreshFilter.

Variable MD5 : list Z -> list Z.
Variable log : IEEE.double -> IEEE.double.

(** X21. A filter that bloom_filter_init has just constructed with the
    default hash strategy and a bit store that [calloc] granted, for a
    positive number of bits below 2^53 and a number of hashes that fits
    an [int], is live: its store has a byte for every index the strategy
    can return, so insertions and queries are defined and answer.  It is
    empty as well: with at least one hash, every query answers
    BLOOM_FAILURE. *)
Theorem fresh_filter_is_live_and_empty (elements : Z) (rate : IEEE.float)
    (bf0 bf : BloomFilter) :
  bloom_filter_init MD5 log true elements rate None bf0 = Some (BLOOM_SUCCESS, bf) ->
  0 < number_bits bf < 2 ^ 53 ->
  number_hashes bf < 2 ^ 31 ->
  valid_filter bf /\
  (forall x, exists r bf',
     bloom_filter_add_string x bf = Some (BLOOM_SUCCESS, bf') /\
     bloom_filter_check_string x bf = Some (r, bf)) /\
  (1 <= number_hashes bf ->
   forall x, bloom_filter_check_string x bf = Some (BLOOM_FAILURE, bf)).
Proof.
  intros Hinit Hm Hk.
  pose proof (init_guard_cases MD5 log true elements rate None bf0) as Hspec.
  destruct ((elements <=? 0) || (CInt.UINT64_MAX <? elements)) eqn:Erange;
    [cbn [orb] in Hspec; rewrite Hspec in Hinit; discriminate|].
  apply orb_false_iff in Erange as [H1 H2].
  apply Z.leb_gt in H1. apply Z.ltb_ge in H2. clear Hspec.
  assert (Hsized : number_bits bf <= 8 * bloom_length bf /\ 0 <= number_hashes bf /\
                   bloom bf = Some (replicate (Z.to_nat (bloom_length bf)) 0)).
  { pose proof (init_spec MD5 log true elements rate None bf0 ltac:(lia)) as Hspec.
    destruct (_ || _ || _); [rewrite Hspec in Hinit; discriminate|].
    destruct (calculate_optimal_hashes log _) as [[[] bf1]|] eqn:Ecalc;
      rewrite Hspec in Hinit; [|discriminate].
    injection Hinit as <-.
    cbn [number_bits bloom_length number_hashes bloom set_hash_function
         set_elements_added set_bloom] in *.
    destruct (calculate_optimal_hashes_sized log _ _ Ecalc) as (Hkr & _ & Hlr & Hcov).
    split; [apply Hcov; lia|]. split; [lia|].
    unfold calloc. rewrite (proj2 (Z.ltb_ge _ _)) by lia. reflexivity. }
  destruct Hsized as (Hcov & Hk0 & Hzero).
  assert (Hv : valid_filter bf).
  { apply (init_valid_filter MD5 log elements rate None bf0 bf ltac:(lia) Hinit Hcov).
    cbn [bound_strategy]. apply md5_hash_default_contract; lia. }
  split; [exact Hv|]. split.
  - intros x.
    destruct (add_string_exact bf x Hv) as (A & A' & _ & Hadd & _).
    destruct (valid_bloom _ Hv) as (A0 & HA0 & _).
    destruct (check_string_probes bf x A0 Hv HA0) as (r & Hchk & _).
    eexists r, _. split; [exact Hadd|exact Hchk].
  - intros Hk1 x. apply zeroed_filter_rejects; assumption.
Qed.

(** X22. When [calloc] refuses the bit store, bloom_filter_init still
    returns BLOOM_SUCCESS, with a null [bloom]; with at least one hash,
    every insertion and every query on that filter then reaches through
    the null pointer, which is undefined behaviour. *)
Theorem refused_store_is_not_reported (elements : Z) (rate : IEEE.float)
    (hf : option HashFunction) (bf0 bf : BloomFilter) :
  bloom_filter_init MD5 log true elements rate hf bf0 = Some (BLOOM_SUCCESS, bf) ->
  exists bf',
    bloom_filter_init MD5 log false elements rate hf bf0 = Some (BLOOM_SUCCESS, bf') /\
    bf' = set_bloom None bf /\
    (1 <= number_hashes bf ->
     forall x, bloom_filter_add_string x bf' = None /\
               bloom_filter_check_string x bf' = None).
Proof.
  intros Hrun.
  destruct (init_result MD5 log true elements rate hf bf0 bf Hrun)
    as (k & m & len & Hlen & Hall).
  rewrite (Hall true bf0) in Hrun. injection Hrun as <-.
  eexists. split; [apply Hall|]. split.
  - unfold calloc. rewrite (proj2 (Z.ltb_ge _ _)) by lia. reflexivity.
  - intros Hk x. apply null_store_undefined; [|exact Hk].
    unfold calloc. rewrite (proj2 (Z.ltb_ge _ _)) by lia. reflexivity.
Qed.

End FreshFilter.

(** ** The further properties on the scenarios *)

Lemma set_bit_sets_exactly_one_bit_witness :
  0 <= 10 /\
  (10 < 8 * Z.of_nat (length [0; 0]) ->
   exists A', set_bit [0; 0] 10 = Some A' /\ length A' = length [0; 0] /\
              forall j, 0 <= j -> test_bit A' j = test_bit [0; 0] j || (j =? 10)) /\
  (8 * Z.of_nat (length [0; 0]) <= 10 -> set_bit [0; 0] 10 = None).
Proof.
  split; [lia|]. apply (set_bit_sets_exactly_one_bit [0; 0] 10). lia.
Defined.

Lemma clear_bit_undoes_set_bit_witness :
  byte_store [0; 4] /\ 0 <= 3 < 8 * Z.of_nat (length [0; 4]) /\
  (exists B, clear_bit [0; 4] 3 = Some B /\
             forall j, 0 <= j -> test_bit B j = test_bit [0; 4] j && negb (j =? 3)) /\
  (test_bit [0; 4] 3 = false ->
   exists A', set_bit [0; 4] 3 = Some A' /\ clear_bit A' 3 = Some [0; 4]).
Proof.
  assert (Hb : byte_store [0; 4]) by (unfold byte_store; repeat constructor; lia).
  split; [exact Hb|]. split; [simpl; lia|].
  apply (clear_bit_undoes_set_bit [0; 4] 3); [exact Hb|simpl; lia].
Defined.

Lemma add_string_sets_exactly_the_probed_bits_witness :
  valid_filter Sample.scenario_B /\
  exists A A' bf',
    bloom Sample.scenario_B = Some A /\
    bloom_filter_add_string "alpha" Sample.scenario_B = Some (BLOOM_SUCCESS, bf') /\
    bloom bf' = Some A' /\
    length A' = length A /\
    (forall b, 0 <= b ->
       test_bit A' b = true <->
       test_bit A b = true \/ In b (probes Sample.scenario_B "alpha")) /\
    elements_added bf' = (elements_added Sample.scenario_B + 1) mod 2 ^ 64 /\
    estimated_elements bf' = estimated_elements Sample.scenario_B /\
    false_positive_probability bf' = false_positive_probability Sample.scenario_B /\
    number_hashes bf' = number_hashes Sample.scenario_B /\
    number_bits bf' = number_bits Sample.scenario_B /\
    bloom_length bf' = bloom_length Sample.scenario_B /\
    hash_function bf' = hash_function Sample.scenario_B.
Proof.
  split; [exact scenario_B_valid|].
  apply (add_string_sets_exactly_the_probed_bits Sample.scenario_B "alpha").
  exact scenario_B_valid.
Defined.

Lemma elements_added_counts_insertions_witness :
  valid_filter Sample.scenario_B /\
  0 <= elements_added Sample.scenario_B < 2 ^ 64 /\
  exists bf',
    add_strings ["alpha"; "alpha"; "beta"]%string Sample.scenario_B = Some (tt, bf') /\
    elements_added bf'
    = (elements_added Sample.scenario_B
       + Z.of_nat (length ["alpha"; "alpha"; "beta"]%string)) mod 2 ^ 64.
Proof.
  split; [exact scenario_B_valid|]. split; [simpl; lia|].
  apply (elements_added_counts_insertions Sample.scenario_B
           ["alpha"; "alpha"; "beta"]%string).
  - exact scenario_B_valid.
  - simpl. lia.
Defined.

Lemma insertion_order_is_irrelevant_witness :
  valid_filter Sample.scenario_B /\
  bloom Sample.scenario_B = Some (replicate 78 0) /\
  byte_store (replicate 78 0) /\
  (forall s, In s ["alpha"; "beta"]%string <-> In s ["beta"; "alpha"; "beta"]%string) /\
  exists bf1 bf2,
    add_strings ["alpha"; "beta"]%string Sample.scenario_B = Some (tt, bf1) /\
    add_strings ["beta"; "alpha"; "beta"]%string Sample.scenario_B = Some (tt, bf2) /\
    bloom bf1 = bloom bf2 /\
    (length ["alpha"; "beta"]%string = length ["beta"; "alpha"; "beta"]%string ->
     bf1 = bf2).
Proof.
  assert (Hb : byte_store (replicate 78 0))
    by (unfold byte_store; apply Forall_replicate; lia).
  assert (Hs : forall s, In s ["alpha"; "beta"]%string
                         <-> In s ["beta"; "alpha"; "beta"]%string)
    by (intros s; simpl; tauto).
  split; [exact scenario_B_valid|]. split; [reflexivity|].
  split; [exact Hb|]. split; [exact Hs|].
  apply (insertion_order_is_irrelevant Sample.scenario_B (replicate 78 0)
           ["alpha"; "beta"]%string ["beta"; "alpha"; "beta"]%string).
  - exact scenario_B_valid.
  - reflexivity.
  - exact Hb.
  - exact Hs.
Defined.

Lemma check_string_tests_the_probed_bits_witness :
  valid_filter Sample.scenario_B /\
  bloom Sample.scenario_B = Some (replicate 78 0) /\
  (bloom_filter_check_string "alpha" Sample.scenario_B
   = Some (BLOOM_SUCCESS, Sample.scenario_B)
   <-> forall h, In h (probes Sample.scenario_B "alpha") ->
                 test_bit (replicate 78 0) h = true) /\
  (bloom_filter_check_string "alpha" Sample.scenario_B
   = Some (BLOOM_FAILURE, Sample.scenario_B)
   <-> exists h, In h (probes Sample.scenario_B "alpha") /\
                 test_bit (replicate 78 0) h = false).
Proof.
  split; [exact scenario_B_valid|]. split; [reflexivity|].
  apply (check_string_tests_the_probed_bits Sample.scenario_B (replicate 78 0) "alpha").
  - exact scenario_B_valid.
  - reflexivity.
Defined.

Lemma membership_after_insertions_witness :
  valid_filter Sample.scenario_B /\
  bloom Sample.scenario_B = Some (replicate 78 0) /\
  exists bf',
    add_strings ["alpha"; "beta"]%string Sample.scenario_B = Some (tt, bf') /\
    forall y,
      bloom_filter_check_string y bf' = Some (BLOOM_SUCCESS, bf')
      <-> forall h, In h (probes Sample.scenario_B y) ->
                    test_bit (replicate 78 0) h = true \/
                    exists s, In s ["alpha"; "beta"]%string /\
                              In h (probes Sample.scenario_B s).
Proof.
  split; [exact scenario_B_valid|]. split; [reflexivity|].
  apply (membership_after_insertions Sample.scenario_B (replicate 78 0)
           ["alpha"; "beta"]%string).
  - exact scenario_B_valid.
  - reflexivity.
Defined.

Lemma zero_hashes_filter_contains_everything_witness :
  number_hashes (set_number_hashes 0 Sample.scenario_B) = 0 /\
  hash_function (set_number_hashes 0 Sample.scenario_B)
  = Some (md5_hash_default Sample.sample_digest) /\
  md5_hash_default Sample.sample_digest 0
    (number_bits (set_number_hashes 0 Sample.scenario_B)) "alpha" = Some [] /\
  bloom_filter_check_string "alpha" (set_number_hashes 0 Sample.scenario_B)
  = Some (BLOOM_SUCCESS, set_number_hashes 0 Sample.scenario_B) /\
  bloom_filter_add_string "alpha" (set_number_hashes 0 Sample.scenario_B)
  = Some (BLOOM_SUCCESS,
          set_elements_added
            (CInt.to_uint64 (elements_added (set_number_hashes 0 Sample.scenario_B) + 1))
            (set_number_hashes 0 Sample.scenario_B)).
Proof.
  split; [reflexivity|]. split; [reflexivity|]. split; [reflexivity|].
  apply (zero_hashes_filter_contains_everything (set_number_hashes 0 Sample.scenario_B)
           (md5_hash_default Sample.sample_digest) "alpha" []); reflexivity.
Defined.

Lemma insertions_set_few_bits_witness :
  valid_filter Sample.scenario_B /\
  bloom Sample.scenario_B = Some (replicate 78 0) /\
  exists bf' A',
    add_strings ["alpha"; "beta"]%string Sample.scenario_B = Some (tt, bf') /\
    bloom bf' = Some A' /\
    (count_set_bits (replicate 78 0%Z) <= count_set_bits A')%nat /\
    (count_set_bits A'
     <= count_set_bits (replicate 78 0%Z)
        + Z.to_nat (number_hashes Sample.scenario_B)
          * length ["alpha"; "beta"]%string)%nat.
Proof.
  split; [exact scenario_B_valid|]. split; [reflexivity|].
  apply (insertions_set_few_bits Sample.scenario_B (replicate 78 0)
           ["alpha"; "beta"]%string).
  - exact scenario_B_valid.
  - reflexivity.
Defined.

Lemma add_string_outside_store_is_undefined_witness :
  hash_function (set_hash_function (Some (fun _ _ _ => Some [700; 1; 2; 3]))
                   Sample.scenario_B)
  = Some (fun _ _ _ => Some [700; 1; 2; 3]) /\
  (fun (_ _ : Z) (_ : string) => Some [700; 1; 2; 3])
    (CInt.to_int (number_hashes Sample.scenario_B)) (number_bits Sample.scenario_B)
    "alpha"%string = Some [700; 1; 2; 3] /\
  bloom Sample.scenario_B = Some (replicate 78 0) /\
  (0 < Z.to_nat (number_hashes Sample.scenario_B))%nat /\
  ((length [700; 1; 2; 3] <= 0)%nat \/
   (exists h, [700; 1; 2; 3] !! 0%nat = Some h /\
              8 * Z.of_nat (length (replicate 78 0)) <= h)) /\
  bloom_filter_add_string "alpha"
    (set_hash_function (Some (fun _ _ _ => Some [700; 1; 2; 3])) Sample.scenario_B)
  = None.
Proof.
  assert (Hbad : (length [700; 1; 2; 3] <= 0)%nat \/
                 (exists h, [700; 1; 2; 3] !! 0%nat = Some h /\
                            8 * Z.of_nat (length (replicate 78 0)) <= h))
    by (right; exists 700; split; [reflexivity|simpl; lia]).
  split; [reflexivity|]. split; [reflexivity|]. split; [reflexivity|].
  split; [simpl; lia|]. split; [exact Hbad|].
  apply (add_string_outside_store_is_undefined
           (set_hash_function (Some (fun _ _ _ => Some [700; 1; 2; 3])) Sample.scenario_B)
           (fun _ _ _ => Some [700; 1; 2; 3]) "alpha" [700; 1; 2; 3] (replicate 78 0) 0).
  - reflexivity.
  - reflexivity.
  - reflexivity.
  - simpl. lia.
  - exact Hbad.
Defined.

Lemma init_assigns_every_field_witness :
  bloom_filter_init Sample.sample_digest Sample.sample_log true 100 Sample.f_0_05 None
    Sample.blank = Some (BLOOM_SUCCESS, Sample.scenario_B) /\
  estimated_elements Sample.scenario_B = 100 /\
  false_positive_probability Sample.scenario_B = Sample.f_0_05 /\
  elements_added Sample.scenario_B = 0 /\
  hash_function Sample.scenario_B = Some (bound_strategy Sample.sample_digest None) /\
  0 <= bloom_length Sample.scenario_B /\
  bloom Sample.scenario_B
  = (if true then Some (replicate (Z.to_nat (bloom_length Sample.scenario_B)) 0)
     else None) /\
  (forall bf0',
     bloom_filter_init Sample.sample_digest Sample.sample_log true 100 Sample.f_0_05
       None bf0' = Some (BLOOM_SUCCESS, Sample.scenario_B)) /\
  (forall granted' bf0', exists bf',
     bloom_filter_init Sample.sample_digest Sample.sample_log granted' 100 Sample.f_0_05
       None bf0' = Some (BLOOM_SUCCESS, bf') /\
     set_bloom None bf' = set_bloom None Sample.scenario_B).
Proof.
  split; [exact scenario_B_constructed|].
  apply (init_assigns_every_field Sample.sample_digest Sample.sample_log true 100
           Sample.f_0_05 None Sample.blank Sample.scenario_B).
  exact scenario_B_constructed.
Defined.

Lemma md5_hash_default_defined_witness :
  0 <= 0 /\
  (md5_hash_default Sample.sample_digest 4 0 "alpha" = None <-> 0 < 4 /\ 0 = 0) /\
  (4 <= 0 -> md5_hash_default Sample.sample_digest 4 0 "alpha" = Some []).
Proof.
  split; [lia|].
  apply (md5_hash_default_defined Sample.sample_digest 4 0 "alpha"). lia.
Defined.

Lemma md5_hash_default_prefix_witness :
  0 <= 2 <= 4 /\ 0 < 624 /\
  exists indices indices',
    md5_hash_default Sample.sample_digest 2 624 "alpha" = Some indices /\
    md5_hash_default Sample.sample_digest 4 624 "alpha" = Some indices' /\
    indices = take (Z.to_nat 2) indices'.
Proof.
  split; [lia|]. split; [lia|].
  apply (md5_hash_default_prefix Sample.sample_digest 2 4 624 "alpha"); lia.
Defined.

Lemma import_accepts_any_bit_store_witness :
  persistable Sample.sample_log Sample.scenario_B /\
  writable (Stdio.fclose Sample.empty_disk "cut.blm"
              (export_header Sample.scenario_B ++ [255; 1])) "cut.blm" = true /\
  files (Stdio.fclose Sample.empty_disk "cut.blm"
           (export_header Sample.scenario_B ++ [255; 1])) !! "cut.blm"%string
  = Some (export_header Sample.scenario_B ++ [255; 1]) /\
  exists bf',
    bloom_filter_import Sample.sample_digest Sample.sample_log true "cut.blm" None
      (Stdio.fclose Sample.empty_disk "cut.blm"
         (export_header Sample.scenario_B ++ [255; 1]))
      Sample.blank = Some (BLOOM_SUCCESS, bf') /\
    bloom bf' = Some (take (Z.to_nat (bloom_length Sample.scenario_B)) [255; 1]
                      ++ replicate (Z.to_nat (bloom_length Sample.scenario_B)
                                    - length [255; 1]) 0) /\
    length (take (Z.to_nat (bloom_length Sample.scenario_B)) [255; 1]
            ++ replicate (Z.to_nat (bloom_length Sample.scenario_B)
                          - length [255; 1]) 0)
    = Z.to_nat (bloom_length Sample.scenario_B) /\
    estimated_elements bf' = estimated_elements Sample.scenario_B /\
    elements_added bf' = elements_added Sample.scenario_B /\
    false_positive_probability bf' = false_positive_probability Sample.scenario_B /\
    number_hashes bf' = number_hashes Sample.scenario_B /\
    number_bits bf' = number_bits Sample.scenario_B /\
    bloom_length bf' = bloom_length Sample.scenario_B /\
    hash_function bf' = Some (bound_strategy Sample.sample_digest None).
Proof.
  assert (Hf : files (Stdio.fclose Sample.empty_disk "cut.blm"
                        (export_header Sample.scenario_B ++ [255; 1]))
               !! "cut.blm"%string
               = Some (export_header Sample.scenario_B ++ [255; 1]))
    by (unfold Stdio.fclose; cbn [files]; apply lookup_insert_eq).
  split; [exact scenario_B_persistable|]. split; [reflexivity|]. split; [exact Hf|].
  apply (import_accepts_any_bit_store Sample.sample_digest Sample.sample_log
           Sample.scenario_B Sample.blank _ "cut.blm" None [255; 1]).
  - exact scenario_B_persistable.
  - reflexivity.
  - exact Hf.
Defined.

Lemma import_fails_only_at_open_witness :
  bloom_filter_import Sample.sample_digest Sample.sample_log true "missing.blm" None
    Sample.empty_disk Sample.blank = Some (BLOOM_FAILURE, Sample.blank) /\
  (BLOOM_FAILURE = BLOOM_FAILURE
   <-> writable Sample.empty_disk "missing.blm" = false \/
       files Sample.empty_disk !! "missing.blm"%string = None) /\
  (BLOOM_FAILURE = BLOOM_FAILURE -> Sample.blank = Sample.blank).
Proof.
  assert (Hrun : bloom_filter_import Sample.sample_digest Sample.sample_log true
                   "missing.blm" None Sample.empty_disk Sample.blank
                 = Some (BLOOM_FAILURE, Sample.blank))
    by (unfold bloom_filter_import, Stdio.fopen_rpb; cbn [writable files Sample.empty_disk];
        rewrite lookup_empty; reflexivity).
  split; [exact Hrun|].
  apply (import_fails_only_at_open Sample.sample_digest Sample.sample_log true
           "missing.blm" None Sample.empty_disk Sample.blank Sample.blank BLOOM_FAILURE).
  exact Hrun.
Defined.

Lemma false_positive_rate_num_exact_range_witness :
  0 <= 7 < 2 ^ 32 /\ 0 <= 400000000 < 2 ^ 64 /\
  false_positive_rate_num 7 400000000 = CInt.to_int (- (7 * 400000000)) /\
  (false_positive_rate_num 7 400000000 = - (7 * 400000000)
   <-> 7 * 400000000 <= 2 ^ 31).
Proof.
  split; [lia|]. split; [lia|].
  apply (false_positive_rate_num_exact_range 7 400000000); lia.
Defined.

Lemma calculate_optimal_hashes_store_covers_bits_witness :
  calculate_optimal_hashes Sample.sample_log Sample.scenario_B
  = Some (tt, Sample.scenario_B) /\
  Sample.scenario_B
  = set_bloom_length (bloom_length Sample.scenario_B)
      (set_number_bits (number_bits Sample.scenario_B)
         (set_number_hashes (number_hashes Sample.scenario_B) Sample.scenario_B)) /\
  (forall bf2,
     estimated_elements bf2 = estimated_elements Sample.scenario_B ->
     false_positive_probability bf2 = false_positive_probability Sample.scenario_B ->
     calculate_optimal_hashes Sample.sample_log bf2 =
       Some (tt, set_bloom_length (bloom_length Sample.scenario_B)
                   (set_number_bits (number_bits Sample.scenario_B)
                      (set_number_hashes (number_hashes Sample.scenario_B) bf2)))) /\
  0 <= number_hashes Sample.scenario_B < 2 ^ 32 /\
  0 <= number_bits Sample.scenario_B < 2 ^ 64 /\
  0 <= bloom_length Sample.scenario_B < 2 ^ 63 /\
  (number_bits Sample.scenario_B < 2 ^ 53 ->
   bloom_length Sample.scenario_B = (number_bits Sample.scenario_B + 7) / 8 /\
   number_bits Sample.scenario_B <= 8 * bloom_length Sample.scenario_B
   < number_bits Sample.scenario_B + 8).
Proof.
  split; [exact (p_sized _ _ scenario_B_persistable)|].
  apply (calculate_optimal_hashes_store_covers_bits Sample.sample_log
           Sample.scenario_B Sample.scenario_B).
  exact (p_sized _ _ scenario_B_persistable).
Defined.

Lemma fresh_filter_is_live_and_empty_witness :
  bloom_filter_init Sample.sample_digest Sample.sample_log true 100 Sample.f_0_05 None
    Sample.blank = Some (BLOOM_SUCCESS, Sample.scenario_B) /\
  0 < number_bits Sample.scenario_B < 2 ^ 53 /\
  number_hashes Sample.scenario_B < 2 ^ 31 /\
  valid_filter Sample.scenario_B /\
  (forall x, exists r bf',
     bloom_filter_add_string x Sample.scenario_B = Some (BLOOM_SUCCESS, bf') /\
     bloom_filter_check_string x Sample.scenario_B = Some (r, Sample.scenario_B)) /\
  (1 <= number_hashes Sample.scenario_B ->
   forall x, bloom_filter_check_string x Sample.scenario_B
             = Some (BLOOM_FAILURE, Sample.scenario_B)).
Proof.
  split; [exact scenario_B_constructed|]. split; [simpl; lia|]. split; [simpl; lia|].
  apply (fresh_filter_is_live_and_empty Sample.sample_digest Sample.sample_log 100
           Sample.f_0_05 Sample.blank Sample.scenario_B).
  - exact scenario_B_constructed.
  - simpl. lia.
  - simpl. lia.
Defined.

Lemma refused_store_is_not_reported_witness :
  bloom_filter_init Sample.sample_digest Sample.sample_log true 100 Sample.f_0_05 None
    Sample.blank = Some (BLOOM_SUCCESS, Sample.scenario_B) /\
  exists bf',
    bloom_filter_init Sample.sample_digest Sample.sample_log false 100 Sample.f_0_05 None
      Sample.blank = Some (BLOOM_SUCCESS, bf') /\
    bf' = set_bloom None Sample.scenario_B /\
    (1 <= number_hashes Sample.scenario_B ->
     forall x, bloom_filter_add_string x bf' = None /\
               bloom_filter_check_string x bf' = None).
Proof.
  split; [exact scenario_B_constructed|].
  apply (refused_store_is_not_reported Sample.sample_digest Sample.sample_log 100
           Sample.f_0_05 None Sample.blank Sample.scenario_B).
  exact scenario_B_constructed.
Defined.
